(** * Dynamic Ansible inventory ([ansible/inventory/hosting.py])

    A shallow embedding of the inventory script: the paginated fetcher
    [api_get], the static file parser [get_static_inventory], the builder
    [build_inventory] and the emitter [main], followed by the properties
    the specification states about them.

    Modelling conventions.
    - JSON values decoded by [json.loads] are the inductive type [json];
      numbers are integers (floats are left out).
    - A Python [dict] is an association list kept in insertion order:
      assigning to an existing key updates the entry in place, assigning to
      a new key appends it, exactly the order [json.dumps] and [.items()]
      observe.
    - Characters are Latin-1 code points ([ascii]).
    - The HTTP server is a script: the list of results the successive
      [urlopen] calls will produce.  Every call consumes one result and is
      logged, so "no further request" is literally "the rest of the script
      is untouched".  A run that needs more results than the script holds
      is [Exhausted] (the script says nothing about what happens next).
    - A Python exception that nothing catches is [Raise e].  Inputs on which
      Python would continue with a dictionary key that is not a string (a
      numeric hostname, say) or would format a container into a URL are
      outside the model: [OutOfModel]. *)

From Stdlib Require Import String Ascii List ZArith Bool Lia DecimalString.
Import ListNotations.
Local Open Scope string_scope.
Local Open Scope list_scope.

Set Warnings "-register-all".

(** ** Python values and primitives *)

Inductive json : Type :=
| JNull
| JBool (b : bool)
| JNum (z : Z)
| JStr (s : string)
| JArr (l : list json)
| JObj (kvs : list (string * json)).

Inductive pyerr : Type :=
| KeyError | TypeError | AttributeError | ValueError | IndexError.

Inductive outcome (A : Type) : Type :=
| Ok (a : A)
| Raise (e : pyerr)
| OutOfModel
| Exhausted.

Arguments Ok {A} a.
Arguments Raise {A} e.
Arguments OutOfModel {A}.
Arguments Exhausted {A}.

Definition bind {A B} (m : outcome A) (k : A -> outcome B) : outcome B :=
  match m with
  | Ok a => k a
  | Raise e => Raise e
  | OutOfModel => OutOfModel
  | Exhausted => Exhausted
  end.

Notation "x <- m ;; k" := (bind m (fun x => k))
  (at level 100, m at next level, right associativity).

Definition dict (V : Type) : Type := list (string * V).

Fixpoint dict_get {V} (k : string) (d : dict V) : option V :=
  match d with
  | [] => None
  | (k', v) :: d' => if String.eqb k' k then Some v else dict_get k d'
  end.

(** [d[k] = v] *)
Fixpoint dict_set {V} (k : string) (v : V) (d : dict V) : dict V :=
  match d with
  | [] => [(k, v)]
  | (k', v') :: d' =>
      if String.eqb k' k then (k', v) :: d' else (k', v') :: dict_set k v d'
  end.

(** [k in d] *)
Definition dict_mem {V} (k : string) (d : dict V) : bool :=
  match dict_get k d with Some _ => true | None => false end.

(** [d.get(k, default)] *)
Definition py_get (k : string) (default : json) (d : dict json) : json :=
  match dict_get k d with Some v => v | None => default end.

(** Python truthiness: what [if x:] and [not x] test. *)
Definition truthy (j : json) : bool :=
  match j with
  | JNull => false
  | JBool b => b
  | JNum z => negb (Z.eqb z 0)
  | JStr s => negb (String.eqb s "")
  | JArr l => match l with [] => false | _ => true end
  | JObj kvs => match kvs with [] => false | _ => true end
  end.

Fixpoint chars (s : string) : list string :=
  match s with
  | EmptyString => []
  | String c s' => String c EmptyString :: chars s'
  end.

(** What [for x in j] (and [list.extend(j)]) iterates over. *)
Definition py_iter (j : json) : outcome (list json) :=
  match j with
  | JArr l => Ok l
  | JStr s => Ok (map JStr (chars s))
  | JObj kvs => Ok (map (fun kv => JStr (fst kv)) kvs)
  | JNull | JBool _ | JNum _ => Raise TypeError
  end.

(** [str(j)], as an f-string inserts it; the [repr] of containers is not
    modelled. *)
Definition py_str (j : json) : outcome string :=
  match j with
  | JStr s => Ok s
  | JNum z => Ok (NilZero.string_of_int (Z.to_int z))
  | JBool true => Ok "True"
  | JBool false => Ok "False"
  | JNull => Ok "None"
  | JArr _ | JObj _ => OutOfModel
  end.

(** [j[k]] for a string [k]. *)
Definition py_subscript (j : json) (k : string) : outcome json :=
  match j with
  | JObj kvs => match dict_get k kvs with Some v => Ok v | None => Raise KeyError end
  | _ => Raise TypeError
  end.

(** [c in s] for a one-character [c]. *)
Fixpoint contains_char (c : ascii) (s : string) : bool :=
  match s with
  | EmptyString => false
  | String c' s' => Ascii.eqb c' c || contains_char c s'
  end.

(** [x in l] for a list of strings. *)
Fixpoint mem (x : string) (l : list string) : bool :=
  match l with
  | [] => false
  | y :: l' => String.eqb y x || mem x l'
  end.

(** ** The scripted HTTP server *)

Record request : Type := { req_url : string; req_headers : list (string * string) }.

Inductive http_result : Type :=
| TransportError          (* URLError, HTTPError or OSError from urlopen/read *)
| BadPayload              (* the body is not JSON: json.loads raises ValueError *)
| Payload (data : json).

Record World : Type := { pending : list http_result; sent : list request }.

Definition script (rs : list http_result) : World :=
  {| pending := rs; sent := [] |}.

(** Tactics for concrete runs: a run is well formed by evaluation; no
    node of a concrete walk carries a hostname. *)
Ltac run_ok := split; [vm_compute; reflexivity | split; vm_compute; reflexivity].

Ltac not_carried :=
  let v := fresh "v" in
  let Hin := fresh "Hin" in
  let H := fresh "H" in
  intros (v & Hin & H); simpl in Hin;
  repeat (destruct Hin as [<-|Hin]; [vm_compute in H; discriminate H|]);
  exact Hin.

Section Hosting.

(** Module-level configuration, read from the environment at import. *)
Variable API_URL : string.
Variable API_KEY : string.

(** Lines 33-43. *)
Definition ROLE_MAP : dict string :=
  [ ("web", "web");
    ("database", "db");
    ("dns", "dns");
    ("valkey", "valkey");
    ("email", "email");
    ("storage", "storage");
    ("s3", "storage");
    ("dbadmin", "dbadmin");
    ("lb", "lb") ].

(** ** [api_get] (lines 46-76) *)

(** Lines 52-54. *)
Definition make_request (url : string) : request :=
  {| req_url := url;
     req_headers := if String.eqb API_KEY "" then [] else [("X-API-Key", API_KEY)] |}.

(** One turn of the [while True] loop per scripted result. *)
Fixpoint api_get_loop (path url : string) (items : list json)
    (todo : list http_result) (log : list request)
  : outcome (list json) * World :=
  match todo with
  | [] => (Exhausted, {| pending := []; sent := log |})
  | r :: rest =>
      let w := {| pending := rest; sent := log ++ [make_request url] |} in
      match r with
      | TransportError => (Ok [], w)
      | BadPayload => (Raise ValueError, w)
      | Payload (JObj data) =>
          let page_items := py_get "items" (JArr []) data in
          match (if truthy page_items
                 then (more <- py_iter page_items ;; Ok (items ++ more))
                 else Ok items) with
          | Ok items' =>
              if negb (truthy (py_get "has_more" (JBool false) data))
              then (Ok items', w)
              else
                let cursor := py_get "next_cursor" (JStr "") data in
                if negb (truthy cursor) then (Ok items', w)
                else
                  let separator := if contains_char "?"%char path then "&" else "?" in
                  match py_str cursor with
                  | Ok c =>
                      api_get_loop path
                        (API_URL ++ path ++ separator ++ "cursor=" ++ c)
                        items' rest (sent w)
                  | Raise e => (Raise e, w)
                  | OutOfModel => (OutOfModel, w)
                  | Exhausted => (Exhausted, w)
                  end
          | Raise e => (Raise e, w)
          | OutOfModel => (OutOfModel, w)
          | Exhausted => (Exhausted, w)
          end
      | Payload _ => (Raise AttributeError, w)
      end
  end.

Definition api_get (path : string) (w : World) : outcome (list json) * World :=
  api_get_loop path (API_URL ++ path) [] (pending w) (sent w).

(** ** [get_static_inventory] (lines 79-110) *)

(** [str.isspace] on Latin-1 code points. *)
Definition is_space (c : ascii) : bool :=
  let n := nat_of_ascii c in
  ((9 <=? n) && (n <=? 13) || (28 <=? n) && (n <=? 32) || (n =? 133) || (n =? 160))%nat.

Fixpoint lstrip (s : string) : string :=
  match s with
  | EmptyString => EmptyString
  | String c s' => if is_space c then lstrip s' else s
  end.

Fixpoint rstrip (s : string) : string :=
  match s with
  | EmptyString => EmptyString
  | String c s' =>
      match rstrip s' with
      | EmptyString => if is_space c then EmptyString else String c EmptyString
      | r => String c r
      end
  end.

(** [s.strip()] *)
Definition strip (s : string) : string := rstrip (lstrip s).

Fixpoint split_from (cur s : string) : list string :=
  match s with
  | EmptyString => if String.eqb cur "" then [] else [cur]
  | String c s' =>
      if is_space c
      then (if String.eqb cur "" then split_from "" s' else cur :: split_from "" s')
      else split_from (cur ++ String c EmptyString) s'
  end.

(** [s.split()] *)
Definition split (s : string) : list string := split_from "" s.

(** [s.startswith(p)] *)
Definition startswith (p s : string) : bool := String.prefix p s.

(** [s.endswith(p)] *)
Fixpoint endswith (p s : string) : bool :=
  String.eqb s p ||
  match s with
  | EmptyString => false
  | String _ s' => endswith p s'
  end.

Fixpoint drop_last (s : string) : string :=
  match s with
  | EmptyString => EmptyString
  | String c EmptyString => EmptyString
  | String c s' => String c (drop_last s')
  end.

(** [s[1:-1]] *)
Definition slice_1_m1 (s : string) : string :=
  match s with
  | EmptyString => EmptyString
  | String _ s' => drop_last s'
  end.

(** [part.split("=", 1)], [None] when ["=" in part] is false. *)
Fixpoint split_eq (part : string) : option (string * string) :=
  match part with
  | EmptyString => None
  | String c s' =>
      if Ascii.eqb c "="%char then Some (EmptyString, s')
      else match split_eq s' with
           | Some (k, v) => Some (String c k, v)
           | None => None
           end
  end.

(** [d[k]] *)
Definition py_lookup {V} (k : string) (d : dict V) : outcome V :=
  match dict_get k d with Some v => Ok v | None => Raise KeyError end.

Record parser_state : Type :=
  { groups : dict (list string);
    hostvars : dict (dict string);
    current_group : option string }.

(** Lines 104-108, one token after the hostname. *)
Definition add_token (hostname : string) (hv : dict (dict string)) (part : string)
  : outcome (dict (dict string)) :=
  match split_eq part with
  | None => Ok hv
  | Some (key, val) =>
      let hv1 := if dict_mem hostname hv then hv else dict_set hostname [] hv in
      vars <- py_lookup hostname hv1 ;;
      Ok (dict_set hostname (dict_set key val vars) hv1)
  end.

Fixpoint fold_outcome {A B} (f : A -> B -> outcome A) (l : list B) (a : A) : outcome A :=
  match l with
  | [] => Ok a
  | x :: l' => a' <- f a x ;; fold_outcome f l' a'
  end.

(** Lines 91-108, the body of [for line in f]. *)
Definition parse_line (st : parser_state) (raw : string) : outcome parser_state :=
  let line := strip raw in
  if String.eqb line "" || startswith "#" line || startswith ";" line then Ok st
  else if startswith "[" line && endswith "]" line then
    let g := slice_1_m1 line in
    Ok {| groups := if dict_mem g (groups st) then groups st else dict_set g [] (groups st);
          hostvars := hostvars st;
          current_group := Some g |}
  else
    match current_group st with
    | None => Ok st
    | Some g =>
        if String.eqb g "" then Ok st
        else
          match split line with
          | [] => Raise IndexError
          | hostname :: rest =>
              hosts <- py_lookup g (groups st) ;;
              hv <- fold_outcome (add_token hostname) rest (hostvars st) ;;
              Ok {| groups := dict_set g (hosts ++ [hostname]) (groups st);
                    hostvars := hv;
                    current_group := Some g |}
          end
    end.

(** The file [static.ini] next to the script: [None] when it does not
    exist, otherwise its lines as iterating the file yields them. *)
Definition static_file : Type := option (list string).

Definition get_static_inventory (f : static_file)
  : outcome (dict (list string) * dict (dict string)) :=
  match f with
  | None => Ok ([], [])
  | Some lines =>
      st <- fold_outcome parse_line lines
              {| groups := []; hostvars := []; current_group := None |} ;;
      Ok (groups st, hostvars st)
  end.

(** ** [build_inventory] (lines 113-189) *)

(** The inventory dictionary [{"_meta": {"hostvars": hv}, g1: {"hosts": l1}, ...}].
    The key ["_meta"] is created first and never holds a ["hosts"] list, so
    the dictionary is kept as its host variables and its groups, and a
    group operation on the name ["_meta"] is the [KeyError] that
    [inventory["_meta"]["hosts"]] raises. *)
Record inventory : Type :=
  { inv_hostvars : dict json;
    inv_groups : dict (list string) }.


(** [if g not in inventory: inventory[g] = {"hosts": []}] *)
Definition ensure_group (g : string) (gs : dict (list string)) : dict (list string) :=
  if dict_mem g gs then gs else dict_set g [] gs.

(** Lines 160-162 and 164-166: create on first use, then append. *)
Definition append_host (g h : string) (inv : inventory) : outcome inventory :=
  if String.eqb g "_meta" then Raise KeyError
  else
    let gs := ensure_group g (inv_groups inv) in
    hosts <- py_lookup g gs ;;
    Ok {| inv_hostvars := inv_hostvars inv;
          inv_groups := dict_set g (hosts ++ [h]) gs |}.

(** Lines 171-174 and 182-185: create on first use, append unless present. *)
Definition append_host_once (g h : string) (inv : inventory) : outcome inventory :=
  if String.eqb g "_meta" then Raise KeyError
  else
    let gs := ensure_group g (inv_groups inv) in
    hosts <- py_lookup g gs ;;
    if mem h hosts
    then Ok {| inv_hostvars := inv_hostvars inv; inv_groups := gs |}
    else Ok {| inv_hostvars := inv_hostvars inv;
               inv_groups := dict_set g (hosts ++ [h]) gs |}.

(** [ROLE_MAP.get(role, role)] *)
Definition role_group (role : string) : string :=
  match dict_get role ROLE_MAP with Some g => g | None => role end.

(** Lines 143-147. *)
Definition shard_entry (s : json) : outcome json :=
  match s with
  | JObj d =>
      Ok (JObj [ ("shard_id", py_get "shard_id" (JStr "") d);
                 ("shard_role", py_get "shard_role" (JStr "") d);
                 ("shard_index", py_get "shard_index" (JNum 0) d) ])
  | _ => Raise AttributeError
  end.

Fixpoint map_outcome {A B} (f : A -> outcome B) (l : list A) : outcome (list B) :=
  match l with
  | [] => Ok []
  | x :: l' => y <- f x ;; ys <- map_outcome f l' ;; Ok (y :: ys)
  end.

(** Lines 170-174, one role of the node. *)
Definition add_role (h : string) (inv : inventory) (role : json) : outcome inventory :=
  match role with
  | JStr r => append_host_once (role_group r) h inv
  | JArr _ | JObj _ => Raise TypeError
  | JNull | JBool _ | JNum _ => OutOfModel
  end.

(** [api_hostnames.add(h)] *)
Definition set_add (h : string) (s : list string) : list string :=
  if mem h s then s else h :: s.

Record build_state : Type :=
  { inv : inventory;
    api_hostnames : list string }.

(** Lines 149-157. *)
Definition node_hostvars (region_id cluster_id : json) (d : dict json)
    (ip : json) (shard_assignments : list json) : json :=
  JObj [ ("ansible_host", ip);
         ("node_id", py_get "id" (JStr "") d);
         ("cluster_id", cluster_id);
         ("region_id", region_id);
         ("node_roles", py_get "roles" (JArr []) d);
         ("node_status", py_get "status" (JStr "") d);
         ("shard_assignments", JArr shard_assignments) ].

(** One node the walk reaches, with the identifiers and group names of the
    cluster and region it was listed under. *)
Record visit : Type :=
  { v_region_id : json;
    v_region_group : string;
    v_cluster_id : json;
    v_cluster_group : string;
    v_node : json }.

(** Lines 141-157: the variables of the node [d] reached by [v]. *)
Definition host_variables (v : visit) (d : dict json) : outcome json :=
  shards <- py_iter (py_get "shards" (JArr []) d) ;;
  shard_assignments <- map_outcome shard_entry shards ;;
  Ok (node_hostvars (v_region_id v) (v_cluster_id v) d
        (py_get "ip_address" (JStr "") d) shard_assignments).

(** Lines 133-174, the body of [for node in nodes]. *)
Definition process_node (v : visit) (st : build_state) : outcome build_state :=
  match v_node v with
  | JObj d =>
      let hostname := py_get "hostname" (JStr "") d in
      let ip := py_get "ip_address" (JStr "") d in
      if negb (truthy hostname) || negb (truthy ip) then Ok st
      else
        match hostname with
        | JStr h =>
            vars <- host_variables v d ;;
            let hv := dict_set h vars (inv_hostvars (inv st)) in
            i1 <- append_host (v_region_group v) h
                    {| inv_hostvars := hv; inv_groups := inv_groups (inv st) |} ;;
            i2 <- append_host (v_cluster_group v) h i1 ;;
            roles <- py_iter (py_get "roles" (JArr []) d) ;;
            i3 <- fold_outcome (add_role h) roles i2 ;;
            Ok {| inv := i3; api_hostnames := set_add h (api_hostnames st) |}
        | JArr _ | JObj _ => Raise TypeError
        | JNull | JBool _ | JNum _ => OutOfModel
        end
  | _ => Raise AttributeError
  end.

(** Computations that talk to the server: the outcome and the world left
    behind.  An exception stops the computation where it is raised. *)
Definition M (A : Type) : Type := World -> outcome A * World.

Definition retM {A} (a : A) : M A := fun w => (Ok a, w).

Definition liftM {A} (o : outcome A) : M A := fun w => (o, w).

Definition bindM {A B} (m : M A) (k : A -> M B) : M B :=
  fun w =>
    match m w with
    | (Ok a, w') => k a w'
    | (Raise e, w') => (Raise e, w')
    | (OutOfModel, w') => (OutOfModel, w')
    | (Exhausted, w') => (Exhausted, w')
    end.

Notation "x <~ m ;; k" := (bindM m (fun x => k))
  (at level 100, m at next level, right associativity).

(** Lines 132-174. *)
Definition for_nodes (rid : json) (rgroup : string) (cid : json) (cgroup : string)
    (nodes : list json) (st : build_state) : outcome build_state :=
  fold_outcome
    (fun st node =>
       process_node {| v_region_id := rid; v_region_group := rgroup;
                       v_cluster_id := cid; v_cluster_group := cgroup;
                       v_node := node |} st)
    nodes st.

(** Lines 127-174. *)
Fixpoint for_clusters (rid : json) (rgroup : string) (clusters : list json)
    (st : build_state) : M build_state :=
  match clusters with
  | [] => retM st
  | cluster :: rest =>
      cid <~ liftM (py_subscript cluster "id") ;;
      cid_s <~ liftM (py_str cid) ;;
      let cgroup := ("cluster_" ++ cid_s)%string in
      nodes <~ api_get ("/clusters/" ++ cid_s ++ "/nodes")%string ;;
      st' <~ liftM (for_nodes rid rgroup cid cgroup nodes st) ;;
      for_clusters rid rgroup rest st'
  end.

(** Lines 122-174. *)
Fixpoint for_regions (regions : list json) (st : build_state) : M build_state :=
  match regions with
  | [] => retM st
  | region :: rest =>
      rid <~ liftM (py_subscript region "id") ;;
      rid_s <~ liftM (py_str rid) ;;
      let rgroup := ("region_" ++ rid_s)%string in
      clusters <~ api_get ("/regions/" ++ rid_s ++ "/clusters")%string ;;
      st' <~ for_clusters rid rgroup clusters st ;;
      for_regions rest st'
  end.

(** [static_hostvars[hostname]] as the value stored in the document. *)
Definition static_vars_json (vars : dict string) : json :=
  JObj (map (fun kv => (fst kv, JStr (snd kv))) vars).

(** Lines 180-187, the body of [for hostname in hosts]. *)
Definition merge_host (api : list string) (sh : dict (dict string)) (g : string)
    (i : inventory) (h : string) : outcome inventory :=
  if mem h api then Ok i
  else
    i1 <- append_host_once g h i ;;
    match dict_get h sh with
    | Some vars =>
        Ok {| inv_hostvars := dict_set h (static_vars_json vars) (inv_hostvars i1);
              inv_groups := inv_groups i1 |}
    | None => Ok i1
    end.

(** Lines 178-187. *)
Definition merge_static (api : list string) (sg : dict (list string))
    (sh : dict (dict string)) (i : inventory) : outcome inventory :=
  fold_outcome (fun i entry => fold_outcome (merge_host api sh (fst entry)) (snd entry) i)
    sg i.

Definition empty_state : build_state :=
  {| inv := {| inv_hostvars := []; inv_groups := [] |}; api_hostnames := [] |}.

Definition build_inventory (f : static_file) : M inventory :=
  regions <~ api_get "/regions" ;;
  st <~ for_regions regions empty_state ;;
  static <~ liftM (get_static_inventory f) ;;
  liftM (merge_static (api_hostnames st) (fst static) (snd static) (inv st)).

(** *** The walk alone

    The requests of [build_inventory] depend on earlier responses only, never
    on the inventory under construction.  [api_walk] issues the same
    requests in the same order and lists the nodes reached, in traversal
    order; it is used to name "the nodes the API returned". *)

Fixpoint walk_clusters (rid : json) (rgroup : string) (clusters : list json)
  : M (list visit) :=
  match clusters with
  | [] => retM []
  | cluster :: rest =>
      cid <~ liftM (py_subscript cluster "id") ;;
      cid_s <~ liftM (py_str cid) ;;
      let cgroup := ("cluster_" ++ cid_s)%string in
      nodes <~ api_get ("/clusters/" ++ cid_s ++ "/nodes")%string ;;
      vs <~ walk_clusters rid rgroup rest ;;
      retM (map (fun node => {| v_region_id := rid; v_region_group := rgroup;
                                v_cluster_id := cid; v_cluster_group := cgroup;
                                v_node := node |}) nodes ++ vs)
  end.

Fixpoint walk_regions (regions : list json) : M (list visit) :=
  match regions with
  | [] => retM []
  | region :: rest =>
      rid <~ liftM (py_subscript region "id") ;;
      rid_s <~ liftM (py_str rid) ;;
      let rgroup := ("region_" ++ rid_s)%string in
      clusters <~ api_get ("/regions/" ++ rid_s ++ "/clusters")%string ;;
      vs1 <~ walk_clusters rid rgroup clusters ;;
      vs2 <~ walk_regions rest ;;
      retM (vs1 ++ vs2)
  end.

Definition api_walk : M (list visit) :=
  regions <~ api_get "/regions" ;;
  walk_regions regions.

(** The inventory after the nodes [vs], before the static merge. *)
Definition process_visits (vs : list visit) (st : build_state) : outcome build_state :=
  fold_outcome (fun st v => process_node v st) vs st.

(** ** [json.dumps] and [main] (lines 192-199) *)

Local Open Scope string_scope.














Local Open Scope list_scope.

(** ** Vocabulary of the specification *)

(** A well-formed page: [items], when present, is a list; [has_more], when
    present, a boolean; [next_cursor], when present, a string. *)
Definition wf_page (p : dict json) : bool :=
  match dict_get "items" p with None | Some (JArr _) => true | Some _ => false end
  && match dict_get "has_more" p with None | Some (JBool _) => true | Some _ => false end
  && match dict_get "next_cursor" p with None | Some (JStr _) => true | Some _ => false end.

Definition page_items (p : dict json) : list json :=
  match dict_get "items" p with Some (JArr l) => l | _ => [] end.

Definition page_has_more (p : dict json) : bool :=
  match dict_get "has_more" p with Some (JBool b) => b | _ => false end.

Definition page_cursor (p : dict json) : string :=
  match dict_get "next_cursor" p with Some (JStr s) => s | _ => "" end.

(** [has_more] is false, or [next_cursor] is empty or missing. *)
Definition page_stops (p : dict json) : bool :=
  negb (page_has_more p) || String.eqb (page_cursor p) "".

Definition responses (ps : list (dict json)) : list http_result :=
  map (fun p => Payload (JObj p)) ps.

(** The URL requested after the page [p] (lines 73-74). *)
Definition next_url (path : string) (p : dict json) : string :=
  (API_URL ++ path ++ (if contains_char "?"%char path then "&" else "?")
     ++ "cursor=" ++ page_cursor p)%string.

(** The requests that fetch a first page and then one page after each of
    [ps]. *)
Definition page_requests (path : string) (ps : list (dict json)) : list request :=
  map make_request ((API_URL ++ path)%string :: map (next_url path) ps).

(** The [hosts] list of group [g] in the document ([[]] when the document
    has no such group) and the [_meta.hostvars] entry of [h]. *)
Definition hosts_of (g : string) (i : inventory) : list string :=
  match dict_get g (inv_groups i) with Some l => l | None => [] end.

Definition vars_of (h : string) (i : inventory) : option json :=
  dict_get h (inv_hostvars i).

(** The node reached by [v] passes the test of line 135 and its hostname
    is [h]: a valid node carrying [h]. *)
Definition carries (h : string) (v : visit) : bool :=
  match v_node v with
  | JObj d =>
      match py_get "hostname" (JStr "") d with
      | JStr h' =>
          String.eqb h' h && truthy (JStr h')
          && truthy (py_get "ip_address" (JStr "") d)
      | _ => false
      end
  | _ => false
  end.

(** The node reached by [v] fails the test of line 135: its hostname or
    its ip address is empty or absent. *)
Definition lacks_hostname_or_ip (v : visit) : bool :=
  match v_node v with
  | JObj d =>
      negb (truthy (py_get "hostname" (JStr "") d))
      || negb (truthy (py_get "ip_address" (JStr "") d))
  | _ => false
  end.

(** The API-derived variables of the node reached by [v]. *)
Definition api_variables (v : visit) : option json :=
  match v_node v with
  | JObj d => match host_variables v d with Ok vars => Some vars | _ => None end
  | _ => None
  end.

(** The role tags of the node reached by [v]. *)
Definition roles_of (v : visit) : list json :=
  match v_node v with
  | JObj d => match py_get "roles" (JArr []) d with JArr l => l | _ => [] end
  | _ => []
  end.

Definition is_obj (j : json) : bool :=
  match j with JObj _ => true | _ => false end.

Definition role_ok (j : json) : bool :=
  match j with
  | JStr r => negb (String.eqb (role_group r) "_meta")
  | _ => false
  end.

(** A node as the data model has it: an object whose hostname, when it
    passes the test of line 135, is a string, whose [shards] is a list of
    objects and whose [roles] is a list of strings, none of which names
    the reserved key [_meta]. *)
Definition wf_node (n : json) : bool :=
  match n with
  | JObj d =>
      if negb (truthy (py_get "hostname" (JStr "") d))
         || negb (truthy (py_get "ip_address" (JStr "") d))
      then true
      else
        match py_get "hostname" (JStr "") d with JStr _ => true | _ => false end
        && match py_get "shards" (JArr []) d with JArr l => forallb is_obj l | _ => false end
        && match py_get "roles" (JArr []) d with JArr l => forallb role_ok l | _ => false end
  | _ => false
  end.

(** The static file names no group [_meta]. *)
Definition static_wf (f : static_file) : bool :=
  match get_static_inventory f with
  | Ok (sg, _) => forallb (fun e => negb (String.eqb (fst e) "_meta")) sg
  | _ => false
  end.

(** The static groups list [h] under [g]. *)
Definition static_lists (sg : dict (list string)) (g h : string) : Prop :=
  exists hosts, In (g, hosts) sg /\ In h hosts.

(** [i'] is [i] with some occurrences of [h] appended to group lists. *)
Definition adds_only (h : string) (i i' : inventory) : Prop :=
  inv_hostvars i' = inv_hostvars i
  /\ forall g, exists n, hosts_of g i' = hosts_of g i ++ repeat h n.

(** Some valid node among [vs] carries [h]. *)
Definition carried (vs : list visit) (h : string) : Prop :=
  exists v, In v vs /\ carries h v = true.

(** Everything [st'] holds beyond [st] comes from a valid node of [vs]. *)
Definition from_carriers (vs : list visit) (st st' : build_state) : Prop :=
  (forall g x, In x (hosts_of g (inv st')) -> In x (hosts_of g (inv st)) \/ carried vs x)
  /\ (forall x, vars_of x (inv st') <> None -> vars_of x (inv st) <> None \/ carried vs x)
  /\ (forall x, In x (api_hostnames st') -> In x (api_hostnames st) \/ carried vs x).

(** Nothing [st] holds is lost in [st']. *)
Definition keeps (st st' : build_state) : Prop :=
  (forall g x, In x (hosts_of g (inv st)) -> In x (hosts_of g (inv st')))
  /\ (forall x, In x (api_hostnames st) -> In x (api_hostnames st')).

(** The (group, hostname) pairs of the static groups, in the order the
    merge visits them. *)
Definition static_pairs (sg : dict (list string)) : list (string * string) :=
  flat_map (fun e => map (pair (fst e)) (snd e)) sg.

Definition merge_pair (api : list string) (sh : dict (dict string))
    (i : inventory) (p : string * string) : outcome inventory :=
  merge_host api sh (fst p) i (snd p).

(** The entry the static variables of [h] give in the document. *)
Definition static_entry (sh : dict (dict string)) (h : string) : option json :=
  match dict_get h sh with
  | Some vars => Some (static_vars_json vars)
  | None => None
  end.

(** The visit of [node] under cluster [cid] of region [rid]. *)
Definition visit_of (rid : json) (rgroup : string) (cid : json) (cgroup : string)
    (node : json) : visit :=
  {| v_region_id := rid; v_region_group := rgroup;
     v_cluster_id := cid; v_cluster_group := cgroup; v_node := node |}.

(** The document assembled from the nodes [vs] and the static file. *)
Definition assemble (vs : list visit) (f : static_file) : outcome inventory :=
  st <- process_visits vs empty_state ;;
  static <- get_static_inventory f ;;
  merge_static (api_hostnames st) (fst static) (snd static) (inv st).

(** A run in which the API answered the walk with the nodes [vs], every
    one as the data model has it, and the static file names no group
    [_meta]. *)
Definition well_formed_run (w : World) (f : static_file) (vs : list visit)
    (w' : World) : Prop :=
  api_walk w = (Ok vs, w')
  /\ forallb (fun v => wf_node (v_node v)) vs = true
  /\ static_wf f = true.

(** The group names a visit carries never denote the reserved key and
    never coincide. *)
Definition visit_groups_ok (v : visit) : Prop :=
  v_region_group v <> "_meta"
  /\ v_cluster_group v <> "_meta"
  /\ v_region_group v <> v_cluster_group v.

(** The static file lists [h] under the group [g]. *)
Definition static_hosts (f : static_file) (g h : string) : Prop :=
  exists sg sh, get_static_inventory f = Ok (sg, sh) /\ static_lists sg g h.

(** The number of times [h] occurs in the [hosts] list of [g]. *)
Definition occurrences (h g : string) (i : inventory) : nat :=
  count_occ string_dec (hosts_of g i) h.

(** The open group always has its list. *)
Definition parser_inv (st : parser_state) : Prop :=
  forall g, current_group st = Some g -> dict_mem g (groups st) = true.

(** The line is a [[name]] header (the test of line 94). *)
Definition is_header (raw : string) : bool :=
  startswith "[" (strip raw) && endswith "]" (strip raw).

(** No two nodes of [vs] that pass the test of line 135 have the same
    hostname. *)
Definition hostnames_unique (vs : list visit) : Prop :=
  forall h pre v post,
    vs = pre ++ v :: post -> carries h v = true ->
    (forall v', In v' pre -> carries h v' = false)
    /\ (forall v', In v' post -> carries h v' = false).

(** The keys of the dictionary stored for an API host (lines 149-157). *)
Definition api_variable_names : list string :=
  ["ansible_host"; "node_id"; "cluster_id"; "region_id"; "node_roles";
   "node_status"; "shard_assignments"].

(** The role tags the loop of line 169 iterates over. *)
Definition role_tags (v : visit) : list json :=
  match v_node v with
  | JObj d =>
      match py_iter (py_get "roles" (JArr []) d) with Ok l => l | _ => [] end
  | _ => []
  end.

(** [g] is a group lines 159-174 put the host of [v] in: its region
    group, its cluster group or the group of one of its role tags. *)
Definition names_group (v : visit) (g : string) : Prop :=
  g = v_region_group v
  \/ g = v_cluster_group v
  \/ exists r, In (JStr r) (role_tags v) /\ g = role_group r.

(** The path of the clusters request for [region] (line 126), when the
    region has an [id] that can be formatted. *)
Definition clusters_path (region : json) : option string :=
  match py_subscript region "id" with
  | Ok rid =>
      match py_str rid with
      | Ok s => Some ("/regions/" ++ s ++ "/clusters")%string
      | _ => None
      end
  | _ => None
  end.

(** The path of the nodes request for [cluster] (line 131). *)
Definition nodes_path (cluster : json) : option string :=
  match py_subscript cluster "id" with
  | Ok cid =>
      match py_str cid with
      | Ok s => Some ("/clusters/" ++ s ++ "/nodes")%string
      | _ => None
      end
  | _ => None
  end.

(** The first request for [path]. *)
Definition first_request (path : string) : request :=
  make_request (API_URL ++ path)%string.

(** A one-page answer listing [items]. *)
Definition single_page (items : list json) : http_result :=
  Payload (JObj [("items", JArr items)]).


(** The line is blank or a comment (the test of line 92). *)
Definition is_comment (raw : string) : bool :=
  String.eqb (strip raw) "" || startswith "#" (strip raw) || startswith ";" (strip raw).

(** What the static parser keeps true of its state. *)
Definition parser_sound (st : parser_state) : Prop :=
  NoDup (map fst (groups st))
  /\ NoDup (map fst (hostvars st))
  /\ (forall h, dict_get h (hostvars st) <> None ->
                exists g hosts, dict_get g (groups st) = Some hosts /\ In h hosts)
  /\ (forall hosts, dict_get "" (groups st) = Some hosts -> hosts = [])
  /\ (forall h vars, dict_get h (hostvars st) = Some vars ->
                     vars <> [] /\ NoDup (map fst vars))
  /\ parser_inv st.

(** No host list and no variable mapping of the parser names the empty
    hostname. *)
Definition no_empty_host (st : parser_state) : Prop :=
  (forall g hosts, dict_get g (groups st) = Some hosts -> ~ In "" hosts)
  /\ dict_get "" (hostvars st) = None.

(** The inventory is a dictionary as [json.dumps] expects it: no group
    name and no hostname is a key twice, no group is named by the reserved
    key, and every group holds at least one host. *)
Definition inventory_sound (i : inventory) : Prop :=
  NoDup (map fst (inv_groups i))
  /\ NoDup (map fst (inv_hostvars i))
  /\ ~ In "_meta" (map fst (inv_groups i))
  /\ forall g hosts, dict_get g (inv_groups i) = Some hosts -> hosts <> [].



(** *** The printed document, line by line

    The specification's words for the output: JSON on standard output
    with an indentation of two spaces, in the schema [{"_meta":
    {"hostvars": {hostname: {...}}}, group_name: {"hosts": [hostname,
    ...]}, ...}].  The definitions below write that text down without
    the encoder: a text is a list of lines, a line is a nesting depth and
    what follows the indentation. *)













(** ** Example inputs *)

Definition example_url : string := "http://10.10.10.2:8090/api/v1".
Definition example_key : string := "secret".

(** A last page holding [items]. *)
Definition page (items : list json) : http_result :=
  Payload (JObj [("items", JArr items)]).

Definition first_page : dict json :=
  [("items", JArr [JStr "a"; JStr "b"]); ("has_more", JBool true);
   ("next_cursor", JStr "c2")].

Definition last_page : dict json :=
  [("items", JArr [JStr "c"]); ("has_more", JBool false)].

Definition region_r1 : json := JObj [("id", JStr "r1")].
Definition cluster_c1 : json := JObj [("id", JStr "c1")].

Definition node_web1 : json :=
  JObj [("hostname", JStr "web1"); ("ip_address", JStr "10.0.0.1");
        ("roles", JArr [JStr "web"]); ("shards", JArr [])].

Definition node_web1_moved : json :=
  JObj [("id", JStr "n7"); ("hostname", JStr "web1"); ("ip_address", JStr "10.0.0.7");
        ("roles", JArr [JStr "web"]); ("status", JStr "active")].

Definition node_db1 : json :=
  JObj [("id", JStr "n2"); ("hostname", JStr "db1"); ("ip_address", JStr "10.0.0.2");
        ("roles", JArr [JStr "database"]); ("status", JStr "active");
        ("shards", JArr [JObj [("shard_id", JStr "s1"); ("shard_role", JStr "primary")]])].

(** A node the API lists before it has an address. *)
Definition node_cp1_no_ip : json :=
  JObj [("hostname", JStr "cp1"); ("ip_address", JStr "");
        ("roles", JArr [JStr "database"])].

(** A node the API lists without an address. *)
Definition node_web1_no_ip : json :=
  JObj [("hostname", JStr "web1"); ("roles", JArr [JStr "web"])].

(** A node whose role tag is the reserved key of the document. *)
Definition node_meta_role : json :=
  JObj [("hostname", JStr "web2"); ("ip_address", JStr "10.0.0.8");
        ("roles", JArr [JStr "_meta"])].

(** One region holding one cluster holding [nodes], each list on one page. *)
Definition one_cluster (nodes : list json) : World :=
  script [page [region_r1]; page [cluster_c1]; page nodes].

Definition run_db : World := one_cluster [node_db1].
Definition run_db_web : World := one_cluster [node_db1; node_web1].
Definition run_cp1_db : World := one_cluster [node_cp1_no_ip; node_db1].
Definition run_web1_twice : World := one_cluster [node_web1; node_web1_moved].

(** The world the walk leaves behind. *)
Definition after_walk (w : World) : World := snd (api_walk w).

Definition visit_in_c1 (node : json) : visit :=
  visit_of (JStr "r1") "region_r1" (JStr "c1") "cluster_c1" node.

Definition static_controlplane : static_file :=
  Some ["[controlplane]"; "cp1 ansible_host=10.0.0.5 env=prod"].

Definition static_bare_host : static_file :=
  Some ["[controlplane]"; "cp1"].

Definition static_web : static_file :=
  Some ["# fallback"; "[web]"; "web1 ansible_host=192.168.0.1"; "web9"].



(** ** The fetcher *)

Lemma wf_page_extend (p : dict json) (items : list json) :
  wf_page p = true ->
  (if truthy (py_get "items" (JArr []) p)
   then (more <- py_iter (py_get "items" (JArr []) p) ;; Ok (items ++ more))
   else Ok items) = Ok (items ++ page_items p).
Proof.
  unfold wf_page, page_items, py_get. intros H.
  destruct (dict_get "items" p) as [[| | | |l|]|]; simpl in *; try discriminate;
    try (rewrite app_nil_r; reflexivity).
  destruct l; simpl; [rewrite app_nil_r|]; reflexivity.
Qed.

Lemma wf_page_has_more (p : dict json) :
  wf_page p = true ->
  truthy (py_get "has_more" (JBool false) p) = page_has_more p.
Proof.
  unfold wf_page, page_has_more, py_get. intros H.
  apply andb_prop in H. destruct H as [H _]. apply andb_prop in H. destruct H as [_ H].
  destruct (dict_get "has_more" p) as [[| | | | |]|]; simpl in *; try discriminate; reflexivity.
Qed.

Lemma wf_page_cursor (p : dict json) :
  wf_page p = true ->
  py_get "next_cursor" (JStr "") p = JStr (page_cursor p).
Proof.
  unfold wf_page, page_cursor, py_get. intros H.
  apply andb_prop in H. destruct H as [_ H].
  destruct (dict_get "next_cursor" p) as [[| | | | |]|]; simpl in *; try discriminate; reflexivity.
Qed.

(** A page that stops ends the loop with the items gathered so far. *)
Lemma api_get_loop_stop (path url : string) (items : list json) (p : dict json)
    (rest : list http_result) (log : list request) :
  wf_page p = true -> page_stops p = true ->
  api_get_loop path url items (Payload (JObj p) :: rest) log
  = (Ok (items ++ page_items p),
     {| pending := rest; sent := log ++ [make_request url] |}).
Proof.
  intros Hwf Hstop. simpl.
  rewrite (wf_page_extend p items Hwf), (wf_page_has_more p Hwf), (wf_page_cursor p Hwf).
  unfold page_stops in Hstop. simpl.
  destruct (page_has_more p); simpl in *; [|reflexivity].
  rewrite Hstop. reflexivity.
Qed.

(** A page that does not stop sends the loop to the cursor URL. *)
Lemma api_get_loop_continue (path url : string) (items : list json) (p : dict json)
    (rest : list http_result) (log : list request) :
  wf_page p = true -> page_stops p = false ->
  api_get_loop path url items (Payload (JObj p) :: rest) log
  = api_get_loop path (next_url path p) (items ++ page_items p) rest
      (log ++ [make_request url]).
Proof.
  intros Hwf Hstop. simpl.
  rewrite (wf_page_extend p items Hwf), (wf_page_has_more p Hwf), (wf_page_cursor p Hwf).
  unfold page_stops in Hstop. simpl.
  apply orb_false_elim in Hstop. destruct Hstop as [Hm Hc].
  apply negb_false_iff in Hm. rewrite Hm, Hc. reflexivity.
Qed.

Lemma api_get_loop_pages (path : string) (before : list (dict json)) :
  forall (url : string) (items : list json) (last : dict json)
         (rest : list http_result) (log : list request),
  Forall (fun p => wf_page p = true) (before ++ [last]) ->
  Forall (fun p => page_stops p = false) before ->
  page_stops last = true ->
  api_get_loop path url items (responses (before ++ [last]) ++ rest) log
  = (Ok (items ++ concat (map page_items (before ++ [last]))),
     {| pending := rest;
        sent := log ++ map make_request (url :: map (next_url path) before) |}).
Proof.
  induction before as [|p before IH]; intros url items last rest log Hwf Hgo Hstop.
  - inversion Hwf; subst.
    change (responses ([] ++ [last]) ++ rest) with (Payload (JObj last) :: rest).
    rewrite api_get_loop_stop by assumption. simpl. rewrite app_nil_r. reflexivity.
  - inversion Hwf; subst. inversion Hgo; subst.
    change (responses ((p :: before) ++ [last]) ++ rest)
      with (Payload (JObj p) :: (responses (before ++ [last]) ++ rest)).
    rewrite api_get_loop_continue by assumption.
    rewrite IH by assumption. simpl. rewrite <- !app_assoc. reflexivity.
Qed.

(** C1. For every sequence of well-formed pages, [api_get] returns the
    concatenation of the pages' [items] in page order; after every page
    that has [has_more] true and a non-empty [next_cursor] it issues the
    next request, and after the first page with [has_more] false or an
    empty or missing [next_cursor] it issues none: exactly one request per
    page was sent and the rest of the script is untouched. *)
Theorem api_get_concatenates_pages (path : string) (before : list (dict json))
    (last : dict json) (rest : list http_result) (log : list request) :
  Forall (fun p => wf_page p = true) (before ++ [last]) ->
  Forall (fun p => page_stops p = false) before ->
  page_stops last = true ->
  api_get path {| pending := responses (before ++ [last]) ++ rest; sent := log |}
  = (Ok (concat (map page_items (before ++ [last]))),
     {| pending := rest; sent := log ++ page_requests path before |}).
Proof.
  intros Hwf Hgo Hstop. unfold api_get, page_requests. simpl pending. simpl sent.
  rewrite api_get_loop_pages by assumption. reflexivity.
Qed.

Lemma api_get_loop_transport_error (path : string) (before : list (dict json)) :
  forall (url : string) (items : list json)
         (rest : list http_result) (log : list request),
  Forall (fun p => wf_page p = true) before ->
  Forall (fun p => page_stops p = false) before ->
  api_get_loop path url items (responses before ++ TransportError :: rest) log
  = (Ok [],
     {| pending := rest;
        sent := log ++ map make_request (url :: map (next_url path) before) |}).
Proof.
  induction before as [|p before IH]; intros url items rest log Hwf Hgo.
  - reflexivity.
  - inversion Hwf; subst. inversion Hgo; subst.
    change (responses (p :: before) ++ TransportError :: rest)
      with (Payload (JObj p) :: (responses before ++ TransportError :: rest)).
    rewrite api_get_loop_continue by assumption.
    rewrite IH by assumption. simpl. rewrite <- !app_assoc. reflexivity.
Qed.

(** C2. When the request for some page raises a transport-level error,
    [api_get] returns the empty list, whatever the pages fetched before it
    held. *)
Theorem api_get_transport_error_empty (path : string) (before : list (dict json))
    (rest : list http_result) (log : list request) :
  Forall (fun p => wf_page p = true) before ->
  Forall (fun p => page_stops p = false) before ->
  api_get path {| pending := responses before ++ TransportError :: rest; sent := log |}
  = (Ok [], {| pending := rest; sent := log ++ page_requests path before |}).
Proof.
  intros Hwf Hgo. unfold api_get, page_requests. simpl pending. simpl sent.
  apply api_get_loop_transport_error; assumption.
Qed.

(** ** Dictionaries *)

Lemma dict_get_set_same {V} (k : string) (v : V) (d : dict V) :
  dict_get k (dict_set k v d) = Some v.
Proof.
  induction d as [|[k' v'] d IH]; simpl.
  - rewrite String.eqb_refl. reflexivity.
  - destruct (String.eqb k' k) eqn:E; simpl; rewrite E; auto.
Qed.

Lemma dict_get_set_other {V} (k k' : string) (v : V) (d : dict V) :
  k <> k' -> dict_get k' (dict_set k v d) = dict_get k' d.
Proof.
  intros Hne. induction d as [|[k0 v0] d IH]; simpl.
  - destruct (String.eqb k k') eqn:E; [apply String.eqb_eq in E; contradiction|reflexivity].
  - destruct (String.eqb k0 k) eqn:E; simpl.
    + apply String.eqb_eq in E. subst k0.
      destruct (String.eqb k k') eqn:E'; [apply String.eqb_eq in E'; contradiction|reflexivity].
    + destruct (String.eqb k0 k'); auto.
Qed.

Lemma dict_get_ensure_same (g : string) (gs : dict (list string)) :
  exists hosts, dict_get g (ensure_group g gs) = Some hosts
                /\ hosts = match dict_get g gs with Some l => l | None => [] end.
Proof.
  unfold ensure_group, dict_mem.
  destruct (dict_get g gs) as [l|] eqn:E.
  - exists l. rewrite E. auto.
  - exists []. rewrite dict_get_set_same. auto.
Qed.

Lemma dict_get_ensure_other (g g' : string) (gs : dict (list string)) :
  g <> g' -> dict_get g' (ensure_group g gs) = dict_get g' gs.
Proof.
  intros Hne. unfold ensure_group. destruct (dict_mem g gs); [reflexivity|].
  apply dict_get_set_other; assumption.
Qed.

Lemma mem_In (x : string) (l : list string) : mem x l = true <-> In x l.
Proof.
  induction l as [|y l IH]; simpl.
  - split; [discriminate|tauto].
  - rewrite orb_true_iff, String.eqb_eq, IH. tauto.
Qed.

Lemma mem_not_In (x : string) (l : list string) : mem x l = false <-> ~ In x l.
Proof.
  rewrite <- mem_In. destruct (mem x l); split; congruence.
Qed.

(** ** The static file parser *)

Lemma split_eq_none (part : string) :
  contains_char "="%char part = false <-> split_eq part = None.
Proof.
  induction part as [|c part IH]; simpl.
  - tauto.
  - destruct (Ascii.eqb c "="%char); simpl.
    + split; discriminate.
    + rewrite IH. destruct (split_eq part) as [[k v]|]; split; congruence.
Qed.

Lemma add_token_ok (hostname : string) (hv : dict (dict string)) (part : string) :
  exists hv', add_token hostname hv part = Ok hv'.
Proof.
  unfold add_token. destruct (split_eq part) as [[k v]|]; [|eauto].
  unfold py_lookup, dict_mem.
  destruct (dict_get hostname hv) as [vars|] eqn:E.
  - rewrite E. simpl. eauto.
  - rewrite dict_get_set_same. simpl. eauto.
Qed.

Lemma add_tokens_ok (hostname : string) (rest : list string) :
  forall hv, exists hv', fold_outcome (add_token hostname) rest hv = Ok hv'.
Proof.
  induction rest as [|part rest IH]; intros hv; simpl.
  - eauto.
  - destruct (add_token_ok hostname hv part) as [hv1 E]. rewrite E. simpl. apply IH.
Qed.

Lemma rstrip_head (c : ascii) (s : string) :
  is_space c = false -> rstrip (String c s) = String c (rstrip s).
Proof.
  intros H. simpl. rewrite H. destruct (rstrip s); reflexivity.
Qed.

Lemma lstrip_head (s : string) :
  lstrip s = EmptyString \/ exists c t, lstrip s = String c t /\ is_space c = false.
Proof.
  induction s as [|c s IH]; simpl.
  - auto.
  - destruct (is_space c) eqn:E; [assumption|]. right. eauto.
Qed.

Lemma strip_head (s : string) :
  strip s = EmptyString \/ exists c t, strip s = String c t /\ is_space c = false.
Proof.
  unfold strip. destruct (lstrip_head s) as [E|(c & t & E & Hc)]; rewrite E.
  - auto.
  - right. rewrite rstrip_head by assumption. eauto.
Qed.

Lemma split_from_nonempty (s : string) :
  forall cur, cur <> EmptyString -> split_from cur s <> [].
Proof.
  induction s as [|c s IH]; intros cur Hcur; simpl.
  - destruct (String.eqb cur "") eqn:E; [apply String.eqb_eq in E; contradiction|discriminate].
  - destruct (is_space c).
    + destruct (String.eqb cur "") eqn:E; [apply String.eqb_eq in E; contradiction|discriminate].
    + apply IH. destruct cur; [contradiction|discriminate].
Qed.

(** [parts[0]] exists on every line that is not blank. *)
Lemma split_strip_nonempty (raw : string) :
  strip raw <> EmptyString -> split (strip raw) <> [].
Proof.
  intros Hne. destruct (strip_head raw) as [E|(c & t & E & Hc)]; [contradiction|].
  rewrite E. unfold split. simpl. rewrite Hc. apply split_from_nonempty. discriminate.
Qed.

Lemma dict_mem_set {V} (k k' : string) (v : V) (d : dict V) :
  dict_mem k' d = true -> dict_mem k' (dict_set k v d) = true.
Proof.
  unfold dict_mem. intros H.
  destruct (string_dec k k') as [->|Hne].
  - rewrite dict_get_set_same. reflexivity.
  - rewrite dict_get_set_other by assumption. assumption.
Qed.

Lemma parse_line_ok (st : parser_state) (raw : string) :
  parser_inv st -> exists st', parse_line st raw = Ok st' /\ parser_inv st'.
Proof.
  intros Hinv. unfold parse_line.
  destruct (String.eqb (strip raw) "" || startswith "#" (strip raw)
            || startswith ";" (strip raw)) eqn:Ec; [eauto|].
  destruct (startswith "[" (strip raw) && endswith "]" (strip raw)).
  - eexists. split; [reflexivity|]. intros g Hg. simpl in *. inversion Hg; subst.
    unfold dict_mem at 1.
    destruct (dict_mem (slice_1_m1 (strip raw)) (groups st)) eqn:E.
    + unfold dict_mem in E. destruct (dict_get _ (groups st)); congruence.
    + rewrite dict_get_set_same. reflexivity.
  - destruct (current_group st) as [g|] eqn:Eg; [|eauto].
    destruct (String.eqb g ""); [eauto|].
    apply orb_false_elim in Ec. destruct Ec as [Ec _].
    apply orb_false_elim in Ec. destruct Ec as [Ec _].
    apply String.eqb_neq in Ec. apply split_strip_nonempty in Ec.
    destruct (split (strip raw)) as [|hostname rest]; [congruence|].
    pose proof (Hinv g Eg) as Hm. unfold dict_mem in Hm. unfold py_lookup.
    destruct (dict_get g (groups st)) as [hosts|] eqn:Eh; [|discriminate]. simpl.
    destruct (add_tokens_ok hostname rest (hostvars st)) as [hv Ehv]. rewrite Ehv. simpl.
    eexists. split; [reflexivity|]. intros g' Hg'. simpl in *. inversion Hg'; subst.
    unfold dict_mem. rewrite dict_get_set_same. reflexivity.
Qed.

Lemma parse_lines_ok (lines : list string) :
  forall st, parser_inv st ->
  exists st', fold_outcome parse_line lines st = Ok st' /\ parser_inv st'.
Proof.
  induction lines as [|raw lines IH]; intros st Hinv; simpl.
  - eauto.
  - destruct (parse_line_ok st raw Hinv) as (st1 & E & Hinv1). rewrite E. simpl. auto.
Qed.

(** [get_static_inventory] never raises. *)
Lemma get_static_inventory_ok (f : static_file) :
  exists sg sh, get_static_inventory f = Ok (sg, sh).
Proof.
  destruct f as [lines|]; simpl; [|eauto].
  destruct (parse_lines_ok lines
              {| groups := []; hostvars := []; current_group := None |})
    as (st & E & _); [intros g Hg; discriminate|].
  rewrite E. simpl. eauto.
Qed.

Lemma parse_line_no_group (st : parser_state) (raw : string) :
  current_group st = None -> is_header raw = false -> parse_line st raw = Ok st.
Proof.
  intros Hc Hh. unfold parse_line. unfold is_header in Hh. rewrite Hh, Hc.
  destruct (String.eqb (strip raw) "" || startswith "#" (strip raw)
            || startswith ";" (strip raw)); reflexivity.
Qed.

Lemma parse_lines_no_group (pre : list string) (st : parser_state) :
  current_group st = None -> Forall (fun raw => is_header raw = false) pre ->
  fold_outcome parse_line pre st = Ok st.
Proof.
  intros Hc Hpre. induction Hpre as [|raw pre Hraw Hpre IH]; simpl.
  - reflexivity.
  - rewrite parse_line_no_group by assumption. simpl. assumption.
Qed.

Lemma fold_outcome_app {A B} (f : A -> B -> outcome A) (l1 l2 : list B) :
  forall a, fold_outcome f (l1 ++ l2) a = (a' <- fold_outcome f l1 a ;; fold_outcome f l2 a').
Proof.
  induction l1 as [|x l1 IH]; intros a; simpl.
  - reflexivity.
  - destruct (f a x); simpl; auto.
Qed.

Lemma add_tokens_without_eq (hostname : string) (rest : list string) :
  forall hv, Forall (fun part => contains_char "="%char part = false) rest ->
  fold_outcome (add_token hostname) rest hv = Ok hv.
Proof.
  induction rest as [|part rest IH]; intros hv H; simpl.
  - reflexivity.
  - inversion H as [|? ? Hpart Hrest]; subst.
    assert (E : add_token hostname hv part = Ok hv).
    { unfold add_token. apply split_eq_none in Hpart. rewrite Hpart. reflexivity. }
    rewrite E. simpl. auto.
Qed.

(** C8. [get_static_inventory] returns two empty mappings, without raising,
    when the file does not exist.  For an existing file, a token without
    [=] adds no variable (the loop over the tokens leaves the variables as
    they were, and a host line whose tokens all lack [=] leaves the
    variable mapping of the file unchanged), and the lines before the first
    [[name]] header contribute nothing: the file parses to what it parses
    to without them. *)
Theorem get_static_inventory_tolerant :
  get_static_inventory None = Ok ([], [])
  /\ (forall hostname hv part,
        contains_char "="%char part = false ->
        add_token hostname hv part = Ok hv)
  /\ (forall st raw st' hostname rest,
        split (strip raw) = hostname :: rest ->
        Forall (fun part => contains_char "="%char part = false) rest ->
        parse_line st raw = Ok st' ->
        hostvars st' = hostvars st)
  /\ (forall pre post,
        Forall (fun raw => is_header raw = false) pre ->
        get_static_inventory (Some (pre ++ post)) = get_static_inventory (Some post)).
Proof.
  split; [reflexivity|]. split; [|split].
  - intros hostname hv part H. unfold add_token.
    apply split_eq_none in H. rewrite H. reflexivity.
  - intros st raw st' hostname rest Hs Hrest. unfold parse_line. rewrite Hs.
    destruct (String.eqb (strip raw) "" || startswith "#" (strip raw)
              || startswith ";" (strip raw)); [intros E; inversion E; reflexivity|].
    destruct (startswith "[" (strip raw) && endswith "]" (strip raw));
      [intros E; inversion E; reflexivity|].
    destruct (current_group st) as [g|]; [|intros E; inversion E; reflexivity].
    destruct (String.eqb g ""); [intros E; inversion E; reflexivity|].
    rewrite add_tokens_without_eq by assumption.
    destruct (py_lookup g (groups st)); simpl; intros E; inversion E; reflexivity.
  - intros pre post Hpre. simpl. rewrite fold_outcome_app.
    rewrite parse_lines_no_group by (auto; reflexivity). reflexivity.
Qed.

(** ** Group lists *)

Lemma hosts_of_set_same (g : string) (l : list string) (hv : dict json)
    (gs : dict (list string)) :
  hosts_of g {| inv_hostvars := hv; inv_groups := dict_set g l gs |} = l.
Proof. unfold hosts_of. simpl. rewrite dict_get_set_same. reflexivity. Qed.

Lemma hosts_of_ensure (g g' : string) (hv hv' : dict json) (gs : dict (list string)) :
  hosts_of g' {| inv_hostvars := hv; inv_groups := ensure_group g gs |}
  = hosts_of g' {| inv_hostvars := hv'; inv_groups := gs |}.
Proof.
  unfold hosts_of. simpl. destruct (string_dec g g') as [->|Hne].
  - destruct (dict_get_ensure_same g' gs) as (hosts & E & Eh). rewrite E, Eh. reflexivity.
  - rewrite dict_get_ensure_other by assumption. reflexivity.
Qed.

Lemma append_host_spec (g h : string) (i i' : inventory) :
  append_host g h i = Ok i' ->
  inv_hostvars i' = inv_hostvars i
  /\ hosts_of g i' = hosts_of g i ++ [h]
  /\ forall g', g' <> g -> hosts_of g' i' = hosts_of g' i.
Proof.
  unfold append_host. destruct (String.eqb g "_meta"); [discriminate|].
  destruct (dict_get_ensure_same g (inv_groups i)) as (hosts & E & Eh).
  unfold py_lookup. rewrite E. simpl. intros H. inversion H; subst; clear H. simpl.
  split; [reflexivity|]. split.
  - rewrite hosts_of_set_same. unfold hosts_of. reflexivity.
  - intros g' Hne. unfold hosts_of. simpl.
    rewrite dict_get_set_other by congruence.
    rewrite dict_get_ensure_other by congruence. reflexivity.
Qed.

Lemma append_host_once_spec (g h : string) (i i' : inventory) :
  append_host_once g h i = Ok i' ->
  inv_hostvars i' = inv_hostvars i
  /\ hosts_of g i' = (if mem h (hosts_of g i) then hosts_of g i else hosts_of g i ++ [h])
  /\ forall g', g' <> g -> hosts_of g' i' = hosts_of g' i.
Proof.
  unfold append_host_once. destruct (String.eqb g "_meta"); [discriminate|].
  destruct (dict_get_ensure_same g (inv_groups i)) as (hosts & E & Eh).
  unfold py_lookup. rewrite E. simpl.
  assert (Hh : hosts = hosts_of g i) by (unfold hosts_of; assumption).
  rewrite Hh. destruct (mem h (hosts_of g i)) eqn:Em;
    intros H; inversion H; subst i'; clear H; simpl.
  - split; [reflexivity|]. split.
    + unfold hosts_of at 1. simpl. rewrite E. assumption.
    + intros g' Hne. unfold hosts_of. simpl.
      rewrite dict_get_ensure_other by congruence. reflexivity.
  - split; [reflexivity|]. split.
    + rewrite hosts_of_set_same. reflexivity.
    + intros g' Hne. unfold hosts_of. simpl.
      rewrite dict_get_set_other by congruence.
      rewrite dict_get_ensure_other by congruence. reflexivity.
Qed.

Lemma append_host_ok (g h : string) (i : inventory) :
  g <> "_meta" -> exists i', append_host g h i = Ok i'.
Proof.
  intros Hg. unfold append_host. apply String.eqb_neq in Hg. rewrite Hg.
  destruct (dict_get_ensure_same g (inv_groups i)) as (hosts & E & _).
  unfold py_lookup. rewrite E. simpl. eauto.
Qed.

Lemma append_host_once_ok (g h : string) (i : inventory) :
  g <> "_meta" -> exists i', append_host_once g h i = Ok i'.
Proof.
  intros Hg. unfold append_host_once. apply String.eqb_neq in Hg. rewrite Hg.
  destruct (dict_get_ensure_same g (inv_groups i)) as (hosts & E & _).
  unfold py_lookup. rewrite E. simpl. destruct (mem h hosts); eauto.
Qed.

Lemma adds_only_refl (h : string) (i : inventory) : adds_only h i i.
Proof.
  split; [reflexivity|]. intros g. exists 0. simpl. rewrite app_nil_r. reflexivity.
Qed.

Lemma adds_only_trans (h : string) (i1 i2 i3 : inventory) :
  adds_only h i1 i2 -> adds_only h i2 i3 -> adds_only h i1 i3.
Proof.
  intros [Hv1 Hg1] [Hv2 Hg2]. split; [congruence|]. intros g.
  destruct (Hg1 g) as [n1 E1]. destruct (Hg2 g) as [n2 E2].
  exists (n1 + n2). rewrite E2, E1, <- app_assoc, repeat_app. reflexivity.
Qed.

Lemma append_host_adds (g h : string) (i i' : inventory) :
  append_host g h i = Ok i' -> adds_only h i i' /\ In h (hosts_of g i').
Proof.
  intros H. apply append_host_spec in H. destruct H as (Hv & Hg & Ho). split.
  - split; [assumption|]. intros g'. destruct (string_dec g' g) as [->|Hne].
    + exists 1. assumption.
    + exists 0. simpl. rewrite app_nil_r. auto.
  - rewrite Hg. apply in_or_app. right. left. reflexivity.
Qed.

Lemma append_host_once_adds (g h : string) (i i' : inventory) :
  append_host_once g h i = Ok i' -> adds_only h i i' /\ In h (hosts_of g i').
Proof.
  intros H. apply append_host_once_spec in H. destruct H as (Hv & Hg & Ho).
  destruct (mem h (hosts_of g i)) eqn:Em.
  - split.
    + split; [assumption|]. intros g'. exists 0. simpl. rewrite app_nil_r.
      destruct (string_dec g' g) as [->|Hne]; auto.
    + rewrite Hg. apply mem_In. assumption.
  - split.
    + split; [assumption|]. intros g'. destruct (string_dec g' g) as [->|Hne].
      * exists 1. assumption.
      * exists 0. simpl. rewrite app_nil_r. auto.
    + rewrite Hg. apply in_or_app. right. left. reflexivity.
Qed.

Lemma adds_only_In (h x g : string) (i i' : inventory) :
  adds_only h i i' -> In x (hosts_of g i) -> In x (hosts_of g i').
Proof.
  intros [_ Hg] Hin. destruct (Hg g) as [n E]. rewrite E. apply in_or_app. auto.
Qed.

Lemma adds_only_In_inv (h x g : string) (i i' : inventory) :
  adds_only h i i' -> In x (hosts_of g i') -> In x (hosts_of g i) \/ x = h.
Proof.
  intros [_ Hg] Hin. destruct (Hg g) as [n E]. rewrite E in Hin.
  apply in_app_or in Hin. destruct Hin as [Hin|Hin]; [auto|].
  apply repeat_spec in Hin. auto.
Qed.

Lemma add_roles_spec (h : string) (roles : list json) :
  forall i i', fold_outcome (add_role h) roles i = Ok i' ->
  adds_only h i i'
  /\ forall r, In (JStr r) roles -> In h (hosts_of (role_group r) i').
Proof.
  induction roles as [|role roles IH]; intros i i' H; simpl in H.
  - inversion H; subst. split; [apply adds_only_refl|]. intros r [].
  - destruct (add_role h i role) as [i1| | |] eqn:E1; simpl in H; try discriminate.
    destruct (IH _ _ H) as [Hadd Hroles].
    destruct role as [| | |r0| |]; simpl in E1; try discriminate.
    apply append_host_once_adds in E1. destruct E1 as [Hadd1 Hin1]. split.
    + eapply adds_only_trans; eassumption.
    + intros r [Hr|Hr].
      * inversion Hr; subst. eapply adds_only_In; eassumption.
      * auto.
Qed.

Lemma add_roles_ok (h : string) (roles : list json) :
  forallb role_ok roles = true ->
  forall i, exists i', fold_outcome (add_role h) roles i = Ok i'.
Proof.
  induction roles as [|role roles IH]; intros Hok i; simpl in *.
  - eauto.
  - apply andb_prop in Hok. destruct Hok as [Hr Hrs].
    destruct role as [| | |r| |]; simpl in Hr; try discriminate.
    apply negb_true_iff, String.eqb_neq in Hr.
    destruct (append_host_once_ok (role_group r) h i Hr) as [i1 E1].
    simpl. rewrite E1. simpl. auto.
Qed.

(** ** One node *)

Lemma set_add_In (x h : string) (l : list string) :
  In x (set_add h l) <-> x = h \/ In x l.
Proof.
  unfold set_add. destruct (mem h l) eqn:E; simpl.
  - apply mem_In in E. split; [auto|]. intros [->|H]; assumption.
  - split; intros [H|H]; auto.
Qed.

Lemma carries_unique (h h' : string) (v : visit) :
  carries h v = true -> carries h' v = true -> h = h'.
Proof.
  unfold carries. destruct (v_node v) as [| | | | |d]; try discriminate.
  destruct (py_get "hostname" (JStr "") d) as [| | |s| |]; try discriminate.
  intros H H'.
  apply andb_prop in H. destruct H as [H _]. apply andb_prop in H. destruct H as [H _].
  apply andb_prop in H'. destruct H' as [H' _]. apply andb_prop in H'. destruct H' as [H' _].
  apply String.eqb_eq in H, H'. congruence.
Qed.

Lemma carries_not_lacking (h : string) (v : visit) :
  carries h v = true -> lacks_hostname_or_ip v = false.
Proof.
  unfold carries, lacks_hostname_or_ip. destruct (v_node v) as [| | | | |d]; try discriminate.
  destruct (py_get "hostname" (JStr "") d) as [| | |s| |]; try discriminate.
  intros H. apply andb_prop in H. destruct H as [H Hip].
  apply andb_prop in H. destruct H as [_ Hh]. rewrite Hh, Hip. reflexivity.
Qed.

(** Line 135: a node without hostname or ip leaves the inventory and the
    set of API hostnames as they are. *)
Lemma process_node_skip (v : visit) (st : build_state) :
  lacks_hostname_or_ip v = true -> process_node v st = Ok st.
Proof.
  unfold lacks_hostname_or_ip, process_node.
  destruct (v_node v) as [| | | | |d]; try discriminate.
  intros H. rewrite H. reflexivity.
Qed.

(** Lines 138-174: what a valid node does. *)
Lemma process_node_valid (v : visit) (st st' : build_state) :
  process_node v st = Ok st' -> lacks_hostname_or_ip v = false ->
  exists h vars,
    carries h v = true
    /\ api_variables v = Some vars
    /\ api_hostnames st' = set_add h (api_hostnames st)
    /\ inv_hostvars (inv st') = dict_set h vars (inv_hostvars (inv st))
    /\ (forall g, exists n, hosts_of g (inv st') = hosts_of g (inv st) ++ repeat h n)
    /\ In h (hosts_of (v_region_group v) (inv st'))
    /\ In h (hosts_of (v_cluster_group v) (inv st'))
    /\ (forall r, In (JStr r) (roles_of v) -> In h (hosts_of (role_group r) (inv st'))).
Proof.
  unfold process_node, lacks_hostname_or_ip, carries, api_variables, roles_of.
  destruct (v_node v) as [| | | | |d]; try discriminate.
  intros H Hl. rewrite Hl in H. apply orb_false_elim in Hl. destruct Hl as [Hh Hip].
  apply negb_false_iff in Hh, Hip.
  destruct (py_get "hostname" (JStr "") d) as [| | |h| |] eqn:Eh; try discriminate.
  destruct (host_variables v d) as [vars| | |] eqn:Ev; simpl in H; try discriminate.
  destruct (append_host (v_region_group v) h _) as [i1| | |] eqn:E1; simpl in H; try discriminate.
  destruct (append_host (v_cluster_group v) h i1) as [i2| | |] eqn:E2; simpl in H; try discriminate.
  destruct (py_iter (py_get "roles" (JArr []) d)) as [roles| | |] eqn:Er; simpl in H; try discriminate.
  destruct (fold_outcome (add_role h) roles i2) as [i3| | |] eqn:E3; simpl in H; try discriminate.
  inversion H; subst st'; clear H. simpl.
  apply append_host_adds in E1. destruct E1 as [A1 In1].
  apply append_host_adds in E2. destruct E2 as [A2 In2].
  apply add_roles_spec in E3. destruct E3 as [A3 In3].
  pose proof (adds_only_trans _ _ _ _ A1 (adds_only_trans _ _ _ _ A2 A3)) as [Hv Hg].
  exists h, vars. rewrite String.eqb_refl. simpl in Hh. rewrite Hh, Hip.
  repeat split; try reflexivity.
  - simpl in Hv. assumption.
  - intros g. destruct (Hg g) as [n E]. exists n. rewrite E. reflexivity.
  - eapply adds_only_In; [eassumption|]. eapply adds_only_In; eassumption.
  - eapply adds_only_In; eassumption.
  - intros r Hr. apply In3. destruct (py_get "roles" (JArr []) d); simpl in *;
      try contradiction. inversion Er; subst. assumption.
Qed.

Lemma shard_entries_ok (l : list json) :
  forallb is_obj l = true -> exists sa, map_outcome shard_entry l = Ok sa.
Proof.
  induction l as [|s l IH]; simpl; intros H.
  - eauto.
  - apply andb_prop in H. destruct H as [Hs Hl].
    destruct s; simpl in Hs; try discriminate.
    destruct (IH Hl) as [sa E]. simpl. rewrite E. simpl. eauto.
Qed.

Lemma process_node_ok (v : visit) (st : build_state) :
  wf_node (v_node v) = true ->
  v_region_group v <> "_meta" -> v_cluster_group v <> "_meta" ->
  exists st', process_node v st = Ok st'.
Proof.
  unfold wf_node, process_node. intros Hwf Hr Hc.
  destruct (v_node v) as [| | | | |d]; try discriminate.
  destruct (negb (truthy (py_get "hostname" (JStr "") d))
            || negb (truthy (py_get "ip_address" (JStr "") d))); [eauto|].
  apply andb_prop in Hwf. destruct Hwf as [Hwf Hroles].
  apply andb_prop in Hwf. destruct Hwf as [Hh Hshards].
  destruct (py_get "hostname" (JStr "") d) as [| | |h| |]; try discriminate.
  unfold host_variables.
  destruct (py_get "shards" (JArr []) d) as [| | | |shards|]; try discriminate.
  destruct (shard_entries_ok shards Hshards) as [sa Esa]. simpl. rewrite Esa. simpl.
  destruct (append_host_ok (v_region_group v) h
              {| inv_hostvars :=
                   dict_set h
                     (node_hostvars (v_region_id v) (v_cluster_id v) d
                        (py_get "ip_address" (JStr "") d) sa)
                     (inv_hostvars (inv st));
                 inv_groups := inv_groups (inv st) |} Hr) as [i1 E1].
  rewrite E1. simpl.
  destruct (append_host_ok (v_cluster_group v) h i1 Hc) as [i2 E2]. rewrite E2. simpl.
  destruct (py_get "roles" (JArr []) d) as [| | | |roles|]; try discriminate. simpl.
  destruct (add_roles_ok h roles Hroles i2) as [i3 E3]. rewrite E3. simpl. eauto.
Qed.

(** ** The nodes in traversal order *)

Lemma fold_outcome_rel {A B} (R : A -> A -> Prop) (f : A -> B -> outcome A)
    (l : list B) :
  (forall a, R a a) ->
  (forall a b c, R a b -> R b c -> R a c) ->
  (forall a x a', In x l -> f a x = Ok a' -> R a a') ->
  forall a a', fold_outcome f l a = Ok a' -> R a a'.
Proof.
  intros Hrefl Htrans. induction l as [|x l IH]; intros Hstep a a' H; simpl in H.
  - inversion H; subst. apply Hrefl.
  - destruct (f a x) as [a1| | |] eqn:E; simpl in H; try discriminate.
    apply Htrans with a1.
    + apply Hstep with x; [left; reflexivity|assumption].
    + apply IH; [|assumption]. intros b y b' Hy. apply Hstep. right. assumption.
Qed.

Lemma carried_cons (v : visit) (vs : list visit) (x : string) :
  carried (v :: vs) x <-> carries x v = true \/ carried vs x.
Proof.
  unfold carried. split.
  - intros (v' & [->|Hin] & Hc); eauto.
  - intros [Hc|(v' & Hin & Hc)]; [exists v|exists v']; simpl; auto.
Qed.

Lemma carried_app (vs1 vs2 : list visit) (x : string) :
  carried (vs1 ++ vs2) x <-> carried vs1 x \/ carried vs2 x.
Proof.
  unfold carried. split.
  - intros (v & Hin & Hc). apply in_app_or in Hin. destruct Hin; eauto.
  - intros [(v & Hin & Hc)|(v & Hin & Hc)]; exists v; split; auto using in_or_app.
Qed.

Lemma process_node_from_carriers (vs : list visit) (v : visit) (st st' : build_state) :
  In v vs -> process_node v st = Ok st' -> from_carriers vs st st'.
Proof.
  intros Hin H. destruct (lacks_hostname_or_ip v) eqn:El.
  - rewrite process_node_skip in H by assumption. inversion H; subst.
    repeat split; auto.
  - destruct (process_node_valid v st st' H El)
      as (h & vars & Hc & _ & Hapi & Hvars & Hg & _).
    assert (Hcar : carried vs h) by (exists v; auto).
    repeat split.
    + intros g x Hx. destruct (Hg g) as [n E]. rewrite E in Hx.
      apply in_app_or in Hx. destruct Hx as [Hx|Hx]; [auto|].
      apply repeat_spec in Hx. subst. auto.
    + intros x Hx. destruct (string_dec h x) as [<-|Hne]; [auto|].
      left. unfold vars_of in *. rewrite Hvars in Hx.
      rewrite dict_get_set_other in Hx by assumption. assumption.
    + intros x Hx. rewrite Hapi in Hx. apply set_add_In in Hx.
      destruct Hx as [->|Hx]; auto.
Qed.

Lemma from_carriers_trans (vs : list visit) (a b c : build_state) :
  from_carriers vs a b -> from_carriers vs b c -> from_carriers vs a c.
Proof.
  intros (G1 & V1 & A1) (G2 & V2 & A2). repeat split.
  - intros g x Hx. destruct (G2 g x Hx); auto.
  - intros x Hx. destruct (V2 x Hx); auto.
  - intros x Hx. destruct (A2 x Hx); auto.
Qed.

(** After the walk, every hostname in a group list, in the host variables
    or in the set of API hostnames was there before or is carried by a
    valid node. *)
Lemma process_visits_from_carriers (vs : list visit) (st st' : build_state) :
  process_visits vs st = Ok st' -> from_carriers vs st st'.
Proof.
  unfold process_visits.
  apply fold_outcome_rel with (R := from_carriers vs).
  - intros a. repeat split; auto.
  - apply from_carriers_trans.
  - intros a v a' Hin H. eapply process_node_from_carriers; eassumption.
Qed.

Lemma process_node_keeps (v : visit) (st st' : build_state) :
  process_node v st = Ok st' -> keeps st st'.
Proof.
  intros H. destruct (lacks_hostname_or_ip v) eqn:El.
  - rewrite process_node_skip in H by assumption. inversion H; subst. split; auto.
  - destruct (process_node_valid v st st' H El)
      as (h & vars & _ & _ & Hapi & _ & Hg & _).
    split.
    + intros g x Hx. destruct (Hg g) as [n E]. rewrite E. apply in_or_app. auto.
    + intros x Hx. rewrite Hapi. apply set_add_In. auto.
Qed.

Lemma process_visits_keeps (vs : list visit) (st st' : build_state) :
  process_visits vs st = Ok st' -> keeps st st'.
Proof.
  unfold process_visits. apply fold_outcome_rel with (R := keeps).
  - intros a. split; auto.
  - intros a b c [G1 A1] [G2 A2]. split; auto.
  - intros a v a' _ H. eapply process_node_keeps; eassumption.
Qed.

Lemma process_node_vars_other (h : string) (v : visit) (st st' : build_state) :
  process_node v st = Ok st' -> carries h v = false ->
  vars_of h (inv st') = vars_of h (inv st).
Proof.
  intros H Hc. destruct (lacks_hostname_or_ip v) eqn:El.
  - rewrite process_node_skip in H by assumption. inversion H; subst. reflexivity.
  - destruct (process_node_valid v st st' H El) as (h' & vars & Hc' & _ & _ & Hvars & _).
    unfold vars_of. rewrite Hvars. apply dict_get_set_other. congruence.
Qed.

Lemma process_visits_vars_other (h : string) (vs : list visit) (st st' : build_state) :
  (forall v, In v vs -> carries h v = false) ->
  process_visits vs st = Ok st' ->
  vars_of h (inv st') = vars_of h (inv st).
Proof.
  intros Hno. unfold process_visits.
  apply fold_outcome_rel
    with (R := fun a b => vars_of h (inv b) = vars_of h (inv a)).
  - reflexivity.
  - intros a b c E1 E2. congruence.
  - intros a v a' Hin H. eapply process_node_vars_other; eauto.
Qed.

(** Splitting the walk at one node. *)
Lemma process_visits_split (pre post : list visit) (v : visit) (st st' : build_state) :
  process_visits (pre ++ v :: post) st = Ok st' ->
  exists st1 st2,
    process_visits pre st = Ok st1
    /\ process_node v st1 = Ok st2
    /\ process_visits post st2 = Ok st'.
Proof.
  unfold process_visits. rewrite fold_outcome_app.
  destruct (fold_outcome _ pre st) as [st1| | |]; simpl; try discriminate.
  destruct (process_node v st1) as [st2| | |] eqn:E; simpl; try discriminate.
  intros H. eauto.
Qed.

(** The host variables of [h] are those of the last valid node carrying
    [h]. *)
Lemma process_visits_last_wins (h : string) (pre post : list visit) (v : visit)
    (st st' : build_state) :
  carries h v = true ->
  (forall v', In v' post -> carries h v' = false) ->
  process_visits (pre ++ v :: post) st = Ok st' ->
  vars_of h (inv st') = api_variables v /\ api_variables v <> None
  /\ In h (api_hostnames st').
Proof.
  intros Hc Hpost H.
  destruct (process_visits_split _ _ _ _ _ H) as (st1 & st2 & _ & Hv & Hrest).
  destruct (process_node_valid v st1 st2 Hv (carries_not_lacking h v Hc))
    as (h' & vars & Hc' & Hvars & Hapi & Hhv & _).
  assert (h' = h) by (eapply carries_unique; eassumption). subst h'.
  rewrite (process_visits_vars_other h post st2 st' Hpost Hrest).
  unfold vars_of. rewrite Hhv, dict_get_set_same, Hvars.
  split; [reflexivity|]. split; [discriminate|].
  apply (process_visits_keeps post st2 st' Hrest). rewrite Hapi.
  apply set_add_In. auto.
Qed.

(** A valid node is listed in its region group, its cluster group and the
    group of each of its role tags. *)
Lemma process_visits_places (h : string) (vs : list visit) (v : visit)
    (st st' : build_state) :
  In v vs -> carries h v = true ->
  process_visits vs st = Ok st' ->
  In h (api_hostnames st')
  /\ In h (hosts_of (v_region_group v) (inv st'))
  /\ In h (hosts_of (v_cluster_group v) (inv st'))
  /\ forall r, In (JStr r) (roles_of v) -> In h (hosts_of (role_group r) (inv st')).
Proof.
  intros Hin Hc H. apply in_split in Hin. destruct Hin as (pre & post & ->).
  destruct (process_visits_split _ _ _ _ _ H) as (st1 & st2 & _ & Hv & Hrest).
  destruct (process_node_valid v st1 st2 Hv (carries_not_lacking h v Hc))
    as (h' & vars & Hc' & _ & Hapi & _ & _ & Hr & Hcl & Hroles).
  assert (h' = h) by (eapply carries_unique; eassumption). subst h'.
  destruct (process_visits_keeps post st2 st' Hrest) as [Kg Ka].
  repeat split; auto.
  apply Ka. rewrite Hapi. apply set_add_In. auto.
Qed.

Lemma process_visits_api_hostnames (vs : list visit) (st' : build_state) (h : string) :
  process_visits vs empty_state = Ok st' ->
  (In h (api_hostnames st') <-> carried vs h).
Proof.
  intros H. split.
  - intros Hin. destruct (process_visits_from_carriers vs _ _ H) as (_ & _ & A).
    destruct (A h Hin) as [[]|]; assumption.
  - intros (v & Hin & Hc).
    apply (process_visits_places h vs v empty_state st' Hin Hc H).
Qed.

Lemma process_visits_ok (vs : list visit) :
  Forall (fun v => wf_node (v_node v) = true
                   /\ v_region_group v <> "_meta" /\ v_cluster_group v <> "_meta") vs ->
  forall st, exists st', process_visits vs st = Ok st'.
Proof.
  unfold process_visits. induction 1 as [|v vs (Hwf & Hr & Hc) _ IH]; intros st; simpl.
  - eauto.
  - destruct (process_node_ok v st Hwf Hr Hc) as [st1 E]. rewrite E. simpl. apply IH.
Qed.

(** ** The static merge *)

Lemma merge_hosts_pairs (api : list string) (sh : dict (dict string)) (g : string)
    (hosts : list string) :
  forall i, fold_outcome (merge_host api sh g) hosts i
            = fold_outcome (merge_pair api sh) (map (pair g) hosts) i.
Proof.
  induction hosts as [|h hosts IH]; intros i; simpl.
  - reflexivity.
  - change (merge_pair api sh i (g, h)) with (merge_host api sh g i h).
    destruct (merge_host api sh g i h); simpl; auto.
Qed.

Lemma merge_static_pairs (api : list string) (sg : dict (list string))
    (sh : dict (dict string)) :
  forall i, merge_static api sg sh i
            = fold_outcome (merge_pair api sh) (static_pairs sg) i.
Proof.
  unfold merge_static. induction sg as [|[g hosts] sg IH]; intros i; simpl.
  - reflexivity.
  - rewrite fold_outcome_app, merge_hosts_pairs.
    destruct (fold_outcome (merge_pair api sh) (map (pair g) hosts) i); simpl; auto.
Qed.

Lemma static_pairs_In (sg : dict (list string)) (g h : string) :
  In (g, h) (static_pairs sg) <-> static_lists sg g h.
Proof.
  unfold static_pairs, static_lists. rewrite in_flat_map. split.
  - intros ([g' hosts] & Hin & Hp). apply in_map_iff in Hp.
    destruct Hp as (h' & E & Hh). simpl in *. inversion E; subst. eauto.
  - intros (hosts & Hin & Hh). exists (g, hosts). split; [assumption|].
    apply in_map_iff. simpl. eauto.
Qed.

Lemma merge_host_api (api : list string) (sh : dict (dict string)) (g h : string)
    (i : inventory) :
  In h api -> merge_host api sh g i h = Ok i.
Proof.
  intros Hin. unfold merge_host. apply mem_In in Hin. rewrite Hin. reflexivity.
Qed.

Lemma merge_host_spec (api : list string) (sh : dict (dict string)) (g h : string)
    (i i' : inventory) :
  ~ In h api -> merge_host api sh g i h = Ok i' ->
  In h (hosts_of g i')
  /\ (forall g0, exists n, hosts_of g0 i' = hosts_of g0 i ++ repeat h n)
  /\ (forall g0, g0 <> g -> hosts_of g0 i' = hosts_of g0 i)
  /\ inv_hostvars i'
     = match dict_get h sh with
       | Some vars => dict_set h (static_vars_json vars) (inv_hostvars i)
       | None => inv_hostvars i
       end.
Proof.
  intros Hnot. unfold merge_host. apply mem_not_In in Hnot. rewrite Hnot.
  destruct (append_host_once g h i) as [i1| | |] eqn:E1; simpl; try discriminate.
  pose proof (append_host_once_spec g h i i1 E1) as (Hv & _ & Ho).
  apply append_host_once_adds in E1. destruct E1 as [[_ Hg] Hin].
  assert (Hh : forall i2, inv_groups i2 = inv_groups i1 ->
                          forall g0, hosts_of g0 i2 = hosts_of g0 i1).
  { intros i2 E g0. unfold hosts_of. rewrite E. reflexivity. }
  destruct (dict_get h sh) as [vars|]; intros H; inversion H; subst i'; clear H.
  - repeat split.
    + rewrite Hh by reflexivity. assumption.
    + intros g0. rewrite Hh by reflexivity. apply Hg.
    + intros g0 Hne. rewrite Hh by reflexivity. auto.
    + simpl. rewrite Hv. reflexivity.
  - repeat split; auto.
Qed.

Lemma merge_host_other (api : list string) (sh : dict (dict string)) (g h x : string)
    (i i' : inventory) :
  merge_host api sh g i h = Ok i' -> x <> h ->
  vars_of x i' = vars_of x i
  /\ forall g0, count_occ string_dec (hosts_of g0 i') x
                = count_occ string_dec (hosts_of g0 i) x.
Proof.
  intros H Hne. destruct (in_dec string_dec h api) as [Hin|Hnot].
  - rewrite merge_host_api in H by assumption. inversion H; subst. auto.
  - destruct (merge_host_spec api sh g h i i' Hnot H) as (_ & Hg & _ & Hv). split.
    + unfold vars_of. rewrite Hv. destruct (dict_get h sh); [|reflexivity].
      apply dict_get_set_other. congruence.
    + intros g0. destruct (Hg g0) as [n E]. rewrite E, count_occ_app.
      assert (Hz : count_occ string_dec (repeat h n) x = 0).
      { apply count_occ_not_In. intros Hin. apply repeat_spec in Hin. congruence. }
      rewrite Hz. apply Nat.add_0_r.
Qed.

(** A hostname the API supplied is left alone by the merge: no group list
    gains or loses an occurrence of it and its variables stay. *)
Lemma merge_static_api_host (api : list string) (sg : dict (list string))
    (sh : dict (dict string)) (x : string) (i i' : inventory) :
  In x api -> merge_static api sg sh i = Ok i' ->
  vars_of x i' = vars_of x i
  /\ forall g, count_occ string_dec (hosts_of g i') x
               = count_occ string_dec (hosts_of g i) x.
Proof.
  intros Hx. rewrite merge_static_pairs.
  apply fold_outcome_rel
    with (R := fun a b => vars_of x b = vars_of x a
                          /\ forall g, count_occ string_dec (hosts_of g b) x
                                       = count_occ string_dec (hosts_of g a) x).
  - auto.
  - intros a b c [V1 C1] [V2 C2]. split; [congruence|]. intros g. rewrite C2. apply C1.
  - intros a [g h] a' _ H. unfold merge_pair in H. simpl in H.
    destruct (string_dec x h) as [->|Hne].
    + rewrite merge_host_api in H by assumption. inversion H; subst. auto.
    + eapply merge_host_other; eassumption.
Qed.

(** What the merge adds comes from the static file, for hostnames the API
    did not supply. *)
Lemma merge_static_provenance (api : list string) (sg : dict (list string))
    (sh : dict (dict string)) (i i' : inventory) :
  merge_static api sg sh i = Ok i' ->
  (forall g y, In y (hosts_of g i') ->
               In y (hosts_of g i) \/ (static_lists sg g y /\ ~ In y api))
  /\ (forall y, vars_of y i' <> None ->
                vars_of y i <> None \/ ((exists g, static_lists sg g y) /\ ~ In y api)).
Proof.
  rewrite merge_static_pairs.
  apply fold_outcome_rel
    with (R := fun a b =>
                 (forall g y, In y (hosts_of g b) ->
                              In y (hosts_of g a) \/ (static_lists sg g y /\ ~ In y api))
                 /\ (forall y, vars_of y b <> None ->
                               vars_of y a <> None
                               \/ ((exists g, static_lists sg g y) /\ ~ In y api))).
  - auto.
  - intros a b c [G1 V1] [G2 V2]. split.
    + intros g y Hy. destruct (G2 g y Hy); auto.
    + intros y Hy. destruct (V2 y Hy); auto.
  - intros a [g h] a' Hin H. unfold merge_pair in H. simpl in H.
    destruct (in_dec string_dec h api) as [Hapi|Hnot].
    + rewrite merge_host_api in H by assumption. inversion H; subst. auto.
    + apply static_pairs_In in Hin.
      destruct (merge_host_spec api sh g h a a' Hnot H) as (_ & Hg & Ho & Hv). split.
      * intros g0 y Hy. destruct (string_dec g0 g) as [->|Hne].
        -- destruct (Hg g) as [n E]. rewrite E in Hy. apply in_app_or in Hy.
           destruct Hy as [Hy|Hy]; [auto|]. apply repeat_spec in Hy. subst. auto.
        -- rewrite Ho in Hy by assumption. auto.
      * intros y Hy. destruct (string_dec h y) as [<-|Hne]; [right; eauto|].
        left. unfold vars_of in *. rewrite Hv in Hy.
        destruct (dict_get h sh); [|assumption].
        rewrite dict_get_set_other in Hy by assumption. assumption.
Qed.

Lemma merge_pair_keeps (api : list string) (sh : dict (dict string))
    (i i' : inventory) (p : string * string) :
  merge_pair api sh i p = Ok i' ->
  forall g y, In y (hosts_of g i) -> In y (hosts_of g i').
Proof.
  destruct p as [g h]. unfold merge_pair. simpl. intros H g0 y Hy.
  destruct (in_dec string_dec h api) as [Hapi|Hnot].
  - rewrite merge_host_api in H by assumption. inversion H; subst. assumption.
  - destruct (merge_host_spec api sh g h i i' Hnot H) as (_ & Hg & _).
    destruct (Hg g0) as [n E]. rewrite E. apply in_or_app. auto.
Qed.

Lemma merge_pairs_keeps (api : list string) (sh : dict (dict string))
    (ps : list (string * string)) (i i' : inventory) :
  fold_outcome (merge_pair api sh) ps i = Ok i' ->
  forall g y, In y (hosts_of g i) -> In y (hosts_of g i').
Proof.
  intros H.
  refine (fold_outcome_rel
            (fun a b => forall g y, In y (hosts_of g a) -> In y (hosts_of g b))
            _ ps _ _ _ i i' H).
  - auto.
  - auto.
  - intros a p a' _ Hp. eapply merge_pair_keeps; eassumption.
Qed.

(** The variables of [x] after some merge steps: untouched, or the static
    entry of [x]. *)
Lemma merge_pairs_vars (api : list string) (sh : dict (dict string))
    (ps : list (string * string)) (x : string) (i i' : inventory) :
  fold_outcome (merge_pair api sh) ps i = Ok i' ->
  vars_of x i' = vars_of x i
  \/ (static_entry sh x <> None /\ vars_of x i' = static_entry sh x).
Proof.
  apply fold_outcome_rel
    with (R := fun a b => vars_of x b = vars_of x a
                          \/ (static_entry sh x <> None /\ vars_of x b = static_entry sh x)).
  - auto.
  - intros a b c [E1|[N1 E1]] [E2|[N2 E2]];
      [left; congruence | right; split; assumption
      | right; split; [assumption|congruence] | right; split; assumption].
  - intros a [g h] a' _ H. unfold merge_pair in H. simpl in H.
    destruct (string_dec x h) as [->|Hne].
    + destruct (in_dec string_dec h api) as [Hapi|Hnot].
      * rewrite merge_host_api in H by assumption. inversion H; subst. auto.
      * destruct (merge_host_spec api sh g h a a' Hnot H) as (_ & _ & _ & Hv).
        unfold vars_of, static_entry. rewrite Hv.
        destruct (dict_get h sh); [|auto].
        right. rewrite dict_get_set_same. split; [discriminate|reflexivity].
    + left. eapply merge_host_other; eassumption.
Qed.

(** A hostname the API did not supply is placed in every static group that
    lists it and gets its static entry. *)
Lemma merge_static_static_host (api : list string) (sg : dict (list string))
    (sh : dict (dict string)) (g x : string) (i i' : inventory) :
  ~ In x api -> static_lists sg g x ->
  merge_static api sg sh i = Ok i' ->
  In x (hosts_of g i')
  /\ vars_of x i' = match static_entry sh x with
                    | Some e => Some e
                    | None => vars_of x i
                    end.
Proof.
  intros Hnot Hl. rewrite merge_static_pairs.
  apply static_pairs_In, in_split in Hl. destruct Hl as (pre & post & ->).
  rewrite fold_outcome_app.
  destruct (fold_outcome (merge_pair api sh) pre i) as [i1| | |] eqn:E1;
    simpl; try discriminate.
  destruct (merge_pair api sh i1 (g, x)) as [i2| | |] eqn:E2; simpl; try discriminate.
  intros E3. unfold merge_pair in E2. simpl in E2.
  destruct (merge_host_spec api sh g x i1 i2 Hnot E2) as (Hin & _ & _ & Hv).
  split; [eapply merge_pairs_keeps; eassumption|].
  pose proof (merge_pairs_vars api sh pre x i i1 E1) as V1.
  pose proof (merge_pairs_vars api sh post x i2 i' E3) as V3.
  assert (V2 : vars_of x i2 = match static_entry sh x with
                              | Some e => Some e
                              | None => vars_of x i1
                              end).
  { unfold vars_of, static_entry. rewrite Hv.
    destruct (dict_get x sh); [apply dict_get_set_same|reflexivity]. }
  destruct (static_entry sh x) as [e|] eqn:Ee.
  - destruct V3 as [V3|[_ V3]]; congruence.
  - destruct V1 as [V1|[N1 _]]; [|congruence].
    destruct V3 as [V3|[N3 _]]; congruence.
Qed.

Lemma merge_static_ok (api : list string) (sg : dict (list string))
    (sh : dict (dict string)) :
  forallb (fun e => negb (String.eqb (fst e) "_meta")) sg = true ->
  forall i, exists i', merge_static api sg sh i = Ok i'.
Proof.
  intros Hwf i. rewrite merge_static_pairs.
  assert (Hps : Forall (fun p => fst p <> "_meta") (static_pairs sg)).
  { apply Forall_forall. intros [g h] Hin. apply static_pairs_In in Hin.
    destruct Hin as (hosts & Hin & _). rewrite forallb_forall in Hwf.
    specialize (Hwf _ Hin). simpl in *.
    apply negb_true_iff, String.eqb_neq in Hwf. assumption. }
  clear Hwf. revert i. induction Hps as [|[g h] ps Hg _ IH]; intros i; simpl.
  - eauto.
  - unfold merge_pair at 1. simpl in *. unfold merge_host.
    destruct (mem h api); [simpl; apply IH|].
    destruct (append_host_once_ok g h i Hg) as [i1 E1]. rewrite E1. simpl.
    destruct (dict_get h sh); simpl; apply IH.
Qed.

(** ** The walk and the builder issue the same requests *)

Lemma for_nodes_visits (rid : json) (rgroup : string) (cid : json) (cgroup : string)
    (nodes : list json) :
  forall st, for_nodes rid rgroup cid cgroup nodes st
             = process_visits (map (visit_of rid rgroup cid cgroup) nodes) st.
Proof.
  unfold for_nodes, process_visits.
  induction nodes as [|n nodes IH]; intros st; simpl.
  - reflexivity.
  - unfold visit_of at 1. destruct (process_node _ st); simpl; auto.
Qed.

Lemma process_visits_app (vs1 vs2 : list visit) (st : build_state) :
  process_visits (vs1 ++ vs2) st
  = (st1 <- process_visits vs1 st ;; process_visits vs2 st1).
Proof. unfold process_visits. apply fold_outcome_app. Qed.

Lemma for_clusters_walk (rid : json) (rgroup : string) (clusters : list json) :
  forall st w vs w',
  walk_clusters rid rgroup clusters w = (Ok vs, w') ->
  fst (for_clusters rid rgroup clusters st w) = process_visits vs st
  /\ (forall st', process_visits vs st = Ok st' ->
                  snd (for_clusters rid rgroup clusters st w) = w').
Proof.
  induction clusters as [|c clusters IH]; intros st w vs w' H;
    cbn [walk_clusters for_clusters walk_regions for_regions] in *.
  - unfold retM in *. inversion H; subst. split; [reflexivity|auto].
  - unfold bindM, liftM in *.
    destruct (py_subscript c "id") as [cid| | |]; try discriminate.
    destruct (py_str cid) as [cid_s| | |]; try discriminate.
    destruct (api_get _ w)
      as [[nodes| | |] w1]; try discriminate.
    destruct (walk_clusters rid rgroup clusters w1) as [[vs2| | |] w2] eqn:Ew;
      try discriminate.
    unfold retM in H. inversion H; subst; clear H.
    fold (visit_of rid rgroup cid ("cluster_" ++ cid_s)).
    rewrite process_visits_app, <- for_nodes_visits.
    destruct (for_nodes rid rgroup cid _ nodes st) as [st1| | |];
      cbn [bind fst snd]; try (split; [reflexivity|discriminate]).
    apply IH. assumption.
Qed.

Lemma for_regions_walk (regions : list json) :
  forall st w vs w',
  walk_regions regions w = (Ok vs, w') ->
  fst (for_regions regions st w) = process_visits vs st
  /\ (forall st', process_visits vs st = Ok st' ->
                  snd (for_regions regions st w) = w').
Proof.
  induction regions as [|r regions IH]; intros st w vs w' H;
    cbn [walk_clusters for_clusters walk_regions for_regions] in *.
  - unfold retM in *. inversion H; subst. split; [reflexivity|auto].
  - unfold bindM, liftM in *.
    destruct (py_subscript r "id") as [rid| | |]; try discriminate.
    destruct (py_str rid) as [rid_s| | |]; try discriminate.
    destruct (api_get _ w)
      as [[clusters| | |] w1]; try discriminate.
    destruct (walk_clusters rid ("region_" ++ rid_s) clusters w1)
      as [[vs1| | |] w2] eqn:Ec; try discriminate.
    destruct (walk_regions regions w2) as [[vs2| | |] w3] eqn:Er; try discriminate.
    unfold retM in H. inversion H; subst; clear H.
    destruct (for_clusters_walk rid ("region_" ++ rid_s) clusters st w1 vs1 w2 Ec)
      as (Ef & Hw).
    rewrite process_visits_app.
    destruct (for_clusters rid ("region_" ++ rid_s) clusters st w1) as [r1 wc].
    simpl in Ef, Hw. subst r1.
    destruct (process_visits vs1 st) as [st1| | |]; simpl;
      try (split; [reflexivity|discriminate]).
    rewrite (Hw st1 eq_refl). apply IH. assumption.
Qed.

(** [build_inventory] is the walk followed by the assembly of the
    document. *)
Lemma build_inventory_walk (f : static_file) (w : World) (vs : list visit) (w' : World) :
  api_walk w = (Ok vs, w') ->
  fst (build_inventory f w) = assemble vs f
  /\ (forall doc, assemble vs f = Ok doc -> snd (build_inventory f w) = w').
Proof.
  unfold api_walk, build_inventory, assemble, bindM, liftM. intros H.
  destruct (api_get "/regions" w) as [[regions| | |] w1]; try discriminate.
  destruct (for_regions_walk regions empty_state w1 vs w' H) as (Ef & Hw).
  destruct (for_regions regions empty_state w1) as [r1 w2].
  simpl in Ef, Hw. subst r1.
  destruct (process_visits vs empty_state) as [st| | |]; simpl;
    try (split; [reflexivity|discriminate]).
  rewrite (Hw st eq_refl).
  destruct (get_static_inventory f) as [static| | |]; simpl;
    try (split; [reflexivity|discriminate]).
  destruct (merge_static (api_hostnames st) (fst static) (snd static) (inv st));
    simpl; split; try reflexivity; discriminate.
Qed.

Lemma walk_clusters_groups (rid : json) (rgroup : string) (clusters : list json) :
  (exists s, rgroup = ("region_" ++ s)%string) ->
  forall w vs w',
  walk_clusters rid rgroup clusters w = (Ok vs, w') ->
  Forall visit_groups_ok vs.
Proof.
  intros [s ->]. induction clusters as [|c clusters IH]; intros w vs w' H;
    cbn [walk_clusters walk_regions] in *.
  - unfold retM in *. inversion H; subst. constructor.
  - unfold bindM, liftM in *.
    destruct (py_subscript c "id") as [cid| | |]; try discriminate.
    destruct (py_str cid) as [cid_s| | |]; try discriminate.
    destruct (api_get _ w)
      as [[nodes| | |] w1]; try discriminate.
    destruct (walk_clusters rid _ clusters w1) as [[vs2| | |] w2] eqn:Ew;
      try discriminate.
    unfold retM in H. inversion H; subst; clear H.
    apply Forall_app. split; [|eapply IH; eassumption].
    apply Forall_forall. intros v Hv. apply in_map_iff in Hv.
    destruct Hv as (n & <- & _). unfold visit_groups_ok. simpl.
    repeat split; discriminate.
Qed.

Lemma walk_regions_groups (regions : list json) :
  forall w vs w',
  walk_regions regions w = (Ok vs, w') ->
  Forall visit_groups_ok vs.
Proof.
  induction regions as [|r regions IH]; intros w vs w' H;
    cbn [walk_clusters walk_regions] in *.
  - unfold retM in *. inversion H; subst. constructor.
  - unfold bindM, liftM in *.
    destruct (py_subscript r "id") as [rid| | |]; try discriminate.
    destruct (py_str rid) as [rid_s| | |]; try discriminate.
    destruct (api_get _ w)
      as [[clusters| | |] w1]; try discriminate.
    destruct (walk_clusters rid ("region_" ++ rid_s) clusters w1)
      as [[vs1| | |] w2] eqn:Ec; try discriminate.
    destruct (walk_regions regions w2) as [[vs2| | |] w3] eqn:Er; try discriminate.
    unfold retM in H. inversion H; subst; clear H.
    apply Forall_app. split; [|eapply IH; eassumption].
    eapply walk_clusters_groups; [|eassumption]. eauto.
Qed.

Lemma api_walk_groups (w : World) (vs : list visit) (w' : World) :
  api_walk w = (Ok vs, w') -> Forall visit_groups_ok vs.
Proof.
  unfold api_walk, bindM. intros H.
  destruct (api_get "/regions" w) as [[regions| | |] w1]; try discriminate.
  eapply walk_regions_groups; eassumption.
Qed.

(** A well-formed run returns a document: the walk's nodes are processed
    without error, the static file parses, and the merge succeeds. *)
Lemma build_inventory_run (w : World) (f : static_file) (vs : list visit) (w' : World) :
  well_formed_run w f vs w' ->
  exists st sg sh doc,
    process_visits vs empty_state = Ok st
    /\ get_static_inventory f = Ok (sg, sh)
    /\ merge_static (api_hostnames st) sg sh (inv st) = Ok doc
    /\ build_inventory f w = (Ok doc, w').
Proof.
  intros (Hwalk & Hwf & Hstatic).
  pose proof (api_walk_groups w vs w' Hwalk) as Hg.
  assert (Hall : Forall (fun v => wf_node (v_node v) = true
                                  /\ v_region_group v <> "_meta"
                                  /\ v_cluster_group v <> "_meta") vs).
  { rewrite forallb_forall in Hwf. rewrite Forall_forall in *.
    intros v Hv. destruct (Hg v Hv) as (Hr & Hc & _). auto. }
  destruct (process_visits_ok vs Hall empty_state) as [st Est].
  unfold static_wf in Hstatic.
  destruct (get_static_inventory f) as [[sg sh]| | |] eqn:Es; try discriminate.
  destruct (merge_static_ok (api_hostnames st) sg sh Hstatic (inv st)) as [doc Ed].
  destruct (build_inventory_walk f w vs w' Hwalk) as (Eb & Hw).
  assert (Ea : assemble vs f = Ok doc).
  { unfold assemble. rewrite Est. simpl. rewrite Es. simpl. assumption. }
  exists st, sg, sh, doc. repeat split; try assumption.
  rewrite (surjective_pairing (build_inventory f w)), Eb, Ea, (Hw doc Ea). reflexivity.
Qed.

(** ** Counting occurrences *)

Lemma count_occ_snoc (l : list string) (h : string) :
  count_occ string_dec (l ++ [h]) h = S (count_occ string_dec l h).
Proof.
  rewrite count_occ_app. simpl. destruct (string_dec h h); [lia|contradiction].
Qed.

Lemma append_host_occurrences (g h : string) (i i' : inventory) :
  append_host g h i = Ok i' ->
  occurrences h g i' = S (occurrences h g i)
  /\ forall g0, g0 <> g -> occurrences h g0 i' = occurrences h g0 i.
Proof.
  intros H. apply append_host_spec in H. destruct H as (_ & Hg & Ho).
  unfold occurrences. split.
  - rewrite Hg. apply count_occ_snoc.
  - intros g0 Hne. rewrite Ho by assumption. reflexivity.
Qed.

Lemma append_host_once_le1 (g h : string) (i i' : inventory) :
  append_host_once g h i = Ok i' ->
  (forall g0, occurrences h g0 i <= 1) ->
  forall g0, occurrences h g0 i' <= 1.
Proof.
  intros H Hle g0. apply append_host_once_spec in H. destruct H as (_ & Hg & Ho).
  unfold occurrences in *. destruct (string_dec g0 g) as [->|Hne].
  - rewrite Hg. destruct (mem h (hosts_of g i)) eqn:Em; [apply Hle|].
    rewrite count_occ_snoc. apply mem_not_In in Em.
    apply (count_occ_not_In string_dec) in Em. rewrite Em. lia.
  - rewrite Ho by assumption. apply Hle.
Qed.

Lemma add_roles_le1 (h : string) (roles : list json) :
  forall i i', fold_outcome (add_role h) roles i = Ok i' ->
  (forall g0, occurrences h g0 i <= 1) ->
  forall g0, occurrences h g0 i' <= 1.
Proof.
  induction roles as [|role roles IH]; intros i i' H Hle; simpl in H.
  - inversion H; subst. assumption.
  - destruct (add_role h i role) as [i1| | |] eqn:E1; simpl in H; try discriminate.
    apply (IH i1 i' H).
    destruct role as [| | |r0| |]; simpl in E1; try discriminate.
    eapply append_host_once_le1; eassumption.
Qed.

(** A valid node met by an inventory that does not list its hostname yet
    is listed at most once in every group. *)
Lemma process_node_once (h : string) (v : visit) (st st' : build_state) :
  process_node v st = Ok st' -> carries h v = true ->
  v_region_group v <> v_cluster_group v ->
  (forall g, occurrences h g (inv st) = 0) ->
  forall g, occurrences h g (inv st') <= 1.
Proof.
  unfold process_node, carries.
  destruct (v_node v) as [| | | | |d]; try discriminate.
  destruct (py_get "hostname" (JStr "") d) as [| | |h'| |] eqn:Eh; try discriminate.
  intros H Hc Hne Hzero.
  apply andb_prop in Hc. destruct Hc as [Hc Hip].
  apply andb_prop in Hc. destruct Hc as [Heq Hh].
  apply String.eqb_eq in Heq. subst h'. rewrite Hh, Hip in H. simpl in H.
  destruct (host_variables v d) as [vars| | |]; simpl in H; try discriminate.
  destruct (append_host (v_region_group v) h _) as [i1| | |] eqn:E1;
    simpl in H; try discriminate.
  destruct (append_host (v_cluster_group v) h i1) as [i2| | |] eqn:E2;
    simpl in H; try discriminate.
  destruct (py_iter (py_get "roles" (JArr []) d)) as [roles| | |];
    simpl in H; try discriminate.
  destruct (fold_outcome (add_role h) roles i2) as [i3| | |] eqn:E3;
    simpl in H; try discriminate.
  inversion H; subst st'; clear H. simpl.
  apply append_host_occurrences in E1. destruct E1 as [R1 O1].
  apply append_host_occurrences in E2. destruct E2 as [R2 O2].
  apply (add_roles_le1 h roles i2 i3 E3). intros g0.
  assert (Hz : forall g1, occurrences h g1
                            {| inv_hostvars := dict_set h vars (inv_hostvars (inv st));
                               inv_groups := inv_groups (inv st) |} = 0).
  { intros g1. apply (Hzero g1). }
  destruct (string_dec g0 (v_cluster_group v)) as [->|Hc].
  - rewrite R2, O1 by congruence. rewrite Hz. lia.
  - rewrite O2 by assumption. destruct (string_dec g0 (v_region_group v)) as [->|Hr].
    + rewrite R1, Hz. lia.
    + rewrite O1 by assumption. rewrite Hz. lia.
Qed.

Lemma process_node_occurrences_other (h : string) (v : visit) (st st' : build_state) :
  process_node v st = Ok st' -> carries h v = false ->
  forall g, occurrences h g (inv st') = occurrences h g (inv st).
Proof.
  intros H Hc g. destruct (lacks_hostname_or_ip v) eqn:El.
  - rewrite process_node_skip in H by assumption. inversion H; subst. reflexivity.
  - destruct (process_node_valid v st st' H El) as (h' & vars & Hc' & _ & _ & _ & Hg & _).
    destruct (Hg g) as [n E]. unfold occurrences. rewrite E, count_occ_app.
    assert (Hz : count_occ string_dec (repeat h' n) h = 0).
    { apply count_occ_not_In. intros Hin. apply repeat_spec in Hin. congruence. }
    rewrite Hz. apply Nat.add_0_r.
Qed.

Lemma process_visits_occurrences_other (h : string) (vs : list visit)
    (st st' : build_state) :
  (forall v, In v vs -> carries h v = false) ->
  process_visits vs st = Ok st' ->
  forall g, occurrences h g (inv st') = occurrences h g (inv st).
Proof.
  intros Hno H.
  refine (fold_outcome_rel
            (fun a b => forall g, occurrences h g (inv b) = occurrences h g (inv a))
            _ vs _ _ _ st st' H).
  - reflexivity.
  - intros a b c E1 E2 g. rewrite E2. apply E1.
  - intros a v a' Hin Hv. eapply process_node_occurrences_other; eauto.
Qed.

(** When a single valid node carries [h], the walk lists [h] at most once
    in every group. *)
Lemma process_visits_once (h : string) (pre post : list visit) (v : visit)
    (st' : build_state) :
  carries h v = true ->
  v_region_group v <> v_cluster_group v ->
  (forall v', In v' pre -> carries h v' = false) ->
  (forall v', In v' post -> carries h v' = false) ->
  process_visits (pre ++ v :: post) empty_state = Ok st' ->
  forall g, occurrences h g (inv st') <= 1.
Proof.
  intros Hc Hne Hpre Hpost H g.
  destruct (process_visits_split _ _ _ _ _ H) as (st1 & st2 & H1 & Hv & H2).
  rewrite (process_visits_occurrences_other h post st2 st' Hpost H2).
  apply (process_node_once h v st1 st2 Hv Hc Hne). intros g0.
  rewrite (process_visits_occurrences_other h pre empty_state st1 Hpre H1).
  reflexivity.
Qed.

(** ** The builder *)

Lemma process_visits_skip (pre post : list visit) (v : visit) (st : build_state) :
  lacks_hostname_or_ip v = true ->
  process_visits (pre ++ v :: post) st = process_visits (pre ++ post) st.
Proof.
  intros Hl. rewrite !process_visits_app.
  destruct (process_visits pre st) as [st1| | |]; simpl; try reflexivity.
  change (process_visits (v :: post) st1)
    with (st2 <- process_node v st1 ;; process_visits post st2).
  rewrite process_node_skip by assumption. reflexivity.
Qed.

Lemma not_listed_initially (vs : list visit) (st : build_state) (x : string) :
  process_visits vs empty_state = Ok st -> ~ carried vs x ->
  (forall g, ~ In x (hosts_of g (inv st)))
  /\ vars_of x (inv st) = None
  /\ ~ In x (api_hostnames st).
Proof.
  intros H Hno. destruct (process_visits_from_carriers vs _ _ H) as (G & V & A).
  repeat split.
  - intros g Hin. destruct (G g x Hin) as [[]|]; contradiction.
  - destruct (vars_of x (inv st)) eqn:E; [|reflexivity].
    destruct (V x) as [Hn|]; [congruence| |contradiction].
    exfalso. apply Hn. reflexivity.
  - intros Hin. destruct (A x Hin) as [[]|]; contradiction.
Qed.

(** C3, as the code has it.  For a hostname [h] carried by a valid node of
    the API walk (non-empty hostname and ip address), whether or not the
    static file lists it too: the document's [_meta.hostvars] entry of [h]
    is the API-derived variables of the last valid node carrying it, so no
    static variable appears; the static merge adds no occurrence of [h] to
    any group; and when a single valid node carries [h], every group that
    lists [h] lists it exactly once. *)
Theorem api_host_wins_over_static (w : World) (f : static_file) (vs : list visit)
    (w' : World) (h : string) (pre post : list visit) (v : visit) :
  well_formed_run w f vs w' ->
  vs = pre ++ v :: post ->
  carries h v = true ->
  (forall v', In v' post -> carries h v' = false) ->
  exists st doc,
    process_visits vs empty_state = Ok st
    /\ build_inventory f w = (Ok doc, w')
    /\ vars_of h doc = api_variables v
    /\ api_variables v <> None
    /\ (forall g, occurrences h g doc = occurrences h g (inv st))
    /\ ((forall v', In v' pre -> carries h v' = false) ->
        forall g, In h (hosts_of g doc) -> occurrences h g doc = 1).
Proof.
  intros Hrun -> Hc Hpost.
  destruct (build_inventory_run w f _ w' Hrun) as (st & sg & sh & doc & Hst & _ & Hm & Hb).
  destruct (process_visits_last_wins h pre post v empty_state st Hc Hpost Hst)
    as (Hv & Hsome & Hapi).
  destruct (merge_static_api_host _ sg sh h (inv st) doc Hapi Hm) as (Hmv & Hmc).
  exists st, doc. repeat split; try assumption.
  - congruence.
  - intros Hpre g Hin.
    assert (Hg : visit_groups_ok v).
    { destruct Hrun as (Hwalk & _). apply api_walk_groups in Hwalk.
      rewrite Forall_forall in Hwalk. apply Hwalk. apply in_or_app. right. left. reflexivity. }
    destruct Hg as (_ & _ & Hne).
    pose proof (process_visits_once h pre post v st Hc Hne Hpre Hpost Hst g) as Hle.
    apply (count_occ_In string_dec) in Hin.
    unfold occurrences in *. rewrite Hmc in *. lia.
Qed.

(** C5, as the code has it.  A node whose hostname or ip address is empty
    or absent contributes nothing: processing it changes neither the groups
    nor the host variables nor the set of API hostnames, so the document is
    the one built from the walk without that node; and a hostname appears
    in a group's [hosts] list or in [_meta.hostvars] only when a valid node
    carries it or the static file lists it. *)
Theorem invalid_node_contributes_nothing (w : World) (f : static_file)
    (vs : list visit) (w' : World) :
  (forall v st, lacks_hostname_or_ip v = true -> process_node v st = Ok st)
  /\ (well_formed_run w f vs w' ->
      exists doc,
        build_inventory f w = (Ok doc, w')
        /\ (forall pre v post,
              vs = pre ++ v :: post -> lacks_hostname_or_ip v = true ->
              assemble (pre ++ post) f = Ok doc)
        /\ (forall x,
              (exists g, In x (hosts_of g doc)) \/ vars_of x doc <> None ->
              carried vs x \/ exists g, static_hosts f g x)).
Proof.
  split; [intros v st; apply process_node_skip|].
  intros Hrun.
  destruct (build_inventory_run w f vs w' Hrun) as (st & sg & sh & doc & Hst & Hs & Hm & Hb).
  exists doc. split; [assumption|]. split.
  - intros pre v post -> Hl. unfold assemble.
    rewrite <- (process_visits_skip pre post v empty_state Hl), Hst. simpl.
    rewrite Hs. simpl. assumption.
  - intros x Hx.
    destruct (process_visits_from_carriers vs _ _ Hst) as (G & V & _).
    destruct (merge_static_provenance _ sg sh (inv st) doc Hm) as (MG & MV).
    destruct Hx as [[g Hin]|Hv].
    + destruct (MG g x Hin) as [Hi|[Hl _]].
      * destruct (G g x Hi) as [[]|]; auto.
      * right. exists g, sg, sh. auto.
    + destruct (MV x Hv) as [Hi|[[g Hl] _]].
      * destruct (V x Hi) as [Hn|]; [|auto]. exfalso. apply Hn. reflexivity.
      * right. exists g, sg, sh. auto.
Qed.

(** C6. For every valid node and every role tag on it, the node's hostname
    is listed in the group named by the [ROLE_MAP] entry of the tag when
    there is one, and in the group named by the tag itself otherwise;
    ["database"] is mapped to ["db"] and ["custom"] is not mapped. *)
Theorem role_tag_resolves_to_group (w : World) (f : static_file) (vs : list visit)
    (w' : World) (v : visit) (h r : string) :
  well_formed_run w f vs w' ->
  In v vs -> carries h v = true -> In (JStr r) (roles_of v) ->
  exists doc,
    build_inventory f w = (Ok doc, w')
    /\ (forall g, dict_get r ROLE_MAP = Some g -> In h (hosts_of g doc))
    /\ (dict_get r ROLE_MAP = None -> In h (hosts_of r doc))
    /\ dict_get "database" ROLE_MAP = Some "db"
    /\ dict_get "custom" ROLE_MAP = None.
Proof.
  intros Hrun Hin Hc Hr.
  destruct (build_inventory_run w f vs w' Hrun) as (st & sg & sh & doc & Hst & _ & Hm & Hb).
  destruct (process_visits_places h vs v empty_state st Hin Hc Hst) as (_ & _ & _ & Hroles).
  specialize (Hroles r Hr). rewrite merge_static_pairs in Hm.
  pose proof (merge_pairs_keeps _ sh _ (inv st) doc Hm _ _ Hroles) as Hdoc.
  exists doc. unfold role_group in Hdoc. repeat split; try assumption; try reflexivity.
  - intros g Eg. rewrite Eg in Hdoc. assumption.
  - intros Eg. rewrite Eg in Hdoc. assumption.
Qed.

(** C7, as the code has it.  For a hostname the static groups list and no
    valid API node carries: the document's [_meta.hostvars] entry is
    exactly the key=value pairs parsed for it, as strings, when at least
    one pair was parsed, and is absent when none was; and the document
    lists the hostname in exactly the groups [get_static_inventory] lists
    it under. *)
Theorem static_only_host_keeps_static_data (w : World) (f : static_file)
    (vs : list visit) (w' : World) (sg : dict (list string)) (sh : dict (dict string))
    (x g0 : string) :
  well_formed_run w f vs w' ->
  get_static_inventory f = Ok (sg, sh) ->
  static_lists sg g0 x ->
  ~ carried vs x ->
  exists doc,
    build_inventory f w = (Ok doc, w')
    /\ vars_of x doc = static_entry sh x
    /\ (forall g, In x (hosts_of g doc) <-> static_lists sg g x).
Proof.
  intros Hrun Hs Hl Hno.
  destruct (build_inventory_run w f vs w' Hrun)
    as (st & sg' & sh' & doc & Hst & Hs' & Hm & Hb).
  rewrite Hs in Hs'. inversion Hs'; subst sg' sh'; clear Hs'.
  destruct (not_listed_initially vs st x Hst Hno) as (Hg0 & Hv0 & Hapi).
  exists doc. split; [assumption|]. split.
  - destruct (merge_static_static_host _ sg sh g0 x (inv st) doc Hapi Hl Hm) as (_ & Hv).
    rewrite Hv, Hv0. destruct (static_entry sh x); reflexivity.
  - intros g. split.
    + intros Hin. destruct (merge_static_provenance _ sg sh (inv st) doc Hm) as (MG & _).
      destruct (MG g x Hin) as [Hi|[Hl' _]]; [|assumption].
      exfalso. apply (Hg0 g). assumption.
    + intros Hl'. apply (merge_static_static_host _ sg sh g x (inv st) doc Hapi Hl' Hm).
Qed.

(** C10. When two valid nodes of the walk carry the same hostname, the
    [_meta.hostvars] entry of that hostname in the document is the
    variables built from the one processed last in traversal order, and
    from it alone. *)
Theorem last_node_with_hostname_wins (w : World) (f : static_file) (vs : list visit)
    (w' : World) (h : string) (pre mid post : list visit) (v1 v2 : visit) :
  well_formed_run w f vs w' ->
  vs = pre ++ v1 :: mid ++ v2 :: post ->
  carries h v1 = true -> carries h v2 = true ->
  (forall v', In v' post -> carries h v' = false) ->
  exists doc vars,
    build_inventory f w = (Ok doc, w')
    /\ api_variables v2 = Some vars
    /\ vars_of h doc = Some vars.
Proof.
  intros Hrun -> _ Hc Hpost.
  destruct (build_inventory_run w f _ w' Hrun) as (st & sg & sh & doc & Hst & _ & Hm & Hb).
  replace (pre ++ v1 :: mid ++ v2 :: post) with ((pre ++ v1 :: mid) ++ v2 :: post) in Hst
    by (rewrite <- app_assoc; reflexivity).
  destruct (process_visits_last_wins h _ post v2 empty_state st Hc Hpost Hst)
    as (Hv & Hsome & Hapi).
  destruct (merge_static_api_host _ sg sh h (inv st) doc Hapi Hm) as (Hmv & _).
  destruct (api_variables v2) as [vars|] eqn:Ev; [|contradiction].
  exists doc, vars. repeat split; [assumption|congruence].
Qed.

(** ** The emitter *)


Lemma string_app_assoc (a b c : string) : ((a ++ b) ++ c = a ++ (b ++ c))%string.
Proof. induction a as [|x a IH]; simpl; [reflexivity|rewrite IH; reflexivity]. Qed.

Lemma string_app_nil_r (a : string) : (a ++ "" = a)%string.
Proof. induction a as [|x a IH]; simpl; [reflexivity|rewrite IH; reflexivity]. Qed.




















(** ** Further properties of the builder *)

Lemma carried_dec (vs : list visit) (h : string) :
  carried vs h \/ (forall v, In v vs -> carries h v = false).
Proof.
  induction vs as [|v vs IH].
  - right. intros v [].
  - destruct (carries h v) eqn:E.
    + left. exists v. split; [left; reflexivity|assumption].
    + destruct IH as [(v' & Hin & Hc)|Hno].
      * left. exists v'. split; [right; assumption|assumption].
      * right. intros v' [<-|Hin]; auto.
Qed.

(** Among the nodes carrying [h] there is a last one. *)
Lemma last_carrier (vs : list visit) (h : string) :
  carried vs h ->
  exists pre v post,
    vs = pre ++ v :: post /\ carries h v = true
    /\ (forall v', In v' post -> carries h v' = false).
Proof.
  induction vs as [|v vs IH]; intros (v0 & Hin & Hc).
  - destruct Hin.
  - destruct (carried_dec vs h) as [Hcar|Hno].
    + destruct (IH Hcar) as (pre & v1 & post & -> & Hc1 & Hpost).
      exists (v :: pre), v1, post. auto.
    + exists [], v, vs. repeat split; [|assumption].
      destruct Hin as [<-|Hin]; [assumption|]. rewrite (Hno v0 Hin) in Hc. discriminate.
Qed.

Lemma merge_host_le1 (api : list string) (sh : dict (dict string)) (g h x : string)
    (i i' : inventory) :
  merge_host api sh g i h = Ok i' ->
  (forall g0, occurrences x g0 i <= 1) ->
  forall g0, occurrences x g0 i' <= 1.
Proof.
  intros H Hle g0. destruct (string_dec x h) as [->|Hne].
  - unfold merge_host in H. destruct (mem h api); [inversion H; subst; apply Hle|].
    destruct (append_host_once g h i) as [i1| | |] eqn:E1; simpl in H; try discriminate.
    pose proof (append_host_once_le1 g h i i1 E1 Hle g0) as H1.
    destruct (dict_get h sh); inversion H; subst; exact H1.
  - destruct (merge_host_other api sh g h x i i' H Hne) as (_ & Hc).
    unfold occurrences. rewrite Hc. apply Hle.
Qed.

Lemma merge_static_le1 (api : list string) (sg : dict (list string))
    (sh : dict (dict string)) (x : string) (i i' : inventory) :
  merge_static api sg sh i = Ok i' ->
  (forall g0, occurrences x g0 i <= 1) ->
  forall g0, occurrences x g0 i' <= 1.
Proof.
  rewrite merge_static_pairs. intros H.
  refine (fold_outcome_rel
            (fun a b => (forall g0, occurrences x g0 a <= 1) ->
                        forall g0, occurrences x g0 b <= 1)
            _ (static_pairs sg) _ _ _ i i' H).
  - auto.
  - auto.
  - intros a [g h] a' _ Hp. unfold merge_pair in Hp. simpl in Hp.
    eapply merge_host_le1; eassumption.
Qed.

(** When the valid nodes of the walk have pairwise distinct hostnames (the
    data model's "hostname is a unique key"), no group of the document
    lists a hostname twice, whatever the static file repeats. *)
Theorem unique_hostnames_give_duplicate_free_groups (w : World) (f : static_file)
    (vs : list visit) (w' : World) :
  well_formed_run w f vs w' ->
  hostnames_unique vs ->
  exists doc,
    build_inventory f w = (Ok doc, w')
    /\ forall g, NoDup (hosts_of g doc).
Proof.
  intros Hrun Huniq.
  destruct (build_inventory_run w f vs w' Hrun) as (st & sg & sh & doc & Hst & _ & Hm & Hb).
  exists doc. split; [assumption|]. intros g.
  apply (NoDup_count_occ string_dec). intros x.
  apply (merge_static_le1 _ sg sh x (inv st) doc Hm). clear g. intros g.
  destruct (carried_dec vs x) as [(v & Hin & Hc)|Hno].
  - apply in_split in Hin. destruct Hin as (pre & post & ->).
    destruct (Huniq x pre v post eq_refl Hc) as (Hpre & Hpost).
    assert (Hg : visit_groups_ok v).
    { destruct Hrun as (Hwalk & _). apply api_walk_groups in Hwalk.
      rewrite Forall_forall in Hwalk. apply Hwalk. apply in_or_app. right. left. reflexivity. }
    destruct Hg as (_ & _ & Hne).
    exact (process_visits_once x pre post v st Hc Hne Hpre Hpost Hst g).
  - rewrite (process_visits_occurrences_other x vs empty_state st Hno Hst).
    unfold occurrences, hosts_of. simpl. lia.
Qed.

Lemma process_node_keeps_vars (h : string) (v : visit) (st st' : build_state) :
  process_node v st = Ok st' ->
  vars_of h (inv st) <> None -> vars_of h (inv st') <> None.
Proof.
  intros H Hv. destruct (lacks_hostname_or_ip v) eqn:El.
  - rewrite process_node_skip in H by assumption. inversion H; subst. assumption.
  - destruct (process_node_valid v st st' H El) as (h' & vars & _ & _ & _ & Hvars & _).
    unfold vars_of in *. rewrite Hvars. destruct (string_dec h' h) as [->|Hne].
    + rewrite dict_get_set_same. discriminate.
    + rewrite dict_get_set_other by assumption. assumption.
Qed.

(** After the walk every carried hostname is an API hostname with host
    variables, listed in some group. *)
Lemma process_visits_carried (vs : list visit) (st : build_state) (h : string) :
  process_visits vs empty_state = Ok st -> carried vs h ->
  In h (api_hostnames st)
  /\ vars_of h (inv st) <> None
  /\ exists g, In h (hosts_of g (inv st)).
Proof.
  intros Hst Hcar.
  destruct (last_carrier vs h Hcar) as (pre & v & post & -> & Hc & Hpost).
  destruct (process_visits_last_wins h pre post v empty_state st Hc Hpost Hst)
    as (Hv & Hsome & Hapi).
  split; [assumption|]. split; [congruence|].
  exists (v_region_group v).
  apply (process_visits_places h (pre ++ v :: post) v empty_state st); auto.
  apply in_or_app. right. left. reflexivity.
Qed.

(** Groups and host variables agree: a hostname listed in a group has host
    variables unless it came from a static line without key=value tokens,
    and a hostname with host variables is listed in at least one group. *)
Theorem groups_and_hostvars_agree (w : World) (f : static_file) (vs : list visit)
    (w' : World) (sg : dict (list string)) (sh : dict (dict string)) :
  well_formed_run w f vs w' ->
  get_static_inventory f = Ok (sg, sh) ->
  exists doc,
    build_inventory f w = (Ok doc, w')
    /\ (forall g h, In h (hosts_of g doc) ->
                    vars_of h doc <> None
                    \/ (static_lists sg g h /\ dict_get h sh = None))
    /\ (forall h, vars_of h doc <> None -> exists g, In h (hosts_of g doc)).
Proof.
  intros Hrun Hs.
  destruct (build_inventory_run w f vs w' Hrun)
    as (st & sg' & sh' & doc & Hst & Hs' & Hm & Hb).
  rewrite Hs in Hs'. inversion Hs'; subst sg' sh'; clear Hs'.
  destruct (process_visits_from_carriers vs _ _ Hst) as (G & V & _).
  destruct (merge_static_provenance _ sg sh (inv st) doc Hm) as (MG & MV).
  exists doc. split; [assumption|]. split.
  - intros g h Hin. destruct (MG g h Hin) as [Hi|[Hl Hnot]].
    + left. destruct (G g h Hi) as [[]|Hcar].
      destruct (process_visits_carried vs st h Hst Hcar) as (Hapi & Hv & _).
      destruct (merge_static_api_host _ sg sh h (inv st) doc Hapi Hm) as (Hmv & _).
      congruence.
    + destruct (merge_static_static_host _ sg sh g h (inv st) doc Hnot Hl Hm) as (_ & Hv).
      unfold static_entry in Hv. destruct (dict_get h sh) as [vars|].
      * left. rewrite Hv. discriminate.
      * right. auto.
  - intros h Hv. destruct (MV h Hv) as [Hi|[[g Hl] Hnot]].
    + destruct (V h Hi) as [Hn|Hcar]; [exfalso; apply Hn; reflexivity|].
      destruct (process_visits_carried vs st h Hst Hcar) as (_ & _ & g & Hg).
      exists g. rewrite merge_static_pairs in Hm.
      eapply merge_pairs_keeps; eassumption.
    + exists g. apply (merge_static_static_host _ sg sh g h (inv st) doc Hnot Hl Hm).
Qed.

Lemma api_variables_shape (h : string) (v : visit) (vars : json) :
  carries h v = true -> api_variables v = Some vars ->
  exists d ip sa,
    v_node v = JObj d
    /\ dict_get "ip_address" d = Some ip /\ truthy ip = true
    /\ vars = JObj [ ("ansible_host", ip);
                     ("node_id", py_get "id" (JStr "") d);
                     ("cluster_id", v_cluster_id v);
                     ("region_id", v_region_id v);
                     ("node_roles", py_get "roles" (JArr []) d);
                     ("node_status", py_get "status" (JStr "") d);
                     ("shard_assignments", JArr sa) ].
Proof.
  unfold carries, api_variables, host_variables.
  destruct (v_node v) as [| | | | |d]; try discriminate.
  destruct (py_get "hostname" (JStr "") d) as [| | |h'| |]; try discriminate.
  intros Hc Hv. apply andb_prop in Hc. destruct Hc as [_ Hip].
  destruct (py_iter (py_get "shards" (JArr []) d)) as [shards| | |]; simpl in Hv;
    try discriminate.
  destruct (map_outcome shard_entry shards) as [sa| | |]; simpl in Hv; try discriminate.
  inversion Hv; subst vars; clear Hv.
  unfold py_get in Hip at 1.
  destruct (dict_get "ip_address" d) as [ip|] eqn:Ei; [|discriminate].
  exists d, ip, sa. unfold node_hostvars, py_get at 1. rewrite Ei. auto.
Qed.

(** Every hostname a valid node carries has, in the document, the
    dictionary of the seven API variables, in the order of lines 149-157.
    Its [ansible_host] is the [ip_address] of a valid node carrying the
    hostname and is not empty; its [cluster_id] and [region_id] are those
    of the cluster and region that node was listed under. *)
Theorem api_hosts_have_an_address (w : World) (f : static_file) (vs : list visit)
    (w' : World) (h : string) :
  well_formed_run w f vs w' ->
  carried vs h ->
  exists doc v d vars ip,
    build_inventory f w = (Ok doc, w')
    /\ In v vs /\ carries h v = true /\ v_node v = JObj d
    /\ dict_get "ip_address" d = Some ip /\ truthy ip = true
    /\ vars_of h doc = Some (JObj vars)
    /\ map fst vars = api_variable_names
    /\ dict_get "ansible_host" vars = Some ip
    /\ dict_get "cluster_id" vars = Some (v_cluster_id v)
    /\ dict_get "region_id" vars = Some (v_region_id v).
Proof.
  intros Hrun Hcar.
  destruct (build_inventory_run w f vs w' Hrun) as (st & sg & sh & doc & Hst & _ & Hm & Hb).
  destruct (last_carrier vs h Hcar) as (pre & v & post & -> & Hc & Hpost).
  destruct (process_visits_last_wins h pre post v empty_state st Hc Hpost Hst)
    as (Hv & Hsome & Hapi).
  destruct (merge_static_api_host _ sg sh h (inv st) doc Hapi Hm) as (Hmv & _).
  destruct (api_variables v) as [vars|] eqn:Ev; [|contradiction].
  destruct (api_variables_shape h v vars Hc Ev) as (d & ip & sa & Hd & Hi & Hip & ->).
  eexists doc, v, d, _, ip. split; [assumption|].
  split; [apply in_or_app; right; left; reflexivity|].
  split; [assumption|]. split; [assumption|]. split; [assumption|].
  split; [assumption|].
  split; [rewrite Hmv, Hv; reflexivity|].
  repeat split.
Qed.

Lemma add_roles_only (h : string) (roles : list json) :
  forall i i', fold_outcome (add_role h) roles i = Ok i' ->
  forall g x, In x (hosts_of g i') ->
  In x (hosts_of g i) \/ (x = h /\ exists r, In (JStr r) roles /\ g = role_group r).
Proof.
  induction roles as [|role roles IH]; intros i i' H g x Hx; simpl in H.
  - inversion H; subst. auto.
  - destruct (add_role h i role) as [i1| | |] eqn:E1; simpl in H; try discriminate.
    destruct (IH i1 i' H g x Hx) as [Hi1|(-> & r & Hr & ->)].
    + destruct role as [| | |r0| |]; simpl in E1; try discriminate.
      apply append_host_once_spec in E1. destruct E1 as (_ & Hg & Ho).
      destruct (string_dec g (role_group r0)) as [->|Hne].
      * rewrite Hg in Hi1. destruct (mem h (hosts_of (role_group r0) i)); [auto|].
        apply in_app_or in Hi1. destruct Hi1 as [Hi1|[<-|[]]]; [auto|].
        right. split; [reflexivity|]. exists r0. split; [left|]; reflexivity.
      * rewrite Ho in Hi1 by assumption. auto.
    + right. split; [reflexivity|]. exists r. split; [right; assumption|reflexivity].
Qed.

Lemma process_node_only (v : visit) (st st' : build_state) :
  process_node v st = Ok st' ->
  forall g x, In x (hosts_of g (inv st')) ->
  In x (hosts_of g (inv st)) \/ (carries x v = true /\ names_group v g).
Proof.
  unfold process_node, carries, names_group, role_tags.
  destruct (v_node v) as [| | | | |d]; try discriminate.
  destruct (negb (truthy (py_get "hostname" (JStr "") d))
            || negb (truthy (py_get "ip_address" (JStr "") d))) eqn:El.
  { intros H. inversion H; subst. auto. }
  apply orb_false_elim in El. destruct El as [Hh Hip].
  apply negb_false_iff in Hh, Hip.
  destruct (py_get "hostname" (JStr "") d) as [| | |h| |] eqn:Eh; try discriminate.
  intros H.
  destruct (host_variables v d) as [vars| | |]; simpl in H; try discriminate.
  destruct (append_host (v_region_group v) h _) as [i1| | |] eqn:E1;
    simpl in H; try discriminate.
  destruct (append_host (v_cluster_group v) h i1) as [i2| | |] eqn:E2;
    simpl in H; try discriminate.
  destruct (py_iter (py_get "roles" (JArr []) d)) as [roles| | |];
    simpl in H; try discriminate.
  destruct (fold_outcome (add_role h) roles i2) as [i3| | |] eqn:E3;
    simpl in H; try discriminate.
  inversion H; subst st'; clear H. simpl. intros g x Hx.
  assert (Hcar : (String.eqb h h && truthy (JStr h)
                  && truthy (py_get "ip_address" (JStr "") d))%bool = true).
  { rewrite String.eqb_refl, Hh, Hip. reflexivity. }
  destruct (add_roles_only h roles i2 i3 E3 g x Hx) as [H2|(-> & r & Hr & ->)];
    [|right; split; [assumption|]; right; right; eauto].
  apply append_host_spec in E2. destruct E2 as (_ & Hg2 & Ho2).
  destruct (string_dec g (v_cluster_group v)) as [->|Hc].
  - rewrite Hg2 in H2. apply in_app_or in H2. destruct H2 as [H1|[<-|[]]];
      [|right; split; [assumption|]; auto].
    apply append_host_spec in E1. destruct E1 as (_ & Hg1 & Ho1).
    destruct (string_dec (v_cluster_group v) (v_region_group v)) as [Er|Hr].
    + rewrite Er in H1. rewrite Hg1 in H1. apply in_app_or in H1.
      destruct H1 as [H0|[<-|[]]]; [left; rewrite Er; exact H0|].
      right. split; [assumption|]. auto.
    + rewrite Ho1 in H1 by assumption. left. exact H1.
  - rewrite Ho2 in H2 by assumption.
    apply append_host_spec in E1. destruct E1 as (_ & Hg1 & Ho1).
    destruct (string_dec g (v_region_group v)) as [->|Hr].
    + rewrite Hg1 in H2. apply in_app_or in H2.
      destruct H2 as [H0|[<-|[]]]; [left; exact H0|].
      right. split; [assumption|]. auto.
    + rewrite Ho1 in H2 by assumption. left. exact H2.
Qed.

Lemma process_visits_only (vs : list visit) (st st' : build_state) :
  process_visits vs st = Ok st' ->
  forall g x, In x (hosts_of g (inv st')) ->
  In x (hosts_of g (inv st))
  \/ exists v, In v vs /\ carries x v = true /\ names_group v g.
Proof.
  intros H.
  refine (fold_outcome_rel
            (fun a b => forall g x, In x (hosts_of g (inv b)) ->
                        In x (hosts_of g (inv a))
                        \/ exists v, In v vs /\ carries x v = true /\ names_group v g)
            _ vs _ _ _ st st' H).
  - auto.
  - intros a b c R1 R2 g x Hx. destruct (R2 g x Hx); auto.
  - intros a v a' Hin Hv g x Hx.
    destruct (process_node_only v a a' Hv g x Hx) as [H0|[Hc Hn]]; eauto.
Qed.

Lemma wf_role_tags (h : string) (v : visit) :
  wf_node (v_node v) = true -> carries h v = true -> role_tags v = roles_of v.
Proof.
  unfold wf_node, carries, role_tags, roles_of.
  destruct (v_node v) as [| | | | |d]; try discriminate.
  destruct (py_get "hostname" (JStr "") d) as [| | |h'| |]; try discriminate.
  intros Hwf Hc. apply andb_prop in Hc. destruct Hc as [Hc Hip].
  apply andb_prop in Hc. destruct Hc as [_ Hh]. rewrite Hh, Hip in Hwf. simpl in Hwf.
  apply andb_prop in Hwf. destruct Hwf as [_ Hroles].
  destruct (py_get "roles" (JArr []) d); try discriminate. reflexivity.
Qed.

(** Group membership, characterised: the document lists [x] in [g] exactly
    when a valid node carrying [x] names [g] (as its region group, its
    cluster group or the group of one of its role tags), or no valid node
    carries [x] and the static file lists [x] under [g]. *)
Theorem group_membership_characterised (w : World) (f : static_file)
    (vs : list visit) (w' : World) (sg : dict (list string)) (sh : dict (dict string)) :
  well_formed_run w f vs w' ->
  get_static_inventory f = Ok (sg, sh) ->
  exists doc,
    build_inventory f w = (Ok doc, w')
    /\ forall g x,
         In x (hosts_of g doc)
         <-> (exists v, In v vs /\ carries x v = true /\ names_group v g)
             \/ (static_lists sg g x /\ ~ carried vs x).
Proof.
  intros Hrun Hs.
  destruct (build_inventory_run w f vs w' Hrun)
    as (st & sg' & sh' & doc & Hst & Hs' & Hm & Hb).
  rewrite Hs in Hs'. inversion Hs'; subst sg' sh'; clear Hs'.
  exists doc. split; [assumption|]. intros g x. split.
  - intros Hin. destruct (merge_static_provenance _ sg sh (inv st) doc Hm) as (MG & _).
    destruct (MG g x Hin) as [Hi|[Hl Hnot]].
    + destruct (process_visits_only vs _ _ Hst g x Hi) as [[]|Hv]. auto.
    + right. split; [assumption|]. intros Hcar. apply Hnot.
      apply (process_visits_api_hostnames vs st x Hst). assumption.
  - intros [(v & Hin & Hc & Hn)|[Hl Hnot]].
    + destruct (process_visits_places x vs v empty_state st Hin Hc Hst)
        as (_ & Hr & Hcl & Hroles).
      rewrite merge_static_pairs in Hm.
      apply (merge_pairs_keeps _ sh _ (inv st) doc Hm).
      destruct Hn as [->|[->|(r & Hr0 & ->)]]; [assumption|assumption|].
      apply Hroles. rewrite <- (wf_role_tags x v); [assumption| |assumption].
      destruct Hrun as (_ & Hwf & _). rewrite forallb_forall in Hwf. auto.
    + assert (Hapi : ~ In x (api_hostnames st)).
      { intros Hapi. apply Hnot. apply (process_visits_api_hostnames vs st x Hst). assumption. }
      apply (merge_static_static_host _ sg sh g x (inv st) doc Hapi Hl Hm).
Qed.

Lemma merge_static_none (api : list string) (i : inventory) :
  merge_static api [] [] i = Ok i.
Proof. reflexivity. Qed.

Lemma merge_static_appends (api : list string) (sg : dict (list string))
    (sh : dict (dict string)) (i i' : inventory) :
  merge_static api sg sh i = Ok i' ->
  forall g, exists added,
    hosts_of g i' = hosts_of g i ++ added
    /\ Forall (fun x => ~ In x api /\ static_lists sg g x) added.
Proof.
  rewrite merge_static_pairs. intros H.
  refine (fold_outcome_rel
            (fun a b => forall g, exists added,
                          hosts_of g b = hosts_of g a ++ added
                          /\ Forall (fun x => ~ In x api /\ static_lists sg g x) added)
            _ (static_pairs sg) _ _ _ i i' H).
  - intros a g. exists []. rewrite app_nil_r. auto.
  - intros a b c R1 R2 g. destruct (R1 g) as (l1 & E1 & F1).
    destruct (R2 g) as (l2 & E2 & F2). exists (l1 ++ l2).
    rewrite E2, E1, app_assoc. split; [reflexivity|]. apply Forall_app. auto.
  - intros a [g h] a' Hin Hp g0. unfold merge_pair in Hp. simpl in Hp.
    destruct (in_dec string_dec h api) as [Hapi|Hnot].
    + rewrite merge_host_api in Hp by assumption. inversion Hp; subst.
      exists []. rewrite app_nil_r. auto.
    + apply static_pairs_In in Hin.
      destruct (merge_host_spec api sh g h a a' Hnot Hp) as (_ & Hg & Ho & _).
      destruct (string_dec g0 g) as [->|Hne].
      * destruct (Hg g) as [n E]. exists (repeat h n). split; [assumption|].
        apply Forall_forall. intros x Hx. apply repeat_spec in Hx. subst. auto.
      * exists []. rewrite app_nil_r. split; [auto|constructor].
Qed.

(** The static file only appends.  Every group list of the document is
    the list the same API responses give without a static file, followed
    by static hostnames the API did not supply; and the host variables of
    every API hostname are those it has without a static file. *)
Theorem static_file_only_appends (w : World) (f : static_file) (vs : list visit)
    (w' : World) :
  well_formed_run w f vs w' ->
  exists doc api_doc,
    build_inventory f w = (Ok doc, w')
    /\ build_inventory None w = (Ok api_doc, w')
    /\ (forall g, exists added,
          hosts_of g doc = hosts_of g api_doc ++ added
          /\ Forall (fun x => ~ carried vs x /\ static_hosts f g x) added)
    /\ (forall h, carried vs h -> vars_of h doc = vars_of h api_doc).
Proof.
  intros Hrun.
  destruct (build_inventory_run w f vs w' Hrun) as (st & sg & sh & doc & Hst & Hs & Hm & Hb).
  assert (Hrun0 : well_formed_run w None vs w').
  { destruct Hrun as (Hw & Hwf & _). repeat split; assumption. }
  destruct (build_inventory_run w None vs w' Hrun0)
    as (st0 & sg0 & sh0 & doc0 & Hst0 & Hs0 & Hm0 & Hb0).
  rewrite Hst in Hst0. inversion Hst0; subst st0; clear Hst0.
  simpl in Hs0. inversion Hs0; subst sg0 sh0; clear Hs0.
  rewrite merge_static_none in Hm0. inversion Hm0; subst doc0; clear Hm0.
  exists doc, (inv st). split; [assumption|]. split; [assumption|]. split.
  - intros g. destruct (merge_static_appends _ sg sh (inv st) doc Hm g) as (added & E & F).
    exists added. split; [assumption|]. rewrite Forall_forall in *.
    intros x Hx. destruct (F x Hx) as (Hnot & Hl). split.
    + intros Hcar. apply Hnot. apply (process_visits_api_hostnames vs st x Hst). assumption.
    + exists sg, sh. auto.
  - intros h Hcar.
    apply (merge_static_api_host (api_hostnames st) sg sh h (inv st) doc); [|assumption].
    apply (process_visits_api_hostnames vs st h Hst). assumption.
Qed.

(** ** Failed requests *)

Lemma api_get_first_transport_error (path : string) (rest : list http_result)
    (log : list request) :
  api_get path {| pending := TransportError :: rest; sent := log |}
  = (Ok [], {| pending := rest; sent := log ++ [first_request path] |}).
Proof. reflexivity. Qed.

Lemma for_clusters_all_fail (rid : json) (rgroup : string) (clusters : list json) :
  forall (paths : list string) (st : build_state) (rest : list http_result)
         (log : list request),
  map nodes_path clusters = map Some paths ->
  for_clusters rid rgroup clusters st
    {| pending := repeat TransportError (length clusters) ++ rest; sent := log |}
  = (Ok st, {| pending := rest; sent := log ++ map first_request paths |}).
Proof.
  induction clusters as [|c clusters IH]; intros paths st rest log Hp.
  - destruct paths; [|discriminate]. simpl. unfold retM. rewrite app_nil_r. reflexivity.
  - destruct paths as [|p paths]; [discriminate|]. simpl in Hp.
    inversion Hp as [[Hc Hrest]]; clear Hp.
    cbn [for_clusters length repeat app]. unfold bindM, liftM.
    unfold nodes_path in Hc.
    destruct (py_subscript c "id") as [cid| | |]; try discriminate.
    destruct (py_str cid) as [s| | |]; try discriminate.
    inversion Hc; subst p; clear Hc.
    rewrite api_get_first_transport_error.
    cbn [for_nodes fold_outcome]. rewrite (IH paths st rest _ Hrest).
    simpl. rewrite <- app_assoc. reflexivity.
Qed.

Lemma for_regions_all_fail (regions : list json) :
  forall (paths : list string) (st : build_state) (rest : list http_result)
         (log : list request),
  map clusters_path regions = map Some paths ->
  for_regions regions st
    {| pending := repeat TransportError (length regions) ++ rest; sent := log |}
  = (Ok st, {| pending := rest; sent := log ++ map first_request paths |}).
Proof.
  induction regions as [|r regions IH]; intros paths st rest log Hp.
  - destruct paths; [|discriminate]. simpl. unfold retM. rewrite app_nil_r. reflexivity.
  - destruct paths as [|p paths]; [discriminate|]. simpl in Hp.
    inversion Hp as [[Hr Hrest]]; clear Hp.
    cbn [for_regions length repeat app]. unfold bindM, liftM.
    unfold clusters_path in Hr.
    destruct (py_subscript r "id") as [rid| | |]; try discriminate.
    destruct (py_str rid) as [s| | |]; try discriminate.
    inversion Hr; subst p; clear Hr.
    rewrite api_get_first_transport_error.
    cbn [for_clusters]. unfold retM. rewrite (IH paths st rest _ Hrest).
    simpl. rewrite <- app_assoc. reflexivity.
Qed.

(** Failed requests degrade the inventory instead of aborting it.  When
    the request for the regions fails, or when the regions are listed and
    the clusters request of every one of them fails, [build_inventory]
    returns the document of the static file alone, having sent one request
    in the first case and one more per region in the second; and a
    cluster loop whose nodes requests all fail leaves the inventory under
    construction as it was. *)
Theorem failed_requests_leave_static_only (f : static_file) (rest : list http_result)
    (log : list request) :
  build_inventory f {| pending := TransportError :: rest; sent := log |}
  = (assemble [] f, {| pending := rest; sent := log ++ [first_request "/regions"] |})
  /\ (forall regions paths,
        map clusters_path regions = map Some paths ->
        build_inventory f
          {| pending := single_page regions
                        :: repeat TransportError (length regions) ++ rest;
             sent := log |}
        = (assemble [] f,
           {| pending := rest;
              sent := log ++ first_request "/regions" :: map first_request paths |}))
  /\ (forall rid rgroup clusters paths st,
        map nodes_path clusters = map Some paths ->
        for_clusters rid rgroup clusters st
          {| pending := repeat TransportError (length clusters) ++ rest; sent := log |}
        = (Ok st, {| pending := rest; sent := log ++ map first_request paths |})).
Proof.
  assert (Hasm : forall w,
            (static <~ liftM (get_static_inventory f) ;;
             liftM (merge_static (api_hostnames empty_state) (fst static) (snd static)
                      (inv empty_state))) w
            = (assemble [] f, w)).
  { intros w. unfold assemble, bindM, liftM. simpl.
    destruct (get_static_inventory f) as [static| | |]; reflexivity. }
  split; [|split].
  - unfold build_inventory. unfold bindM at 1. rewrite api_get_first_transport_error.
    unfold bindM at 1. cbn [for_regions]. unfold retM. apply Hasm.
  - intros regions paths Hp. unfold build_inventory. unfold bindM at 1.
    assert (Hg : api_get "/regions"
                   {| pending := single_page regions
                                 :: repeat TransportError (length regions) ++ rest;
                      sent := log |}
                 = (Ok regions,
                    {| pending := repeat TransportError (length regions) ++ rest;
                       sent := log ++ [first_request "/regions"] |})).
    { unfold api_get, single_page. simpl pending. simpl sent.
      rewrite api_get_loop_stop by reflexivity. reflexivity. }
    rewrite Hg. unfold bindM at 1.
    rewrite (for_regions_all_fail regions paths empty_state rest _ Hp).
    rewrite Hasm. rewrite <- app_assoc. reflexivity.
  - intros rid rgroup clusters paths st Hp. apply for_clusters_all_fail. assumption.
Qed.

(** ** What [api_get] sends *)




Lemma api_get_loop_bad_response (path : string) (before : list (dict json))
    (r : http_result) (e : pyerr) :
  (r = BadPayload /\ e = ValueError
   \/ exists j, r = Payload j /\ is_obj j = false /\ e = AttributeError) ->
  forall (url : string) (items : list json)
         (rest : list http_result) (log : list request),
  Forall (fun p => wf_page p = true) before ->
  Forall (fun p => page_stops p = false) before ->
  api_get_loop path url items (responses before ++ r :: rest) log
  = (Raise e,
     {| pending := rest;
        sent := log ++ map make_request (url :: map (next_url path) before) |}).
Proof.
  intros Hr. induction before as [|p before IH]; intros url items rest log Hwf Hgo.
  - destruct Hr as [[-> ->]|(j & -> & Hj & ->)]; [reflexivity|].
    destruct j; try discriminate; reflexivity.
  - inversion Hwf; subst. inversion Hgo; subst.
    change (responses (p :: before) ++ r :: rest)
      with (Payload (JObj p) :: (responses before ++ r :: rest)).
    rewrite api_get_loop_continue by assumption.
    rewrite IH by assumption. simpl. rewrite <- !app_assoc. reflexivity.
Qed.

(** Only transport errors are swallowed.  When, after any number of
    pages, a response body is not JSON, [api_get] lets the [ValueError] of
    [json.loads] through, and when the body is JSON but not an object it
    raises [AttributeError] at [data.get]; in both cases it returns no
    list, not even an empty one. *)
Theorem api_get_propagates_bad_payload (path : string) (before : list (dict json))
    (rest : list http_result) (log : list request) :
  Forall (fun p => wf_page p = true) before ->
  Forall (fun p => page_stops p = false) before ->
  api_get path {| pending := responses before ++ BadPayload :: rest; sent := log |}
  = (Raise ValueError, {| pending := rest; sent := log ++ page_requests path before |})
  /\ forall j, is_obj j = false ->
       api_get path {| pending := responses before ++ Payload j :: rest; sent := log |}
       = (Raise AttributeError,
          {| pending := rest; sent := log ++ page_requests path before |}).
Proof.
  intros Hwf Hgo. unfold api_get, page_requests. simpl pending. simpl sent. split.
  - apply api_get_loop_bad_response; auto.
  - intros j Hj. apply api_get_loop_bad_response; eauto.
Qed.

(** ** Further properties of the static parser *)

(** Blank lines and comment lines, wherever they stand, change nothing:
    the file parses to what it parses to without them. *)
Theorem static_comments_ignored (pre post : list string) (c : string) :
  is_comment c = true ->
  get_static_inventory (Some (pre ++ c :: post)) = get_static_inventory (Some (pre ++ post)).
Proof.
  intros Hc. unfold get_static_inventory. rewrite !fold_outcome_app.
  destruct (fold_outcome parse_line pre _) as [st| | |]; try reflexivity.
  cbn [bind fold_outcome].
  assert (E : parse_line st c = Ok st).
  { unfold parse_line. unfold is_comment in Hc. rewrite Hc. reflexivity. }
  rewrite E. reflexivity.
Qed.

Lemma endswith_app (p s : string) : endswith p (s ++ p) = true.
Proof.
  induction s as [|c s IH]; simpl.
  - destruct p; simpl; rewrite ?String.eqb_refl, ?Ascii.eqb_refl; reflexivity.
  - rewrite IH. apply orb_true_r.
Qed.

Lemma drop_last_app (s : string) (c : ascii) :
  drop_last (s ++ String c EmptyString) = s.
Proof.
  induction s as [|x s IH]; simpl; [reflexivity|].
  rewrite IH. destruct s; reflexivity.
Qed.

Lemma dict_get_In {V} (k : string) (v : V) (d : dict V) :
  dict_get k d = Some v -> In (k, v) d.
Proof.
  induction d as [|[k' v'] d IH]; simpl; [discriminate|].
  destruct (String.eqb k' k) eqn:E.
  - apply String.eqb_eq in E. intros H. inversion H; subst. auto.
  - auto.
Qed.

(** A header line [[name]], with any whitespace around it, makes [name]
    the current group.  The group is created empty when it is new and
    keeps the hosts gathered so far when it was seen before; no other
    group and no variable changes. *)
Theorem header_opens_group (st : parser_state) (raw g : string) :
  strip raw = ("[" ++ g ++ "]")%string ->
  exists st',
    parse_line st raw = Ok st'
    /\ current_group st' = Some g
    /\ hostvars st' = hostvars st
    /\ dict_get g (groups st')
       = Some (match dict_get g (groups st) with Some hosts => hosts | None => [] end)
    /\ forall g', g' <> g -> dict_get g' (groups st') = dict_get g' (groups st).
Proof.
  intros Hs. unfold parse_line. rewrite Hs.
  change ("[" ++ g ++ "]")%string with (String "[" (g ++ "]")).
  cbn [String.eqb startswith String.prefix orb andb]. simpl Ascii.ascii_dec.
  assert (He : endswith "]" (String "[" (g ++ "]")) = true).
  { change (String "[" (g ++ "]")) with ("[" ++ g ++ "]")%string.
    rewrite <- string_app_assoc. apply endswith_app. }
  rewrite He. cbn [slice_1_m1]. rewrite drop_last_app.
  assert (Hp : String.prefix "" (g ++ "]") = true)
    by (destruct (g ++ "]")%string; reflexivity).
  rewrite Hp. cbn [orb andb].
  eexists. split; [reflexivity|]. cbn [current_group hostvars groups].
  split; [reflexivity|]. split; [reflexivity|].
  destruct (dict_get_ensure_same g (groups st)) as (hosts & E & Eh).
  fold (ensure_group g (groups st)). split.
  - rewrite E, Eh. reflexivity.
  - intros g' Hne. apply dict_get_ensure_other. congruence.
Qed.

Lemma split_eq_app (k v : string) :
  contains_char "="%char k = false ->
  split_eq (k ++ "=" ++ v) = Some (k, v).
Proof.
  induction k as [|c k IH]; intros H; simpl in *.
  - reflexivity.
  - apply orb_false_elim in H. destruct H as [Hc Hk]. rewrite Hc, (IH Hk). reflexivity.
Qed.

Lemma split_eq_inv (part : string) :
  forall k v, split_eq part = Some (k, v) ->
  part = (k ++ "=" ++ v)%string /\ contains_char "="%char k = false.
Proof.
  induction part as [|c part IH]; simpl; intros k v H; [discriminate|].
  destruct (Ascii.eqb c "="%char) eqn:Ec.
  - inversion H; subst. apply Ascii.eqb_eq in Ec. subst. auto.
  - destruct (split_eq part) as [[k' v']|]; [|discriminate].
    inversion H; subst. destruct (IH k' v eq_refl) as (-> & Hk).
    simpl. rewrite Ec. auto.
Qed.

(** A token is split at its first [=]: [key=value] is read back as that
    key and that value whenever the key holds no [=], the value being kept
    verbatim even when it holds further [=] signs.  Recording the token
    gives the host that variable and leaves its other variables and the
    other hosts as they were. *)
Theorem key_value_token_recorded (hostname k v : string) (hv : dict (dict string)) :
  contains_char "="%char k = false ->
  split_eq (k ++ "=" ++ v) = Some (k, v)
  /\ exists hv' vars,
       add_token hostname hv (k ++ "=" ++ v) = Ok hv'
       /\ dict_get hostname hv' = Some vars
       /\ dict_get k vars = Some v
       /\ (forall k', k' <> k ->
             dict_get k' vars
             = dict_get k' (match dict_get hostname hv with Some old => old | None => [] end))
       /\ (forall h', h' <> hostname -> dict_get h' hv' = dict_get h' hv).
Proof.
  intros Hk. split; [apply split_eq_app; assumption|].
  unfold add_token. rewrite split_eq_app by assumption.
  unfold py_lookup, dict_mem.
  destruct (dict_get hostname hv) as [old|] eqn:E.
  - rewrite E. simpl. eexists. eexists. split; [reflexivity|].
    rewrite dict_get_set_same. split; [reflexivity|].
    rewrite dict_get_set_same. split; [reflexivity|]. split.
    + intros k' Hne. apply dict_get_set_other. congruence.
    + intros h' Hne. apply dict_get_set_other. congruence.
  - rewrite dict_get_set_same. simpl. eexists. eexists. split; [reflexivity|].
    rewrite dict_get_set_same. split; [reflexivity|]. split; [simpl; rewrite String.eqb_refl; reflexivity|].
    split.
    + intros k' Hne. simpl. destruct (String.eqb k k') eqn:Ek; [|reflexivity].
      apply String.eqb_eq in Ek. congruence.
    + intros h' Hne. rewrite !dict_get_set_other by congruence. reflexivity.
Qed.

Lemma dict_set_keys_incl {V} (k x : string) (v : V) (d : dict V) :
  In x (map fst (dict_set k v d)) -> x = k \/ In x (map fst d).
Proof.
  induction d as [|[k' v'] d IH]; simpl.
  - intros [<-|[]]. auto.
  - destruct (String.eqb k' k); simpl; intros [<-|H]; auto.
    destruct (IH H); auto.
Qed.

Lemma NoDup_dict_set {V} (k : string) (v : V) (d : dict V) :
  NoDup (map fst d) -> NoDup (map fst (dict_set k v d)).
Proof.
  induction d as [|[k' v'] d IH]; simpl; intros H.
  - constructor; [intros []|constructor].
  - inversion H as [|? ? Hnot Hd]; subst.
    destruct (String.eqb k' k) eqn:E; simpl.
    + constructor; assumption.
    + constructor; [|auto]. intros Hin. apply dict_set_keys_incl in Hin.
      destruct Hin as [->|Hin]; [|contradiction].
      rewrite String.eqb_refl in E. discriminate.
Qed.

Lemma dict_set_nonempty {V} (k : string) (v : V) (d : dict V) : dict_set k v d <> [].
Proof.
  destruct d as [|[k' v'] d]; simpl; [discriminate|].
  destruct (String.eqb k' k); discriminate.
Qed.

Lemma add_token_sound (hostname part : string) (hv hv' : dict (dict string)) :
  add_token hostname hv part = Ok hv' ->
  NoDup (map fst hv) ->
  (forall h vars, dict_get h hv = Some vars -> vars <> [] /\ NoDup (map fst vars)) ->
  NoDup (map fst hv')
  /\ (forall h vars, dict_get h hv' = Some vars -> vars <> [] /\ NoDup (map fst vars))
  /\ (forall h, dict_get h hv' <> None -> dict_get h hv <> None \/ h = hostname).
Proof.
  unfold add_token. destruct (split_eq part) as [[k v]|].
  2:{ intros H. inversion H; subst. auto. }
  unfold py_lookup, dict_mem. intros H Hnd Hvars.
  destruct (dict_get hostname hv) as [old|] eqn:E.
  - rewrite E in H. simpl in H. inversion H; subst hv'; clear H.
    split; [apply NoDup_dict_set; assumption|]. split.
    + intros h vars Hg. destruct (string_dec hostname h) as [<-|Hne].
      * rewrite dict_get_set_same in Hg. inversion Hg; subst.
        split; [apply dict_set_nonempty|]. apply NoDup_dict_set.
        apply (Hvars hostname old E).
      * rewrite dict_get_set_other in Hg by assumption. eauto.
    + intros h Hg. destruct (string_dec hostname h) as [<-|Hne]; [auto|].
      rewrite dict_get_set_other in Hg by assumption. auto.
  - rewrite dict_get_set_same in H. simpl in H. inversion H; subst hv'; clear H.
    split; [apply NoDup_dict_set, NoDup_dict_set; assumption|]. split.
    + intros h vars Hg. destruct (string_dec hostname h) as [<-|Hne].
      * rewrite dict_get_set_same in Hg. inversion Hg; subst.
        split; [discriminate|]. simpl. constructor; [intros []|constructor].
      * rewrite !dict_get_set_other in Hg by assumption. eauto.
    + intros h Hg. destruct (string_dec hostname h) as [<-|Hne]; [auto|].
      rewrite !dict_get_set_other in Hg by assumption. auto.
Qed.

Lemma add_tokens_sound (hostname : string) (rest : list string) :
  forall hv hv',
  fold_outcome (add_token hostname) rest hv = Ok hv' ->
  NoDup (map fst hv) ->
  (forall h vars, dict_get h hv = Some vars -> vars <> [] /\ NoDup (map fst vars)) ->
  NoDup (map fst hv')
  /\ (forall h vars, dict_get h hv' = Some vars -> vars <> [] /\ NoDup (map fst vars))
  /\ (forall h, dict_get h hv' <> None -> dict_get h hv <> None \/ h = hostname).
Proof.
  induction rest as [|part rest IH]; intros hv hv' H Hnd Hvars; simpl in H.
  - inversion H; subst. auto.
  - destruct (add_token hostname hv part) as [hv1| | |] eqn:E1; simpl in H; try discriminate.
    destruct (add_token_sound hostname part hv hv1 E1 Hnd Hvars) as (N1 & V1 & K1).
    destruct (IH hv1 hv' H N1 V1) as (N2 & V2 & K2).
    split; [assumption|]. split; [assumption|].
    intros h Hg. destruct (K2 h Hg) as [Hg1|]; auto.
Qed.

Lemma parse_line_sound (st st' : parser_state) (raw : string) :
  parser_sound st -> parse_line st raw = Ok st' -> parser_sound st'.
Proof.
  intros (N1 & N2 & L & E0 & V & Hinv) H.
  assert (Hinv' : parser_inv st').
  { destruct (parse_line_ok st raw Hinv) as (st'' & E & Hi).
    rewrite E in H. inversion H; subst. assumption. }
  unfold parse_line in H.
  destruct (String.eqb (strip raw) "" || startswith "#" (strip raw)
            || startswith ";" (strip raw)).
  { inversion H; subst. exact (conj N1 (conj N2 (conj L (conj E0 (conj V Hinv))))). }
  destruct (startswith "[" (strip raw) && endswith "]" (strip raw)).
  { inversion H; subst st'; clear H. cbn [groups hostvars] in *.
    set (g := slice_1_m1 (strip raw)) in *.
    unfold parser_sound. cbn [groups hostvars]. revert Hinv'.
    unfold dict_mem. destruct (dict_get g (groups st)) as [old|] eqn:Eg; intros Hinv'.
    - exact (conj N1 (conj N2 (conj L (conj E0 (conj V Hinv'))))).
    - split; [apply NoDup_dict_set; assumption|]. split; [assumption|]. split.
      + intros h Hh. destruct (L h Hh) as (g0 & hosts & Hg0 & Hin).
        exists g0, hosts. split; [|assumption].
        rewrite dict_get_set_other; [assumption|]. intros ->. congruence.
      + split; [|split; assumption].
        intros hosts Hg. destruct (string_dec g "") as [Ee|Hne].
        * rewrite Ee in Hg. rewrite dict_get_set_same in Hg. congruence.
        * rewrite dict_get_set_other in Hg by assumption. auto. }
  destruct (current_group st) as [g|]; [|inversion H; subst; exact (conj N1 (conj N2 (conj L (conj E0 (conj V Hinv)))))].
  destruct (String.eqb g "") eqn:Ege; [inversion H; subst; exact (conj N1 (conj N2 (conj L (conj E0 (conj V Hinv)))))|].
  apply String.eqb_neq in Ege.
  destruct (split (strip raw)) as [|hostname rest]; [discriminate|].
  unfold py_lookup in H.
  destruct (dict_get g (groups st)) as [hosts|] eqn:Eg; simpl in H; [|discriminate].
  destruct (fold_outcome (add_token hostname) rest (hostvars st)) as [hv| | |] eqn:Eh;
    simpl in H; try discriminate.
  inversion H; subst st'; clear H. unfold parser_sound. cbn [groups hostvars] in *.
  destruct (add_tokens_sound hostname rest (hostvars st) hv Eh N2 V) as (N2' & V' & K).
  split; [apply NoDup_dict_set; assumption|]. split; [assumption|]. split.
  - intros h Hh. destruct (K h Hh) as [Hold | ->].
    + destruct (L h Hold) as (g0 & hosts0 & Hg0 & Hin).
      destruct (string_dec g g0) as [<-|Hne].
      * exists g, (hosts ++ [hostname]). rewrite dict_get_set_same. split; [reflexivity|].
        apply in_or_app. left. congruence.
      * exists g0, hosts0. rewrite dict_get_set_other by assumption. auto.
    + exists g, (hosts ++ [hostname]). rewrite dict_get_set_same. split; [reflexivity|].
      apply in_or_app. right. left. reflexivity.
  - split; [|split; assumption].
    intros hosts0 Hg. rewrite dict_get_set_other in Hg by assumption. auto.
Qed.

Lemma parse_lines_sound (lines : list string) :
  forall st st', parser_sound st -> fold_outcome parse_line lines st = Ok st' ->
  parser_sound st'.
Proof.
  induction lines as [|raw lines IH]; intros st st' Hs H; simpl in H.
  - inversion H; subst. assumption.
  - destruct (parse_line st raw) as [st1| | |] eqn:E; simpl in H; try discriminate.
    eapply IH; [|eassumption]. eapply parse_line_sound; eassumption.
Qed.

(** The two mappings [get_static_inventory] returns are well formed: no
    group name and no hostname is a key twice; every hostname that has
    variables is listed in some group and has at least one variable, no
    variable twice; and the group named by the empty header [[]] never
    holds a host. *)
Theorem static_inventory_well_formed (f : static_file) (sg : dict (list string))
    (sh : dict (dict string)) :
  get_static_inventory f = Ok (sg, sh) ->
  NoDup (map fst sg)
  /\ NoDup (map fst sh)
  /\ (forall h, dict_get h sh <> None -> exists g, static_lists sg g h)
  /\ (forall hosts, dict_get "" sg = Some hosts -> hosts = [])
  /\ (forall h vars, dict_get h sh = Some vars -> vars <> [] /\ NoDup (map fst vars)).
Proof.
  destruct f as [lines|]; simpl.
  2:{ intros H. inversion H; subst. split; [constructor|]. split; [constructor|].
      split; [intros h Hh; exfalso; apply Hh; reflexivity|].
      split; [intros hosts Hg; discriminate|intros h vars Hg; discriminate]. }
  destruct (fold_outcome parse_line lines _) as [st| | |] eqn:E; simpl; try discriminate.
  intros H. inversion H; subst; clear H.
  assert (Hs : parser_sound st).
  { eapply parse_lines_sound; [|eassumption]. unfold parser_sound. simpl.
    split; [constructor|]. split; [constructor|].
    split; [intros h Hh; exfalso; apply Hh; reflexivity|].
    split; [intros hosts Hg; discriminate|].
    split; [intros h vars Hg; discriminate|intros g Hg; discriminate]. }
  destruct Hs as (N1 & N2 & L & E0 & V & _).
  split; [assumption|]. split; [assumption|]. split; [|split; assumption].
  intros h Hh. destruct (L h Hh) as (g & hosts & Hg & Hin).
  exists g, hosts. split; [apply dict_get_In; assumption|assumption].
Qed.

(** ** Hostnames are never empty *)

Lemma split_from_nonempty_tokens (s : string) :
  forall cur, ~ In "" (split_from cur s).
Proof.
  induction s as [|c s IH]; intros cur; simpl.
  - destruct (String.eqb cur "") eqn:E; [intros []|].
    apply String.eqb_neq in E. intros [H|[]]. congruence.
  - destruct (is_space c); [|apply IH].
    destruct (String.eqb cur "") eqn:E; [apply IH|].
    apply String.eqb_neq in E. intros [H|H]; [congruence|]. exact (IH _ H).
Qed.

Lemma add_tokens_other (hostname : string) (rest : list string) :
  forall hv hv' h,
  fold_outcome (add_token hostname) rest hv = Ok hv' -> h <> hostname ->
  dict_get h hv' = dict_get h hv.
Proof.
  induction rest as [|part rest IH]; intros hv hv' h H Hne; simpl in H.
  - inversion H; subst. reflexivity.
  - destruct (add_token hostname hv part) as [hv1| | |] eqn:E1; simpl in H; try discriminate.
    rewrite (IH hv1 hv' h H Hne). clear IH H.
    unfold add_token in E1. destruct (split_eq part) as [[k v]|];
      [|inversion E1; subst; reflexivity].
    unfold py_lookup, dict_mem in E1.
    destruct (dict_get hostname hv) as [old|] eqn:E.
    + rewrite E in E1. simpl in E1. inversion E1; subst.
      apply dict_get_set_other. congruence.
    + rewrite dict_get_set_same in E1. simpl in E1. inversion E1; subst.
      rewrite !dict_get_set_other by congruence. reflexivity.
Qed.

Lemma parse_line_no_empty_host (st st' : parser_state) (raw : string) :
  no_empty_host st -> parse_line st raw = Ok st' -> no_empty_host st'.
Proof.
  intros (G & V) H. unfold parse_line in H.
  destruct (String.eqb (strip raw) "" || startswith "#" (strip raw)
            || startswith ";" (strip raw)).
  { inversion H; subst. exact (conj G V). }
  destruct (startswith "[" (strip raw) && endswith "]" (strip raw)).
  { inversion H; subst st'; clear H. unfold no_empty_host. cbn [groups hostvars].
    split; [|assumption]. intros g hosts Hg.
    destruct (dict_mem (slice_1_m1 (strip raw)) (groups st)); [eauto|].
    destruct (string_dec (slice_1_m1 (strip raw)) g) as [<-|Hne].
    - rewrite dict_get_set_same in Hg. inversion Hg; subst. intros [].
    - rewrite dict_get_set_other in Hg by assumption. eauto. }
  destruct (current_group st) as [g|]; [|inversion H; subst; exact (conj G V)].
  destruct (String.eqb g ""); [inversion H; subst; exact (conj G V)|].
  pose proof (split_from_nonempty_tokens (strip raw) "") as Htok. fold (split (strip raw)) in Htok.
  destruct (split (strip raw)) as [|hostname rest]; [discriminate|].
  assert (Hh : hostname <> "") by (intros ->; apply Htok; left; reflexivity).
  unfold py_lookup in H.
  destruct (dict_get g (groups st)) as [hosts|] eqn:Eg; simpl in H; [|discriminate].
  destruct (fold_outcome (add_token hostname) rest (hostvars st)) as [hv| | |] eqn:Eh;
    simpl in H; try discriminate.
  inversion H; subst st'; clear H. unfold no_empty_host. cbn [groups hostvars]. split.
  - intros g0 hosts0 Hg. destruct (string_dec g g0) as [<-|Hne].
    + rewrite dict_get_set_same in Hg. inversion Hg; subst. intros Hin.
      apply in_app_or in Hin. destruct Hin as [Hin|[Hin|[]]]; [exact (G g hosts Eg Hin)|].
      congruence.
    + rewrite dict_get_set_other in Hg by assumption. eauto.
  - rewrite (add_tokens_other hostname rest (hostvars st) hv "" Eh) by congruence.
    assumption.
Qed.

Lemma get_static_inventory_no_empty_host (f : static_file) (sg : dict (list string))
    (sh : dict (dict string)) :
  get_static_inventory f = Ok (sg, sh) ->
  (forall g, ~ static_lists sg g "") /\ dict_get "" sh = None.
Proof.
  intros H.
  assert (Hn : NoDup (map fst sg) /\
               (forall g hosts, dict_get g sg = Some hosts -> ~ In "" hosts)
               /\ dict_get "" sh = None).
  { destruct f as [lines|]; simpl in H.
    2:{ inversion H; subst. split; [constructor|]. split; [intros g hosts Hg; discriminate|reflexivity]. }
    destruct (fold_outcome parse_line lines _) as [st| | |] eqn:E; simpl in H;
      try discriminate.
    inversion H; subst; clear H.
    assert (Hs : parser_sound st).
    { eapply parse_lines_sound; [|eassumption]. unfold parser_sound. simpl.
      split; [constructor|]. split; [constructor|].
      split; [intros h Hh; exfalso; apply Hh; reflexivity|].
      split; [intros hosts Hg; discriminate|].
      split; [intros h vars Hg; discriminate|intros g Hg; discriminate]. }
    assert (He : no_empty_host st).
    { refine (fold_outcome_rel (fun a b => no_empty_host a -> no_empty_host b)
                parse_line lines _ _ _ _ st E _).
      - auto.
      - auto.
      - intros a raw a' _ Hp Ha. eapply parse_line_no_empty_host; eassumption.
      - split; [intros g hosts Hg; discriminate|reflexivity]. }
    destruct Hs as (N1 & _). destruct He as (G & V). auto. }
  destruct Hn as (N & G & V). split; [|assumption].
  intros g (hosts & Hin & He).
  assert (Hg : dict_get g sg = Some hosts).
  { clear G V H. induction sg as [|[k v] sg IH]; [destruct Hin|]. simpl in *.
    inversion N as [|? ? Hnot Hnd]; subst.
    destruct Hin as [Heq|Hin].
    - inversion Heq; subst. rewrite String.eqb_refl. reflexivity.
    - destruct (String.eqb k g) eqn:Ek; [|auto].
      apply String.eqb_eq in Ek. subst. exfalso. apply Hnot.
      apply in_map_iff. exists (g, hosts). auto. }
  exact (G g hosts Hg He).
Qed.

Lemma carries_nonempty (h : string) (v : visit) : carries h v = true -> h <> "".
Proof.
  unfold carries. destruct (v_node v) as [| | | | |d]; try discriminate.
  destruct (py_get "hostname" (JStr "") d) as [| | |h'| |]; try discriminate.
  intros H. apply andb_prop in H. destruct H as [H _].
  apply andb_prop in H. destruct H as [He Ht]. apply String.eqb_eq in He. subst.
  simpl in Ht. apply negb_true_iff, String.eqb_neq in Ht. assumption.
Qed.

(** The empty hostname is in no group of the document and has no host
    variables: a node passes line 135 only with a non-empty hostname, and
    the hostname of a static line is its first token, never empty. *)
Theorem no_empty_hostname_in_document (w : World) (f : static_file) (vs : list visit)
    (w' : World) :
  well_formed_run w f vs w' ->
  exists doc,
    build_inventory f w = (Ok doc, w')
    /\ (forall g, ~ In "" (hosts_of g doc))
    /\ vars_of "" doc = None.
Proof.
  intros Hrun.
  destruct (build_inventory_run w f vs w' Hrun) as (st & sg & sh & doc & Hst & Hs & Hm & Hb).
  destruct (get_static_inventory_no_empty_host f sg sh Hs) as (Hl & Hv).
  assert (Hno : ~ carried vs "").
  { intros (v & _ & Hc). exact (carries_nonempty "" v Hc eq_refl). }
  destruct (not_listed_initially vs st "" Hst Hno) as (Hg0 & Hv0 & Hapi).
  destruct (merge_static_provenance _ sg sh (inv st) doc Hm) as (MG & MV).
  exists doc. split; [assumption|]. split.
  - intros g Hin. destruct (MG g "" Hin) as [Hi|[Hs' _]].
    + exact (Hg0 g Hi).
    + exact (Hl g Hs').
  - destruct (vars_of "" doc) eqn:E; [|reflexivity].
    destruct (MV "") as [Hi|[[g Hs'] _]]; [congruence| |].
    + congruence.
    + exfalso. exact (Hl g Hs').
Qed.

(** ** A region without an identifier *)

Lemma for_regions_raises_at (r : json) (e : pyerr) (pre post : list json) :
  py_subscript r "id" = Raise e ->
  forall st w st1 w1,
    for_regions pre st w = (Ok st1, w1) ->
    for_regions (pre ++ r :: post) st w = (Raise e, w1).
Proof.
  intros Hr. induction pre as [|r0 pre IH]; intros st w st1 w1 H.
  - cbn [for_regions] in H. unfold retM in H. inversion H; subst.
    cbn [app for_regions]. unfold bindM at 1, liftM at 1. rewrite Hr. reflexivity.
  - cbn [app for_regions]. cbn [for_regions] in H. revert H.
    unfold bindM, liftM.
    destruct (py_subscript r0 "id") as [rid| | |]; try discriminate.
    destruct (py_str rid) as [s| | |]; try discriminate.
    destruct (api_get _ w) as [[clusters| | |] w2]; try discriminate.
    destruct (for_clusters rid _ clusters st w2) as [[st2| | |] w3]; try discriminate.
    apply IH.
Qed.

(** Regions are not forgiven what nodes are.  A node without a hostname is
    skipped, but a listed region that is not an object, or has no [id]
    key, makes [region["id"]] (line 123) raise, [TypeError] for the one
    and [KeyError] for the other.  When the regions listed before it are
    processed without an exception, [build_inventory] ends with that
    exception right after their requests: no later region is asked for
    and the static file is not read. *)
Theorem region_without_id_aborts (f : static_file) (pre post : list json) (r : json)
    (rest : list http_result) (log : list request) (st1 : build_state) (w1 : World) :
  (forall d, r = JObj d -> dict_get "id" d = None) ->
  for_regions pre empty_state
    {| pending := rest; sent := log ++ [first_request "/regions"] |} = (Ok st1, w1) ->
  build_inventory f {| pending := single_page (pre ++ r :: post) :: rest; sent := log |}
  = (Raise (if is_obj r then KeyError else TypeError), w1).
Proof.
  intros Hid Hpre.
  assert (Hr : py_subscript r "id" = Raise (if is_obj r then KeyError else TypeError)).
  { destruct r as [| b | z | s | l | d]; try reflexivity.
    simpl. rewrite (Hid d eq_refl). reflexivity. }
  unfold build_inventory. unfold bindM at 1.
  assert (Hg : api_get "/regions"
                 {| pending := single_page (pre ++ r :: post) :: rest; sent := log |}
               = (Ok (pre ++ r :: post),
                  {| pending := rest; sent := log ++ [first_request "/regions"] |})).
  { unfold api_get, single_page. simpl pending. simpl sent.
    rewrite api_get_loop_stop by reflexivity. reflexivity. }
  rewrite Hg. unfold bindM at 1.
  rewrite (for_regions_raises_at r _ pre post Hr _ _ _ _ Hpre). reflexivity.
Qed.

(** ** The document as a dictionary *)

(** The steps a valid node goes through. *)
Lemma process_node_steps (v : visit) (st st' : build_state) :
  process_node v st = Ok st' -> lacks_hostname_or_ip v = false ->
  exists h vars i1 i2 roles,
    append_host (v_region_group v) h
      {| inv_hostvars := dict_set h vars (inv_hostvars (inv st));
         inv_groups := inv_groups (inv st) |} = Ok i1
    /\ append_host (v_cluster_group v) h i1 = Ok i2
    /\ fold_outcome (add_role h) roles i2 = Ok (inv st').
Proof.
  unfold process_node, lacks_hostname_or_ip.
  destruct (v_node v) as [| | | | |d]; try discriminate.
  intros H Hl. rewrite Hl in H.
  destruct (py_get "hostname" (JStr "") d) as [| | |h| |]; try discriminate.
  destruct (host_variables v d) as [vars| | |]; simpl in H; try discriminate.
  destruct (append_host (v_region_group v) h _) as [i1| | |] eqn:E1;
    simpl in H; try discriminate.
  destruct (append_host (v_cluster_group v) h i1) as [i2| | |] eqn:E2;
    simpl in H; try discriminate.
  destruct (py_iter (py_get "roles" (JArr []) d)) as [roles| | |];
    simpl in H; try discriminate.
  destruct (fold_outcome (add_role h) roles i2) as [i3| | |] eqn:E3;
    simpl in H; try discriminate.
  inversion H; subst st'; clear H. exists h, vars, i1, i2, roles. auto.
Qed.

Lemma dict_get_keys {V} (k : string) (d : dict V) :
  dict_get k d <> None <-> In k (map fst d).
Proof.
  induction d as [|[k' v'] d IH]; simpl.
  - split; [intros H; exfalso; apply H; reflexivity|intros []].
  - destruct (String.eqb k' k) eqn:E.
    + apply String.eqb_eq in E. split; [auto|discriminate].
    + apply String.eqb_neq in E. rewrite IH. split; [auto|]. intros [H|H]; [contradiction|auto].
Qed.

Lemma groups_sound_set (g : string) (hosts : list string) (gs : dict (list string)) :
  g <> "_meta" -> hosts <> [] ->
  NoDup (map fst gs) -> ~ In "_meta" (map fst gs) ->
  (forall g0 hosts0, dict_get g0 gs = Some hosts0 -> g0 = g \/ hosts0 <> []) ->
  NoDup (map fst (dict_set g hosts gs))
  /\ ~ In "_meta" (map fst (dict_set g hosts gs))
  /\ forall g0 hosts0, dict_get g0 (dict_set g hosts gs) = Some hosts0 -> hosts0 <> [].
Proof.
  intros Hg Hh N M E. split; [apply NoDup_dict_set; assumption|]. split.
  - intros Hin. apply dict_set_keys_incl in Hin. destruct Hin as [Hin|Hin]; auto.
  - intros g0 hosts0 H0. destruct (string_dec g g0) as [<-|Hne].
    + rewrite dict_get_set_same in H0. inversion H0; subst. assumption.
    + rewrite dict_get_set_other in H0 by assumption.
      destruct (E g0 hosts0 H0); [congruence|assumption].
Qed.

Lemma ensure_group_sound (g : string) (gs : dict (list string)) :
  g <> "_meta" ->
  NoDup (map fst gs) -> ~ In "_meta" (map fst gs) ->
  (forall g0 hosts0, dict_get g0 gs = Some hosts0 -> hosts0 <> []) ->
  NoDup (map fst (ensure_group g gs))
  /\ ~ In "_meta" (map fst (ensure_group g gs))
  /\ (forall g0 hosts0, dict_get g0 (ensure_group g gs) = Some hosts0 ->
                        g0 = g \/ hosts0 <> []).
Proof.
  intros Hg N M E. unfold ensure_group. destruct (dict_mem g gs).
  - split; [assumption|]. split; [assumption|]. eauto.
  - split; [apply NoDup_dict_set; assumption|]. split.
    + intros Hin. apply dict_set_keys_incl in Hin. destruct Hin as [Hin|Hin]; auto.
    + intros g0 hosts0 H0. destruct (string_dec g g0) as [<-|Hne]; [auto|].
      rewrite dict_get_set_other in H0 by assumption. eauto.
Qed.

Lemma app_one_nonempty (l : list string) (h : string) : l ++ [h] <> [].
Proof. destruct l; discriminate. Qed.

Lemma append_host_sound (g h : string) (i i' : inventory) :
  append_host g h i = Ok i' -> inventory_sound i -> inventory_sound i'.
Proof.
  unfold append_host. destruct (String.eqb g "_meta") eqn:Eg; [discriminate|].
  apply String.eqb_neq in Eg. intros H (N1 & N2 & M & E).
  destruct (ensure_group_sound g (inv_groups i) Eg N1 M E) as (N1' & M' & E').
  destruct (py_lookup g (ensure_group g (inv_groups i))) as [hosts| | |];
    simpl in H; try discriminate.
  inversion H; subst i'; clear H. unfold inventory_sound. cbn [inv_groups inv_hostvars].
  destruct (groups_sound_set g (hosts ++ [h]) _ Eg (app_one_nonempty hosts h) N1' M' E')
    as (A & B & C).
  auto.
Qed.

Lemma append_host_once_sound (g h : string) (i i' : inventory) :
  append_host_once g h i = Ok i' -> inventory_sound i -> inventory_sound i'.
Proof.
  unfold append_host_once. destruct (String.eqb g "_meta") eqn:Eg; [discriminate|].
  apply String.eqb_neq in Eg. intros H (N1 & N2 & M & E).
  destruct (ensure_group_sound g (inv_groups i) Eg N1 M E) as (N1' & M' & E').
  unfold py_lookup in H.
  destruct (dict_get g (ensure_group g (inv_groups i))) as [hosts|] eqn:Eh;
    simpl in H; [|discriminate].
  destruct (mem h hosts) eqn:Em; inversion H; subst i'; clear H;
    unfold inventory_sound; cbn [inv_groups inv_hostvars].
  - split; [assumption|]. split; [assumption|]. split; [assumption|].
    intros g0 hosts0 H0. destruct (E' g0 hosts0 H0) as [->|Hne]; [|assumption].
    rewrite Eh in H0. inversion H0; subst. intros ->. discriminate.
  - destruct (groups_sound_set g (hosts ++ [h]) _ Eg (app_one_nonempty hosts h) N1' M' E')
      as (A & B & C).
    auto.
Qed.

Lemma add_roles_sound (h : string) (roles : list json) :
  forall i i', fold_outcome (add_role h) roles i = Ok i' ->
  inventory_sound i -> inventory_sound i'.
Proof.
  induction roles as [|role roles IH]; intros i i' H Hs; simpl in H.
  - inversion H; subst. assumption.
  - destruct (add_role h i role) as [i1| | |] eqn:E1; simpl in H; try discriminate.
    apply (IH i1 i' H). destruct role as [| | |r| |]; simpl in E1; try discriminate.
    eapply append_host_once_sound; eassumption.
Qed.

Lemma process_node_sound (v : visit) (st st' : build_state) :
  process_node v st = Ok st' -> inventory_sound (inv st) -> inventory_sound (inv st').
Proof.
  intros H Hs. destruct (lacks_hostname_or_ip v) eqn:El.
  - rewrite process_node_skip in H by assumption. inversion H; subst. assumption.
  - destruct (process_node_steps v st st' H El) as (h & vars & i1 & i2 & roles & E1 & E2 & E3).
    apply (add_roles_sound h roles i2 _ E3).
    apply (append_host_sound _ h i1 i2 E2).
    apply (append_host_sound _ h _ i1 E1).
    destruct Hs as (N1 & N2 & M & E). unfold inventory_sound. cbn [inv_groups inv_hostvars].
    split; [assumption|]. split; [apply NoDup_dict_set; assumption|]. auto.
Qed.

Lemma merge_host_sound (api : list string) (sh : dict (dict string)) (g h : string)
    (i i' : inventory) :
  merge_host api sh g i h = Ok i' -> inventory_sound i -> inventory_sound i'.
Proof.
  unfold merge_host. destruct (mem h api); [intros H; inversion H; subst; auto|].
  destruct (append_host_once g h i) as [i1| | |] eqn:E1; simpl; try discriminate.
  intros H Hs. pose proof (append_host_once_sound g h i i1 E1 Hs) as (N1 & N2 & M & E).
  destruct (dict_get h sh); inversion H; subst i'; clear H;
    unfold inventory_sound; cbn [inv_groups inv_hostvars]; auto.
  split; [assumption|]. split; [apply NoDup_dict_set; assumption|]. auto.
Qed.

(** The document is a dictionary [json.dumps] writes without collisions:
    every group name is a key once, none is the reserved key [_meta], every
    hostname is a key of [_meta.hostvars] once, and every group of the
    document holds at least one host (a static group without hosts, or
    whose hosts all came from the API, is not created). *)
Theorem document_is_a_sound_dictionary (w : World) (f : static_file) (vs : list visit)
    (w' : World) :
  well_formed_run w f vs w' ->
  exists doc,
    build_inventory f w = (Ok doc, w')
    /\ NoDup (map fst (inv_groups doc))
    /\ NoDup (map fst (inv_hostvars doc))
    /\ ~ In "_meta" (map fst (inv_groups doc))
    /\ forall g hosts, dict_get g (inv_groups doc) = Some hosts -> hosts <> [].
Proof.
  intros Hrun.
  destruct (build_inventory_run w f vs w' Hrun) as (st & sg & sh & doc & Hst & Hs & Hm & Hb).
  exists doc. split; [assumption|].
  assert (H0 : inventory_sound (inv empty_state)).
  { unfold inventory_sound. simpl. split; [constructor|]. split; [constructor|].
    split; [intros []|]. intros g hosts Hg. discriminate. }
  assert (H1 : inventory_sound (inv st)).
  { refine (fold_outcome_rel
              (fun a b => inventory_sound (inv a) -> inventory_sound (inv b))
              (fun st v => process_node v st) vs _ _ _ empty_state st Hst H0).
    - auto.
    - auto.
    - intros a v a' _ Hv Ha. eapply process_node_sound; eassumption. }
  rewrite merge_static_pairs in Hm.
  refine (fold_outcome_rel (fun a b => inventory_sound a -> inventory_sound b)
            (merge_pair (api_hostnames st) sh) (static_pairs sg) _ _ _ (inv st) doc Hm H1).
  - auto.
  - auto.
  - intros a [g h] a' _ Hp Ha. unfold merge_pair in Hp. simpl in Hp.
    eapply merge_host_sound; eassumption.
Qed.

(** ** Where [build_inventory] sends requests *)









End Hosting.

(** ** The theorems on concrete runs *)

Lemma api_get_concatenates_pages_witness :
  Forall (fun p => wf_page p = true) ([first_page] ++ [last_page])
  /\ Forall (fun p => page_stops p = false) [first_page]
  /\ page_stops last_page = true
  /\ api_get example_url example_key "/regions"
       {| pending := responses ([first_page] ++ [last_page]) ++ [page [JStr "z"]];
          sent := [] |}
     = (Ok [JStr "a"; JStr "b"; JStr "c"],
        {| pending := [page [JStr "z"]];
           sent := [] ++ page_requests example_url example_key "/regions" [first_page] |}).
Proof.
  assert (H1 : Forall (fun p => wf_page p = true) ([first_page] ++ [last_page]))
    by (repeat constructor).
  assert (H2 : Forall (fun p => page_stops p = false) [first_page])
    by (repeat constructor).
  assert (H3 : page_stops last_page = true) by reflexivity.
  split; [exact H1|]. split; [exact H2|]. split; [exact H3|].
  exact (api_get_concatenates_pages example_url example_key "/regions"
           [first_page] last_page [page [JStr "z"]] [] H1 H2 H3).
Defined.

Lemma api_get_transport_error_empty_witness :
  Forall (fun p => wf_page p = true) [first_page]
  /\ Forall (fun p => page_stops p = false) [first_page]
  /\ api_get example_url example_key "/regions"
       {| pending := responses [first_page] ++ TransportError :: [page [JStr "z"]];
          sent := [] |}
     = (Ok [],
        {| pending := [page [JStr "z"]];
           sent := [] ++ page_requests example_url example_key "/regions" [first_page] |}).
Proof.
  assert (H1 : Forall (fun p => wf_page p = true) [first_page]) by (repeat constructor).
  assert (H2 : Forall (fun p => page_stops p = false) [first_page]) by (repeat constructor).
  split; [exact H1|]. split; [exact H2|].
  exact (api_get_transport_error_empty example_url example_key "/regions"
           [first_page] [page [JStr "z"]] [] H1 H2).
Defined.

Lemma get_static_inventory_tolerant_witness :
  contains_char "="%char "junk" = false
  /\ add_token "cp1" [] "junk" = Ok []
  /\ split (strip "h1 junk  ") = ["h1"; "junk"]
  /\ Forall (fun part => contains_char "="%char part = false) ["junk"]
  /\ parse_line {| groups := [("g", [])]; hostvars := []; current_group := Some "g" |}
       "h1 junk  "
     = Ok {| groups := [("g", ["h1"])]; hostvars := []; current_group := Some "g" |}
  /\ hostvars {| groups := [("g", ["h1"])]; hostvars := []; current_group := Some "g" |}
     = hostvars {| groups := [("g", [])]; hostvars := []; current_group := Some "g" |}
  /\ Forall (fun raw => is_header raw = false) ["orphan a=b"; "# note"]
  /\ get_static_inventory (Some (["orphan a=b"; "# note"] ++ ["[g]"; "h1 junk k=v"]))
     = get_static_inventory (Some ["[g]"; "h1 junk k=v"]).
Proof.
  destruct get_static_inventory_tolerant as (_ & Htok & Hline & Hpre).
  assert (H1 : contains_char "="%char "junk" = false) by reflexivity.
  assert (H2 : split (strip "h1 junk  ") = ["h1"; "junk"]) by reflexivity.
  assert (H3 : Forall (fun part => contains_char "="%char part = false) ["junk"])
    by (repeat constructor).
  assert (H4 : Forall (fun raw => is_header raw = false) ["orphan a=b"; "# note"])
    by (repeat constructor).
  assert (H5 : parse_line
                 {| groups := [("g", [])]; hostvars := []; current_group := Some "g" |}
                 "h1 junk  "
               = Ok {| groups := [("g", ["h1"])]; hostvars := [];
                       current_group := Some "g" |}) by reflexivity.
  split; [exact H1|]. split; [exact (Htok "cp1" [] "junk" H1)|].
  split; [exact H2|]. split; [exact H3|]. split; [exact H5|].
  split; [exact (Hline _ "h1 junk  " _ "h1" ["junk"] H2 H3 H5)|].
  split; [exact H4|].
  exact (Hpre ["orphan a=b"; "# note"] ["[g]"; "h1 junk k=v"] H4).
Defined.

Lemma api_host_wins_over_static_witness :
  well_formed_run example_url example_key run_db_web static_web
    [visit_in_c1 node_db1; visit_in_c1 node_web1]
    (after_walk example_url example_key run_db_web)
  /\ [visit_in_c1 node_db1; visit_in_c1 node_web1]
     = [visit_in_c1 node_db1] ++ visit_in_c1 node_web1 :: []
  /\ carries "web1" (visit_in_c1 node_web1) = true
  /\ (forall v', In v' [] -> carries "web1" v' = false)
  /\ exists doc,
       build_inventory example_url example_key static_web run_db_web
       = (Ok doc, after_walk example_url example_key run_db_web)
       /\ vars_of "web1" doc = api_variables (visit_in_c1 node_web1)
       /\ occurrences "web1" "web" doc = 1.
Proof.
  assert (H1 : well_formed_run example_url example_key run_db_web static_web
                 [visit_in_c1 node_db1; visit_in_c1 node_web1]
                 (after_walk example_url example_key run_db_web)) by run_ok.
  assert (H2 : [visit_in_c1 node_db1; visit_in_c1 node_web1]
               = [visit_in_c1 node_db1] ++ visit_in_c1 node_web1 :: [])
    by reflexivity.
  assert (H3 : carries "web1" (visit_in_c1 node_web1) = true) by reflexivity.
  assert (H4 : forall v', In v' [] -> carries "web1" v' = false) by (intros v' []).
  split; [exact H1|]. split; [exact H2|]. split; [exact H3|]. split; [exact H4|].
  destruct (api_host_wins_over_static example_url example_key run_db_web static_web
              [visit_in_c1 node_db1; visit_in_c1 node_web1]
              (after_walk example_url example_key run_db_web)
              "web1" [visit_in_c1 node_db1] [] (visit_in_c1 node_web1)
              H1 H2 H3 H4)
    as (st & doc & Hst & Hb & Hv & _ & Hocc & Honce).
  exists doc. split; [exact Hb|]. split; [exact Hv|].
  apply Honce.
  - intros v' [<-|[]]. reflexivity.
  - apply (count_occ_In string_dec). unfold occurrences in Hocc. rewrite Hocc.
    vm_compute in Hst. inversion Hst. vm_compute. lia.
Defined.

Lemma invalid_node_contributes_nothing_witness :
  lacks_hostname_or_ip (visit_in_c1 node_cp1_no_ip) = true
  /\ process_node (visit_in_c1 node_cp1_no_ip) empty_state = Ok empty_state
  /\ well_formed_run example_url example_key run_cp1_db static_web
       [visit_in_c1 node_cp1_no_ip; visit_in_c1 node_db1]
       (after_walk example_url example_key run_cp1_db)
  /\ exists doc,
       build_inventory example_url example_key static_web run_cp1_db
       = (Ok doc, after_walk example_url example_key run_cp1_db)
       /\ assemble [visit_in_c1 node_db1] static_web = Ok doc.
Proof.
  destruct (invalid_node_contributes_nothing example_url example_key run_cp1_db
              static_web [visit_in_c1 node_cp1_no_ip; visit_in_c1 node_db1]
              (after_walk example_url example_key run_cp1_db)) as (Hskip & Hrun).
  assert (H1 : lacks_hostname_or_ip (visit_in_c1 node_cp1_no_ip) = true) by reflexivity.
  assert (H2 : well_formed_run example_url example_key run_cp1_db static_web
                 [visit_in_c1 node_cp1_no_ip; visit_in_c1 node_db1]
                 (after_walk example_url example_key run_cp1_db)) by run_ok.
  split; [exact H1|].
  split; [exact (Hskip (visit_in_c1 node_cp1_no_ip) empty_state H1)|].
  split; [exact H2|].
  destruct (Hrun H2) as (doc & Hb & Hwithout & _).
  exists doc. split; [exact Hb|].
  exact (Hwithout [] (visit_in_c1 node_cp1_no_ip) [visit_in_c1 node_db1] eq_refl H1).
Defined.

Lemma role_tag_resolves_to_group_witness :
  well_formed_run example_url example_key run_db None [visit_in_c1 node_db1]
    (after_walk example_url example_key run_db)
  /\ In (visit_in_c1 node_db1) [visit_in_c1 node_db1]
  /\ carries "db1" (visit_in_c1 node_db1) = true
  /\ In (JStr "database") (roles_of (visit_in_c1 node_db1))
  /\ exists doc,
       build_inventory example_url example_key None run_db
       = (Ok doc, after_walk example_url example_key run_db)
       /\ In "db1" (hosts_of "db" doc).
Proof.
  assert (H1 : well_formed_run example_url example_key run_db None
                 [visit_in_c1 node_db1] (after_walk example_url example_key run_db))
    by run_ok.
  assert (H2 : In (visit_in_c1 node_db1) [visit_in_c1 node_db1]) by (left; reflexivity).
  assert (H3 : carries "db1" (visit_in_c1 node_db1) = true) by reflexivity.
  assert (H4 : In (JStr "database") (roles_of (visit_in_c1 node_db1)))
    by (left; reflexivity).
  split; [exact H1|]. split; [exact H2|]. split; [exact H3|]. split; [exact H4|].
  destruct (role_tag_resolves_to_group example_url example_key run_db None
              [visit_in_c1 node_db1] (after_walk example_url example_key run_db)
              (visit_in_c1 node_db1) "db1" "database" H1 H2 H3 H4)
    as (doc & Hb & Hmapped & _).
  exists doc. split; [exact Hb|]. apply Hmapped. reflexivity.
Defined.

Lemma static_only_host_keeps_static_data_witness :
  well_formed_run example_url example_key run_db static_controlplane
    [visit_in_c1 node_db1] (after_walk example_url example_key run_db)
  /\ get_static_inventory static_controlplane
     = Ok ([("controlplane", ["cp1"])],
           [("cp1", [("ansible_host", "10.0.0.5"); ("env", "prod")])])
  /\ static_lists [("controlplane", ["cp1"])] "controlplane" "cp1"
  /\ ~ carried [visit_in_c1 node_db1] "cp1"
  /\ exists doc,
       build_inventory example_url example_key static_controlplane run_db
       = (Ok doc, after_walk example_url example_key run_db)
       /\ vars_of "cp1" doc
          = Some (JObj [("ansible_host", JStr "10.0.0.5"); ("env", JStr "prod")])
       /\ (forall g, In "cp1" (hosts_of g doc)
                     <-> static_lists [("controlplane", ["cp1"])] g "cp1").
Proof.
  assert (H1 : well_formed_run example_url example_key run_db static_controlplane
                 [visit_in_c1 node_db1] (after_walk example_url example_key run_db))
    by run_ok.
  assert (H2 : get_static_inventory static_controlplane
               = Ok ([("controlplane", ["cp1"])],
                     [("cp1", [("ansible_host", "10.0.0.5"); ("env", "prod")])]))
    by reflexivity.
  assert (H3 : static_lists [("controlplane", ["cp1"])] "controlplane" "cp1").
  { exists ["cp1"]. split; left; reflexivity. }
  assert (H4 : ~ carried [visit_in_c1 node_db1] "cp1") by not_carried.
  split; [exact H1|]. split; [exact H2|]. split; [exact H3|]. split; [exact H4|].
  exact (static_only_host_keeps_static_data example_url example_key run_db
           static_controlplane [visit_in_c1 node_db1]
           (after_walk example_url example_key run_db)
           [("controlplane", ["cp1"])]
           [("cp1", [("ansible_host", "10.0.0.5"); ("env", "prod")])]
           "cp1" "controlplane" H1 H2 H3 H4).
Defined.

Lemma last_node_with_hostname_wins_witness :
  well_formed_run example_url example_key run_web1_twice static_web
    [visit_in_c1 node_web1; visit_in_c1 node_web1_moved]
    (after_walk example_url example_key run_web1_twice)
  /\ [visit_in_c1 node_web1; visit_in_c1 node_web1_moved]
     = [] ++ visit_in_c1 node_web1 :: [] ++ visit_in_c1 node_web1_moved :: []
  /\ carries "web1" (visit_in_c1 node_web1) = true
  /\ carries "web1" (visit_in_c1 node_web1_moved) = true
  /\ (forall v', In v' [] -> carries "web1" v' = false)
  /\ exists doc vars,
       build_inventory example_url example_key static_web run_web1_twice
       = (Ok doc, after_walk example_url example_key run_web1_twice)
       /\ api_variables (visit_in_c1 node_web1_moved) = Some vars
       /\ vars_of "web1" doc = Some vars.
Proof.
  assert (H1 : well_formed_run example_url example_key run_web1_twice static_web
                 [visit_in_c1 node_web1; visit_in_c1 node_web1_moved]
                 (after_walk example_url example_key run_web1_twice)) by run_ok.
  assert (H2 : [visit_in_c1 node_web1; visit_in_c1 node_web1_moved]
               = [] ++ visit_in_c1 node_web1 :: [] ++ visit_in_c1 node_web1_moved :: [])
    by reflexivity.
  assert (H3 : carries "web1" (visit_in_c1 node_web1) = true) by reflexivity.
  assert (H4 : carries "web1" (visit_in_c1 node_web1_moved) = true) by reflexivity.
  assert (H5 : forall v', In v' [] -> carries "web1" v' = false) by (intros v' []).
  split; [exact H1|]. split; [exact H2|]. split; [exact H3|]. split; [exact H4|].
  split; [exact H5|].
  exact (last_node_with_hostname_wins example_url example_key run_web1_twice static_web
           [visit_in_c1 node_web1; visit_in_c1 node_web1_moved]
           (after_walk example_url example_key run_web1_twice)
           "web1" [] [] [] (visit_in_c1 node_web1) (visit_in_c1 node_web1_moved)
           H1 H2 H3 H4 H5).
Defined.


(** C4 on a concrete run: the API returns the node [web1] twice in one
    cluster.  The role group, guarded by the membership test of line 173,
    lists it once; the region and cluster groups, appended to without the
    test (lines 162 and 166), list it twice. *)
Theorem duplicate_node_listed_twice :
  exists doc w',
    build_inventory example_url example_key None (one_cluster [node_web1; node_web1])
    = (Ok doc, w')
    /\ hosts_of "region_r1" doc = ["web1"; "web1"]
    /\ hosts_of "cluster_c1" doc = ["web1"; "web1"]
    /\ hosts_of "web" doc = ["web1"].
Proof.
  eexists. eexists. split; [vm_compute; reflexivity|].
  repeat split.
Qed.

(** The API lists [cp1] without an address and the static file lists
    [cp1] too: the document carries the static variables of [cp1], not
    API-derived ones. *)
Lemma static_data_used_for_node_without_ip :
  fst (api_walk example_url example_key (one_cluster [node_cp1_no_ip]))
  = Ok [visit_in_c1 node_cp1_no_ip]
  /\ py_subscript node_cp1_no_ip "hostname" = Ok (JStr "cp1")
  /\ static_hosts static_controlplane "controlplane" "cp1"
  /\ exists doc w',
       build_inventory example_url example_key static_controlplane
         (one_cluster [node_cp1_no_ip]) = (Ok doc, w')
       /\ hosts_of "controlplane" doc = ["cp1"]
       /\ vars_of "cp1" doc
          = Some (JObj [("ansible_host", JStr "10.0.0.5"); ("env", JStr "prod")])
       /\ vars_of "cp1" doc <> api_variables (visit_in_c1 node_cp1_no_ip).
Proof.
  split; [reflexivity|]. split; [reflexivity|]. split.
  - eexists. eexists. split; [reflexivity|]. exists ["cp1"]. split; left; reflexivity.
  - eexists. eexists. split; [vm_compute; reflexivity|].
    split; [reflexivity|]. split; [reflexivity|]. vm_compute. discriminate.
Qed.

(** The API lists [web1] without an address; the static file supplies
    [web1]: the hostname of the skipped node is in a group and has host
    variables. *)
Lemma hostname_of_node_without_ip_listed_from_static :
  fst (api_walk example_url example_key (one_cluster [node_web1_no_ip]))
  = Ok [visit_in_c1 node_web1_no_ip]
  /\ py_subscript node_web1_no_ip "hostname" = Ok (JStr "web1")
  /\ lacks_hostname_or_ip (visit_in_c1 node_web1_no_ip) = true
  /\ exists doc w',
       build_inventory example_url example_key static_web
         (one_cluster [node_web1_no_ip]) = (Ok doc, w')
       /\ In "web1" (hosts_of "web" doc)
       /\ vars_of "web1" doc = Some (JObj [("ansible_host", JStr "192.168.0.1")]).
Proof.
  split; [reflexivity|]. split; [reflexivity|]. split; [reflexivity|].
  eexists. eexists. split; [vm_compute; reflexivity|].
  split; [left; reflexivity|reflexivity].
Qed.

(** A static host line without any key=value token: the host is listed in
    its group and [_meta.hostvars] has no entry for it. *)
Lemma static_host_without_variables_has_no_entry :
  get_static_inventory static_bare_host = Ok ([("controlplane", ["cp1"])], [])
  /\ fst (api_walk example_url example_key (script [page []])) = Ok []
  /\ exists doc w',
       build_inventory example_url example_key static_bare_host (script [page []])
       = (Ok doc, w')
       /\ hosts_of "controlplane" doc = ["cp1"]
       /\ inv_hostvars doc = []
       /\ vars_of "cp1" doc = None.
Proof.
  split; [reflexivity|]. split; [reflexivity|].
  eexists. eexists. split; [vm_compute; reflexivity|]. repeat split.
Qed.

(** C6 on concrete runs.  The API lists [cp1], tagged [database], without
    an address: the node is skipped at line 135 and no group, [db]
    included, lists [cp1].  The node [web2] has an address and the tag
    [_meta], which the table leaves as it is: the membership test of line
    173 looks for [hosts] in the reserved entry and raises [KeyError], so
    no document is returned. *)
Lemma role_of_skipped_or_reserved_node_not_placed :
  fst (api_walk example_url example_key (one_cluster [node_cp1_no_ip]))
  = Ok [visit_in_c1 node_cp1_no_ip]
  /\ py_subscript node_cp1_no_ip "hostname" = Ok (JStr "cp1")
  /\ In (JStr "database") (roles_of (visit_in_c1 node_cp1_no_ip))
  /\ dict_get "database" ROLE_MAP = Some "db"
  /\ (exists doc w',
        build_inventory example_url example_key None (one_cluster [node_cp1_no_ip])
        = (Ok doc, w')
        /\ ~ In "cp1" (hosts_of "db" doc)
        /\ inv_groups doc = [])
  /\ fst (api_walk example_url example_key (one_cluster [node_meta_role]))
     = Ok [visit_in_c1 node_meta_role]
  /\ carries "web2" (visit_in_c1 node_meta_role) = true
  /\ In (JStr "_meta") (roles_of (visit_in_c1 node_meta_role))
  /\ dict_get "_meta" ROLE_MAP = None
  /\ fst (build_inventory example_url example_key None (one_cluster [node_meta_role]))
     = Raise KeyError.
Proof.
  split; [reflexivity|]. split; [reflexivity|]. split; [left; reflexivity|].
  split; [reflexivity|]. split.
  - eexists. eexists. split; [vm_compute; reflexivity|].
    split; [intros []|reflexivity].
  - split; [reflexivity|]. split; [reflexivity|]. split; [left; reflexivity|].
    split; [reflexivity|]. vm_compute. reflexivity.
Qed.

(** ** The further properties on concrete runs *)

Lemma unique_hostnames_give_duplicate_free_groups_witness :
  well_formed_run example_url example_key run_db_web static_web
    [visit_in_c1 node_db1; visit_in_c1 node_web1]
    (after_walk example_url example_key run_db_web)
  /\ hostnames_unique [visit_in_c1 node_db1; visit_in_c1 node_web1]
  /\ exists doc,
       build_inventory example_url example_key static_web run_db_web
       = (Ok doc, after_walk example_url example_key run_db_web)
       /\ forall g, NoDup (hosts_of g doc).
Proof.
  assert (H1 : well_formed_run example_url example_key run_db_web static_web
                 [visit_in_c1 node_db1; visit_in_c1 node_web1]
                 (after_walk example_url example_key run_db_web)) by run_ok.
  assert (H2 : hostnames_unique [visit_in_c1 node_db1; visit_in_c1 node_web1]).
  { intros h pre v post E Hc.
    destruct pre as [|a [|b [|c pre]]]; simpl in E; inversion E; subst; clear E.
    - split; [intros v' []|]. intros v' [<-|[]].
      assert (E1 : h = "db1")
        by (apply (carries_unique h "db1" (visit_in_c1 node_db1) Hc); reflexivity).
      subst h. reflexivity.
    - split; [|intros v' []]. intros v' [<-|[]].
      assert (E1 : h = "web1")
        by (apply (carries_unique h "web1" (visit_in_c1 node_web1) Hc); reflexivity).
      subst h. reflexivity. }
  split; [exact H1|]. split; [exact H2|].
  exact (unique_hostnames_give_duplicate_free_groups example_url example_key run_db_web
           static_web [visit_in_c1 node_db1; visit_in_c1 node_web1]
           (after_walk example_url example_key run_db_web) H1 H2).
Defined.

Lemma groups_and_hostvars_agree_witness :
  well_formed_run example_url example_key run_db static_bare_host
    [visit_in_c1 node_db1] (after_walk example_url example_key run_db)
  /\ get_static_inventory static_bare_host = Ok ([("controlplane", ["cp1"])], [])
  /\ exists doc,
       build_inventory example_url example_key static_bare_host run_db
       = (Ok doc, after_walk example_url example_key run_db)
       /\ (forall g h, In h (hosts_of g doc) ->
                       vars_of h doc <> None
                       \/ (static_lists [("controlplane", ["cp1"])] g h
                           /\ dict_get h (@nil (string * dict string)) = None))
       /\ (forall h, vars_of h doc <> None -> exists g, In h (hosts_of g doc)).
Proof.
  assert (H1 : well_formed_run example_url example_key run_db static_bare_host
                 [visit_in_c1 node_db1] (after_walk example_url example_key run_db))
    by run_ok.
  assert (H2 : get_static_inventory static_bare_host
               = Ok ([("controlplane", ["cp1"])], [])) by reflexivity.
  split; [exact H1|]. split; [exact H2|].
  exact (groups_and_hostvars_agree example_url example_key run_db static_bare_host
           [visit_in_c1 node_db1] (after_walk example_url example_key run_db)
           [("controlplane", ["cp1"])] [] H1 H2).
Defined.

Lemma api_hosts_have_an_address_witness :
  well_formed_run example_url example_key run_db None
    [visit_in_c1 node_db1] (after_walk example_url example_key run_db)
  /\ carried [visit_in_c1 node_db1] "db1"
  /\ exists doc vars,
       build_inventory example_url example_key None run_db
       = (Ok doc, after_walk example_url example_key run_db)
       /\ vars_of "db1" doc = Some (JObj vars)
       /\ map fst vars = api_variable_names.
Proof.
  assert (H1 : well_formed_run example_url example_key run_db None
                 [visit_in_c1 node_db1] (after_walk example_url example_key run_db))
    by run_ok.
  assert (H2 : carried [visit_in_c1 node_db1] "db1").
  { exists (visit_in_c1 node_db1). split; [left; reflexivity|reflexivity]. }
  split; [exact H1|]. split; [exact H2|].
  destruct (api_hosts_have_an_address example_url example_key run_db None
              [visit_in_c1 node_db1] (after_walk example_url example_key run_db)
              "db1" H1 H2)
    as (doc & v & d & vars & ip & Hb & _ & _ & _ & _ & _ & Hv & Hn & _).
  exists doc, vars. split; [exact Hb|]. split; [exact Hv|exact Hn].
Defined.

Lemma group_membership_characterised_witness :
  well_formed_run example_url example_key run_db static_controlplane
    [visit_in_c1 node_db1] (after_walk example_url example_key run_db)
  /\ get_static_inventory static_controlplane
     = Ok ([("controlplane", ["cp1"])],
           [("cp1", [("ansible_host", "10.0.0.5"); ("env", "prod")])])
  /\ exists doc,
       build_inventory example_url example_key static_controlplane run_db
       = (Ok doc, after_walk example_url example_key run_db)
       /\ forall g x,
            In x (hosts_of g doc)
            <-> (exists v, In v [visit_in_c1 node_db1]
                           /\ carries x v = true /\ names_group v g)
                \/ (static_lists [("controlplane", ["cp1"])] g x
                    /\ ~ carried [visit_in_c1 node_db1] x).
Proof.
  assert (H1 : well_formed_run example_url example_key run_db static_controlplane
                 [visit_in_c1 node_db1] (after_walk example_url example_key run_db))
    by run_ok.
  assert (H2 : get_static_inventory static_controlplane
               = Ok ([("controlplane", ["cp1"])],
                     [("cp1", [("ansible_host", "10.0.0.5"); ("env", "prod")])]))
    by reflexivity.
  split; [exact H1|]. split; [exact H2|].
  exact (group_membership_characterised example_url example_key run_db
           static_controlplane [visit_in_c1 node_db1]
           (after_walk example_url example_key run_db)
           [("controlplane", ["cp1"])]
           [("cp1", [("ansible_host", "10.0.0.5"); ("env", "prod")])] H1 H2).
Defined.

Lemma static_file_only_appends_witness :
  well_formed_run example_url example_key run_db_web static_web
    [visit_in_c1 node_db1; visit_in_c1 node_web1]
    (after_walk example_url example_key run_db_web)
  /\ exists doc api_doc,
       build_inventory example_url example_key static_web run_db_web
       = (Ok doc, after_walk example_url example_key run_db_web)
       /\ build_inventory example_url example_key None run_db_web
          = (Ok api_doc, after_walk example_url example_key run_db_web)
       /\ (forall g, exists added, hosts_of g doc = hosts_of g api_doc ++ added).
Proof.
  assert (H1 : well_formed_run example_url example_key run_db_web static_web
                 [visit_in_c1 node_db1; visit_in_c1 node_web1]
                 (after_walk example_url example_key run_db_web)) by run_ok.
  split; [exact H1|].
  destruct (static_file_only_appends example_url example_key run_db_web static_web
              [visit_in_c1 node_db1; visit_in_c1 node_web1]
              (after_walk example_url example_key run_db_web) H1)
    as (doc & api_doc & Hb & Hb0 & Hg & _).
  exists doc, api_doc. split; [exact Hb|]. split; [exact Hb0|].
  intros g. destruct (Hg g) as (added & E & _). exists added. exact E.
Defined.

Lemma failed_requests_leave_static_only_witness :
  map clusters_path [region_r1; JObj [("id", JNum 2)]]
  = map Some ["/regions/r1/clusters"; "/regions/2/clusters"]
  /\ build_inventory example_url example_key static_controlplane
       {| pending := single_page [region_r1; JObj [("id", JNum 2)]]
                     :: repeat TransportError 2 ++ [];
          sent := [] |}
     = (assemble [] static_controlplane,
        {| pending := [];
           sent := [] ++ first_request example_url example_key "/regions"
                   :: map (first_request example_url example_key)
                        ["/regions/r1/clusters"; "/regions/2/clusters"] |})
  /\ map nodes_path [cluster_c1] = map Some ["/clusters/c1/nodes"]
  /\ for_clusters example_url example_key (JStr "r1") "region_r1" [cluster_c1]
       empty_state {| pending := repeat TransportError 1 ++ []; sent := [] |}
     = (Ok empty_state,
        {| pending := [];
           sent := [] ++ map (first_request example_url example_key)
                           ["/clusters/c1/nodes"] |}).
Proof.
  assert (H1 : map clusters_path [region_r1; JObj [("id", JNum 2)]]
               = map Some ["/regions/r1/clusters"; "/regions/2/clusters"])
    by reflexivity.
  assert (H2 : map nodes_path [cluster_c1] = map Some ["/clusters/c1/nodes"])
    by reflexivity.
  destruct (failed_requests_leave_static_only example_url example_key
              static_controlplane [] []) as (_ & Hregions & Hclusters).
  split; [exact H1|].
  split; [exact (Hregions [region_r1; JObj [("id", JNum 2)]]
                   ["/regions/r1/clusters"; "/regions/2/clusters"] H1)|].
  split; [exact H2|].
  exact (Hclusters (JStr "r1") "region_r1" [cluster_c1] ["/clusters/c1/nodes"]
           empty_state H2).
Defined.

Lemma api_get_propagates_bad_payload_witness :
  Forall (fun p => wf_page p = true) [first_page]
  /\ Forall (fun p => page_stops p = false) [first_page]
  /\ api_get example_url example_key "/regions"
       {| pending := responses [first_page] ++ BadPayload :: []; sent := [] |}
     = (Raise ValueError,
        {| pending := [];
           sent := [] ++ page_requests example_url example_key "/regions" [first_page] |})
  /\ is_obj (JArr [region_r1]) = false
  /\ api_get example_url example_key "/regions"
       {| pending := responses [first_page] ++ Payload (JArr [region_r1]) :: [];
          sent := [] |}
     = (Raise AttributeError,
        {| pending := [];
           sent := [] ++ page_requests example_url example_key "/regions" [first_page] |}).
Proof.
  assert (H1 : Forall (fun p => wf_page p = true) [first_page]) by (repeat constructor).
  assert (H2 : Forall (fun p => page_stops p = false) [first_page]) by (repeat constructor).
  assert (H3 : is_obj (JArr [region_r1]) = false) by reflexivity.
  destruct (api_get_propagates_bad_payload example_url example_key "/regions"
              [first_page] [] [] H1 H2) as (Hbad & Hshape).
  split; [exact H1|]. split; [exact H2|]. split; [exact Hbad|]. split; [exact H3|].
  exact (Hshape (JArr [region_r1]) H3).
Defined.

Lemma static_comments_ignored_witness :
  is_comment "   ; disabled" = true
  /\ get_static_inventory (Some (["[web]"; "web1"] ++ "   ; disabled" :: ["web2"]))
     = get_static_inventory (Some (["[web]"; "web1"] ++ ["web2"])).
Proof.
  assert (H1 : is_comment "   ; disabled" = true) by reflexivity.
  split; [exact H1|].
  exact (static_comments_ignored ["[web]"; "web1"] ["web2"] "   ; disabled" H1).
Defined.

Lemma header_opens_group_witness :
  strip "  [web]  " = ("[" ++ "web" ++ "]")%string
  /\ exists st',
       parse_line {| groups := [("web", ["web1"])]; hostvars := [];
                     current_group := Some "db" |} "  [web]  " = Ok st'
       /\ current_group st' = Some "web"
       /\ dict_get "web" (groups st') = Some ["web1"].
Proof.
  assert (H1 : strip "  [web]  " = ("[" ++ "web" ++ "]")%string) by reflexivity.
  split; [exact H1|].
  destruct (header_opens_group
              {| groups := [("web", ["web1"])]; hostvars := []; current_group := Some "db" |}
              "  [web]  " "web" H1) as (st' & Hp & Hc & _ & Hg & _).
  exists st'. split; [exact Hp|]. split; [exact Hc|exact Hg].
Defined.

Lemma key_value_token_recorded_witness :
  contains_char "="%char "opts" = false
  /\ split_eq ("opts" ++ "=" ++ "a=b") = Some ("opts", "a=b")
  /\ exists hv' vars,
       add_token "cp1" [("cp1", [("env", "prod")])] ("opts" ++ "=" ++ "a=b") = Ok hv'
       /\ dict_get "cp1" hv' = Some vars
       /\ dict_get "opts" vars = Some "a=b".
Proof.
  assert (H1 : contains_char "="%char "opts" = false) by reflexivity.
  destruct (key_value_token_recorded "cp1" "opts" "a=b" [("cp1", [("env", "prod")])] H1)
    as (Hs & hv' & vars & Ha & Hg & Hk & _).
  split; [exact H1|]. split; [exact Hs|].
  exists hv', vars. split; [exact Ha|]. split; [exact Hg|exact Hk].
Defined.

Lemma static_inventory_well_formed_witness :
  get_static_inventory static_controlplane
  = Ok ([("controlplane", ["cp1"])],
        [("cp1", [("ansible_host", "10.0.0.5"); ("env", "prod")])])
  /\ NoDup (map fst [("controlplane", ["cp1"])])
  /\ forall h, dict_get h [("cp1", [("ansible_host", "10.0.0.5"); ("env", "prod")])] <> None ->
               exists g, static_lists [("controlplane", ["cp1"])] g h.
Proof.
  assert (H1 : get_static_inventory static_controlplane
               = Ok ([("controlplane", ["cp1"])],
                     [("cp1", [("ansible_host", "10.0.0.5"); ("env", "prod")])]))
    by reflexivity.
  destruct (static_inventory_well_formed static_controlplane _ _ H1)
    as (Hn & _ & Hl & _).
  split; [exact H1|]. split; [exact Hn|exact Hl].
Defined.

Lemma no_empty_hostname_in_document_witness :
  well_formed_run example_url example_key run_cp1_db static_web
    [visit_in_c1 node_cp1_no_ip; visit_in_c1 node_db1]
    (after_walk example_url example_key run_cp1_db)
  /\ exists doc,
       build_inventory example_url example_key static_web run_cp1_db
       = (Ok doc, after_walk example_url example_key run_cp1_db)
       /\ (forall g, ~ In "" (hosts_of g doc))
       /\ vars_of "" doc = None.
Proof.
  assert (H1 : well_formed_run example_url example_key run_cp1_db static_web
                 [visit_in_c1 node_cp1_no_ip; visit_in_c1 node_db1]
                 (after_walk example_url example_key run_cp1_db)) by run_ok.
  split; [exact H1|].
  exact (no_empty_hostname_in_document example_url example_key run_cp1_db static_web
           [visit_in_c1 node_cp1_no_ip; visit_in_c1 node_db1]
           (after_walk example_url example_key run_cp1_db) H1).
Defined.

Lemma region_without_id_aborts_witness :
  (forall d, JObj [("name", JStr "eu")] = JObj d -> dict_get "id" d = None)
  /\ exists st1 w1,
       for_regions example_url example_key [region_r1] empty_state
         {| pending := [page [cluster_c1]; page [node_web1]; page [region_r1]];
            sent := [] ++ [first_request example_url example_key "/regions"] |}
       = (Ok st1, w1)
       /\ pending w1 = [page [region_r1]]
       /\ build_inventory example_url example_key static_controlplane
            {| pending := single_page ([region_r1] ++ JObj [("name", JStr "eu")]
                                         :: [JObj [("id", JStr "r3")]])
                          :: [page [cluster_c1]; page [node_web1]; page [region_r1]];
               sent := [] |}
          = (Raise KeyError, w1).
Proof.
  assert (H1 : forall d, JObj [("name", JStr "eu")] = JObj d -> dict_get "id" d = None)
    by (intros d E; inversion E; reflexivity).
  assert (H2 : exists st1 w1,
             for_regions example_url example_key [region_r1] empty_state
               {| pending := [page [cluster_c1]; page [node_web1]; page [region_r1]];
                  sent := [] ++ [first_request example_url example_key "/regions"] |}
             = (Ok st1, w1)
             /\ pending w1 = [page [region_r1]])
    by (eexists; eexists; split; [vm_compute; reflexivity|reflexivity]).
  split; [exact H1|].
  destruct H2 as (st1 & w1 & H2 & H3).
  exists st1, w1. split; [exact H2|]. split; [exact H3|].
  exact (region_without_id_aborts example_url example_key static_controlplane
           [region_r1] [JObj [("id", JStr "r3")]] (JObj [("name", JStr "eu")])
           [page [cluster_c1]; page [node_web1]; page [region_r1]] [] st1 w1 H1 H2).
Defined.

Lemma document_is_a_sound_dictionary_witness :
  well_formed_run example_url example_key run_db_web static_web
    [visit_in_c1 node_db1; visit_in_c1 node_web1]
    (after_walk example_url example_key run_db_web)
  /\ exists doc,
       build_inventory example_url example_key static_web run_db_web
       = (Ok doc, after_walk example_url example_key run_db_web)
       /\ NoDup (map fst (inv_groups doc))
       /\ NoDup (map fst (inv_hostvars doc))
       /\ ~ In "_meta" (map fst (inv_groups doc))
       /\ forall g hosts, dict_get g (inv_groups doc) = Some hosts -> hosts <> [].
Proof.
  assert (H1 : well_formed_run example_url example_key run_db_web static_web
                 [visit_in_c1 node_db1; visit_in_c1 node_web1]
                 (after_walk example_url example_key run_db_web)) by run_ok.
  split; [exact H1|].
  exact (document_is_a_sound_dictionary example_url example_key run_db_web static_web
           [visit_in_c1 node_db1; visit_in_c1 node_web1]
           (after_walk example_url example_key run_db_web) H1).
Defined.
